(** * curiosity_baselines: the five-room maze, its gym adapter and the RND bonus

    A shallow embedding of three source files:
    - [Maze]: rlpyt/envs/pycolab/pycolab/examples/deepmind_5room_moveable.py
    - [Env]:  rlpyt/envs/mazeworld/mazeworld/envs/pycolab_env.py
      ([Traj]: the [PycolabTrajInfo] of the same file)
    - [Rnd]:  rlpyt/models/curiosity/rnd.py

    Python dictionaries are finite maps, numpy arrays are lists (or, for
    the painted board, functions of the cell), integers are [Z], real-valued
    tensors are rationals, and every draw of a random generator is an
    explicit argument of the function that draws it. *)

From Stdlib Require Import ZArith QArith Qabs Qminmax Ascii String Lia.
From stdpp Require Import gmap strings list fin_maps.

#[local] Open Scope Z_scope.

(** ** Shared vocabulary *)

(** A board cell [(row, col)], as pycolab's [Position] named tuple. *)
Definition Position : Type := Z * Z.

Definition Position_eqb (p q : Position) : bool :=
  (p.1 =? q.1) && (p.2 =? q.2).

(** A game board: the 2-D array of characters pycolab renders. *)
Definition Board : Type := list (list ascii).

Definition board_rows (board : Board) : Z := Z.of_nat (length board).

Definition board_cols (board : Board) : Z :=
  match board with
  | [] => 0
  | row :: _ => Z.of_nat (length row)
  end.

Definition on_board (board : Board) (p : Position) : bool :=
  (0 <=? p.1) && (p.1 <? board_rows board) &&
  (0 <=? p.2) && (p.2 <? board_cols board).

(** [board[row, col]] for a cell known to lie on the board. *)
Definition board_at (board : Board) (p : Position) : option ascii :=
  if on_board board p
  then board !! Z.to_nat p.1 ≫= λ row, row !! Z.to_nat p.2
  else None.

(** ** The five-room maze with a moveable and a white-noise object *)

Module Maze.

#[local] Open Scope string_scope.

Definition MAZES_ART : list (list string) :=
  [ [ "###################";
      "##               ##";
      "# #             # #";
      "#  #     e     #  #";
      "#   #         #   #";
      "#    #### ####    #";
      "#    #### ####    #";
      "#    ##     ##    #";
      "#    ##     ##    #";
      "#        P        #";
      "#    ##     ##    #";
      "#    ##     ##    #";
      "#    #### ####    #";
      "#    #### ####    #";
      "#   #         #   #";
      "#  #           #  #";
      "# # b           # #";
      "##               ##";
      "###################" ] ].

#[local] Close Scope string_scope.

Definition ROOMS : gmap Z (list Position) :=
  list_to_map
  [ (0, [(7, 7); (7, 8); (7, 9); (7, 10); (7, 11); (8, 7); (8, 8); (8, 9);
         (8, 10); (8, 11); (9, 7); (9, 8); (9, 9); (9, 10); (9, 11); (10, 7);
         (10, 8); (10, 9); (10, 10); (10, 11); (11, 7); (11, 8); (11, 9);
         (11, 10); (11, 11)]);
    (1, [(4, 1); (4, 2); (5, 1); (5, 2); (5, 3); (6, 1); (6, 2); (6, 3);
         (6, 4); (7, 1); (7, 2); (7, 3); (7, 4); (8, 1); (8, 2); (8, 3);
         (9, 1); (9, 2); (9, 3); (10, 1); (10, 2); (10, 3); (11, 1); (11, 2);
         (11, 3); (11, 4); (12, 1); (12, 2); (12, 3); (12, 4); (13, 1);
         (13, 2); (13, 3); (14, 1); (14, 2)]);
    (2, [(1, 4); (1, 5); (1, 6); (1, 7); (1, 8); (1, 9); (1, 10); (1, 11);
         (1, 12); (1, 13); (1, 14); (2, 4); (2, 5); (2, 6); (2, 7); (2, 8);
         (2, 9); (2, 10); (2, 11); (2, 12); (2, 13); (2, 14); (3, 5); (3, 6);
         (3, 7); (3, 8); (3, 9); (3, 10); (3, 11); (3, 12); (3, 13); (4, 6);
         (4, 7); (4, 11); (4, 12)]);
    (3, [(4, 16); (4, 17); (5, 15); (5, 16); (5, 17); (6, 14); (6, 15);
         (6, 16); (6, 17); (7, 14); (7, 15); (7, 16); (7, 17); (8, 15);
         (8, 16); (8, 17); (9, 15); (9, 16); (9, 17); (10, 15); (10, 16);
         (10, 17); (11, 14); (11, 15); (11, 16); (11, 17); (12, 14); (12, 15);
         (12, 16); (12, 17); (13, 15); (13, 16); (13, 17); (14, 16);
         (14, 17)]);
    (4, [(14, 6); (14, 7); (14, 11); (14, 12); (15, 5); (15, 6); (15, 7);
         (15, 8); (15, 9); (15, 10); (15, 11); (15, 12); (15, 13); (16, 4);
         (16, 5); (16, 6); (16, 7); (16, 8); (16, 9); (16, 10); (16, 11);
         (16, 12); (16, 13); (16, 14); (17, 4); (17, 5); (17, 6); (17, 7);
         (17, 8); (17, 9); (17, 10); (17, 11); (17, 12); (17, 13);
         (17, 14)]) ].

(** [ROOMS[4]], the list the white-noise object samples from. *)
Definition ROOMS_4 : list Position := default [] (ROOMS !! 4).

(** *** pycolab's [MazeWalker] *)

(** Modelled from the spec: [prefab_sprites.MazeWalker] is part of the
    vendored pycolab package and is not among the source files.  A walker
    has a position and a set of impassable characters; [_move] tests the
    character the board shows at the target cell and either returns that
    character (the walker stays) or moves the walker and returns [None].
    A walker not confined to the board is not stopped by the board's edge.
    [_teleport] sets the position without any test. *)
Record MazeWalker := mkWalker {
  position : Position;
  character : ascii;
  impassable : list ascii
}.

Definition _teleport (w : MazeWalker) (p : Position) : MazeWalker :=
  mkWalker p (character w) (impassable w).

Definition _move (w : MazeWalker) (board : Board) (motion : Position)
  : option ascii * MazeWalker :=
  let target := ((position w).1 + motion.1, (position w).2 + motion.2) in
  match board_at board target with
  | Some ch =>
      if bool_decide (ch ∈ impassable w) then (Some ch, w)
      else (None, _teleport w target)
  | None => (None, _teleport w target)
  end.

Definition NORTH : Position := (-1, 0).
Definition SOUTH : Position := (1, 0).
Definition EAST : Position := (0, 1).
Definition WEST : Position := (0, -1).
Definition STAY : Position := (0, 0).

Definition _north w board := _move w board NORTH.
Definition _south w board := _move w board SOUTH.
Definition _east w board := _move w board EAST.
Definition _west w board := _move w board WEST.
Definition _stay w board := _move w board STAY.

(** *** The three sprites *)

(** [PlayerSprite]: a walker that remembers where it stood and what it was
    told before its latest update. *)
Record PlayerSprite := mkPlayer {
  walker : MazeWalker;
  last_position : option Position;
  last_action : option Z
}.

Definition PlayerSprite_init (p : Position) (ch : ascii) : PlayerSprite :=
  mkPlayer (mkWalker p ch ["#"%char]) None None.

Definition WhiteNoiseObject_init (p : Position) (ch : ascii) : MazeWalker :=
  mkWalker p ch ["P"; "e"; "#"]%char.

Definition MoveableObject_init (p : Position) (ch : ascii) : MazeWalker :=
  mkWalker p ch ["#"; "b"]%char.

(** [PlayerSprite.update]; the second component tells whether the episode
    was terminated (action 5). *)
Definition PlayerSprite_update (P : PlayerSprite) (actions : option Z)
    (board : Board) : PlayerSprite * bool :=
  let w := walker P in
  let w' :=
    if bool_decide (actions = Some 0) then (_north w board).2
    else if bool_decide (actions = Some 1) then (_south w board).2
    else if bool_decide (actions = Some 2) then (_west w board).2
    else if bool_decide (actions = Some 3) then (_east w board).2
    else if bool_decide (actions = Some 4) then (_stay w board).2
    else w in
  (mkPlayer w' (Some (position w)) actions, bool_decide (actions = Some 5)).

(** [WhiteNoiseObject.update]; [k] is the value [np.random.choice] returned
    for [len(self._empty_coords)].  An index outside the list is Python's
    [IndexError], here [None]. *)
Definition WhiteNoiseObject_update (b : MazeWalker) (k : nat)
  : option MazeWalker :=
  _teleport b <$> ROOMS_4 !! k.

(** The player pushed back one cell ([things['P']._north] and the like). *)
Definition push_back (P : PlayerSprite) (board : Board) (motion : Position)
  : PlayerSprite :=
  mkPlayer (_move (walker P) board motion).2 (last_position P) (last_action P).

(** [MoveableObject.update]: returns the object and the player.  Before the
    player's first update [last_position] is [None] and the unpacking in the
    second line raises; that is the outer [None]. *)
Definition MoveableObject_update (e : MazeWalker) (board : Board)
    (P : PlayerSprite) : option (MazeWalker * PlayerSprite) :=
  let '(mr, mc) := position e in
  match last_position P with
  | None => None
  | Some (pr, pc) =>
    let p_action := last_action P in
    Some (
    (* move up *)
    if (mc =? pc) && (mr - pr =? -1) && bool_decide (p_action = Some 0) then
      let '(moved, e') := _north e board in
      if bool_decide (moved ≠ None) then (e', push_back P board SOUTH)
      else (e', P)
    (* move down *)
    else if (mc =? pc) && (mr - pr =? 1) && bool_decide (p_action = Some 1) then
      let exiting_room := Position_eqb (position e) (3, 9) in
      if exiting_room then ((_stay e board).2, push_back P board NORTH)
      else
        let '(moved, e') := _south e board in
        if bool_decide (moved ≠ None) then (e', push_back P board NORTH)
        else (e', P)
    (* move right *)
    else if (mc - pc =? 1) && (mr =? pr) && bool_decide (p_action = Some 3) then
      let exiting_room := Position_eqb (position e) (4, 8) in
      if exiting_room then ((_stay e board).2, push_back P board WEST)
      else
        let '(moved, e') := _east e board in
        if bool_decide (moved ≠ None) then (e', push_back P board WEST)
        else (e', P)
    (* move left *)
    else if (mc - pc =? -1) && (mr =? pr) && bool_decide (p_action = Some 2) then
      let exiting_room := Position_eqb (position e) (4, 10) in
      if exiting_room then ((_stay e board).2, push_back P board EAST)
      else
        let '(moved, e') := _west e board in
        if bool_decide (moved ≠ None) then (e', push_back P board EAST)
        else (e', P)
    else (e, P))
  end.

(** *** The game: one frame of the pycolab engine *)

(** Modelled from the spec: the pycolab engine and [ascii_art_to_game] are
    not among the source files.  [make_game] reads the sprites' starting
    cells off the art and leaves [what_lies_beneath] in their place; the
    board is the backdrop with the sprites drawn in [z_order] (later ones on
    top); a frame renders the board once and then updates the sprites of the
    single update group in [update_schedule] order against that board. *)
Record Game := mkGame {
  backdrop : Board;
  P : PlayerSprite;
  e : MazeWalker;
  b : MazeWalker;
  game_over : bool;
  frame : Z
}.

Definition what_lies_beneath : ascii := " ".
Definition update_schedule : list ascii := ["P"; "e"; "b"]%char.
Definition z_order : list ascii := ["e"; "b"; "P"]%char.

Definition art_board (art : list string) : Board :=
  list_ascii_of_string <$> art.

(** The cell of the first occurrence of [ch] in the art. *)
Definition find_sprite (ch : ascii) (art : Board) : option Position :=
  list_find (λ rc : Position, bool_decide (board_at art rc = Some ch))
    (r ← seqZ 0 (board_rows art); (λ c, (r, c)) <$> seqZ 0 (board_cols art))
  ≫= λ x, Some x.2.

Definition make_backdrop (art : Board) : Board :=
  fmap (M := list)
    (λ ch, if bool_decide (ch ∈ update_schedule) then what_lies_beneath else ch)
  <$> art.

Definition make_game (level : nat) : option Game :=
  maze_ascii ← MAZES_ART !! level;
  let art := art_board maze_ascii in
  pP ← find_sprite "P" art;
  pe ← find_sprite "e" art;
  pb ← find_sprite "b" art;
  Some (mkGame (make_backdrop art) (PlayerSprite_init pP "P")
          (MoveableObject_init pe "e") (WhiteNoiseObject_init pb "b") false 0).

(** What the board shows at a cell. *)
Definition render_cell (g : Game) (rc : Position) (under : ascii) : ascii :=
  if Position_eqb (position (walker (P g))) rc then "P"%char
  else if Position_eqb (position (b g)) rc then "b"%char
  else if Position_eqb (position (e g)) rc then "e"%char
  else under.

Definition render (g : Game) : Board :=
  imap (λ r row,
    imap (λ c under, render_cell g (Z.of_nat r, Z.of_nat c) under) row)
    (backdrop g).

(** One frame: [actions] is [None] for [its_showtime] and the agent's
    action for [play]; [k] is the white-noise object's draw. *)
Definition update_frame (g : Game) (actions : option Z) (k : nat)
  : option Game :=
  let board := render g in
  let '(P1, quit) := PlayerSprite_update (P g) actions board in
  '(e1, P2) ← MoveableObject_update (e g) board P1;
  b1 ← WhiteNoiseObject_update (b g) k;
  Some (mkGame (backdrop g) P2 e1 b1 (game_over g || quit) (frame g)).

Definition its_showtime (g : Game) (k : nat) : option Game :=
  g' ← update_frame g None k;
  Some (mkGame (backdrop g') (P g') (e g') (b g') (game_over g') 0).

Definition play (g : Game) (action : Z) (k : nat) : option Game :=
  g' ← update_frame g (Some action) k;
  Some (mkGame (backdrop g') (P g') (e g') (b g') (game_over g') (frame g + 1)).

(** *** The four pushes *)

Inductive Direction := Up | Down | Right | Left.

Definition motion (d : Direction) : Position :=
  match d with Up => NORTH | Down => SOUTH | Right => EAST | Left => WEST end.

Definition opposite (d : Direction) : Direction :=
  match d with Up => Down | Down => Up | Right => Left | Left => Right end.

(** The action number that moves the player in direction [d]. *)
Definition action_of (d : Direction) : Z :=
  match d with Up => 0 | Down => 1 | Left => 2 | Right => 3 end.

(** The cell from which a push in direction [d] would leave room 2. *)
Definition exit_cell (d : Direction) : option Position :=
  match d with
  | Up => None
  | Down => Some (3, 9)
  | Right => Some (4, 8)
  | Left => Some (4, 10)
  end.

Definition shift (p : Position) (m : Position) : Position :=
  (p.1 + m.1, p.2 + m.2).

(** The cell next to [p] on the side opposite to [d]. *)
Definition behind (p : Position) (d : Direction) : Position :=
  shift p (motion (opposite d)).

(** The board shows a character the walker cannot pass at the next cell in
    direction [m]. *)
Definition obstructed (w : MazeWalker) (board : Board) (m : Position) : bool :=
  match board_at board (shift (position w) m) with
  | Some ch => bool_decide (ch ∈ impassable w)
  | None => false
  end.

Definition at_exit (w : MazeWalker) (d : Direction) : bool :=
  match exit_cell d with
  | Some c => Position_eqb (position w) c
  | None => false
  end.

(** *** Room 2 *)

(** The backdrop of level 0: the art without the sprites. *)
Definition level_0_backdrop : Board :=
  make_backdrop (art_board (default [] (MAZES_ART !! 0%nat))).

(** The cells of a board, row by row. *)
Definition cells (board : Board) : list Position :=
  r ← seqZ 0 (board_rows board); pair r <$> seqZ 0 (board_cols board).

(** The floor of room 2, the room at the top of level 0, up to its doorway
    (4, 9): rows 1 to 4 between the two diagonal walls. *)
Definition in_room_2 (p : Position) : bool :=
  (1 <=? p.1) && (p.1 <=? 4) && (p.1 <? p.2) && (p.2 <? 18 - p.1)
  && negb (Position_eqb p (4, 9)).

Definition directions : list Direction := [Up; Down; Right; Left].

Definition is_wall (board : Board) (p : Position) : bool :=
  bool_decide (board_at board p = Some "#"%char).

Definition is_floor (board : Board) (p : Position) : bool :=
  bool_decide (board_at board p = Some " "%char).

(** The sprites of level 0 stand on the floor, the moveable object in
    room 2. *)
Definition well_placed (g : Game) : Prop :=
  backdrop g = level_0_backdrop ∧
  impassable (walker (P g)) = ["#"%char] ∧
  impassable (e g) = ["#"; "b"]%char ∧
  board_at level_0_backdrop (position (walker (P g))) = Some " "%char ∧
  board_at level_0_backdrop (position (b g)) = Some " "%char ∧
  in_room_2 (position (e g)) = true.

(** A game played from a state: in every frame an action and the draw of
    the white-noise object. *)
Fixpoint play_all (g : Game) (inputs : list (Z * nat)) : option Game :=
  match inputs with
  | [] => Some g
  | (action, k) :: inputs => g' ← play g action k; play_all g' inputs
  end.

(** *** The sprites at the end of a frame *)

(** The sprites at the end of a frame of level 0: each on its floor, the
    white-noise object on a cell of [ROOMS[4]], the player not on the
    moveable object. *)
Definition settled (g : Game) : Prop :=
  well_placed g ∧
  position (b g) ∈ ROOMS_4 ∧
  position (walker (P g)) ≠ position (e g).

End Maze.
(** ** The gym adapter around a pycolab game *)

Module Env.

(** A layer of an observation: a boolean array over the board. *)
Definition Mask : Type := list (list bool).

Definition RGB : Type := Z * Z * Z.

Definition rgb_map (f : Z → Z) (x : RGB) : RGB := (f x.1.1, f x.1.2, f x.2).

(** An [H x W x 3] array, as its shape and the pixel at each cell. *)
Record Image := mkImage {
  shape : nat * nat;
  pixel : nat → nat → RGB
}.

Record Observation := mkObservation {
  obs_board : Board;
  layers : gmap ascii Mask
}.

Definition board_shape (board : Board) : nat * nat :=
  (length board, match board with [] => 0%nat | row :: _ => length row end).

Definition mask_at (m : Mask) (r c : nat) : bool :=
  default false (m !! r ≫= λ row, row !! c).

(** [1. in mask] *)
Definition one_in (m : Mask) : bool := existsb (existsb id) m.

(** The goal of the extrinsic reward: a coordinate (a tuple) or a
    character. *)
Inductive Goal := GoalCoord (p : Position) | GoalChar (c : ascii).

Definition is_tuple (goal : Goal) : bool :=
  match goal with GoalCoord _ => true | GoalChar _ => false end.

Definition goal_is_char (goal : Goal) (char : ascii) : bool :=
  match goal with GoalCoord _ => false | GoalChar c => bool_decide (char = c) end.

Definition goal_is_coord (goal : Goal) (p : Position) : bool :=
  match goal with GoalCoord q => Position_eqb p q | GoalChar _ => false end.

(** A value stored in the [info] dictionary a step returns. *)
Inductive InfoValue :=
| InfoCounts (m : gmap ascii Z)
| InfoNumber (n : Z)
| InfoReal (q : Q).

(** The part of [pycolab.Engine] the adapter uses.  The engine is a mutable
    object: every call returns the engine it leaves behind.  [things] and
    the observation layers are looked up without a missing-key case. *)
Class Pycolab (Engine : Type) := {
  its_showtime : Engine → Engine * Observation * option Q;
  play : Engine → Z → Engine * Observation * option Q;
  game_over : Engine → bool;
  frame : Engine → Z;
  thing_position : Engine → ascii → Position;
  z_order : Engine → list ascii;
  the_plot_info : Engine → gmap string InfoValue
}.

(** scipy's [entropy], applied to the flattened heatmap. *)
Class SciPy := { entropy : list Z → Q → Q }.

(** [self._extrinsic_reward > 0.0] *)
Definition Qpositive (x : Q) : bool := negb (Qle_bool x 0).

(** The arguments of the constructor, with what a subclass and
    [pycolab_init] set once and never change: [objects],
    [state_layer_chars], [_croppers] and [log_heatmaps]. *)
Record Config := mkConfig {
  max_iterations : Z;
  obs_type : string;
  default_reward : Q;
  resize_scale : nat;
  visitable_states : Q;
  extrinsic_reward : Q;
  extrinsic_reward_spec : option (ascii * Goal);
  color_palette : Z;
  objects : list ascii;
  state_layer_chars : list ascii;
  _croppers : list (Observation → Observation);
  log_heatmaps : bool
}.

(** What [_state] holds: the stacked masks or the resized RGB image. *)
Inductive StateArray :=
| MaskState (masks : list Mask)
| RgbState (img : Image).

(** [{char: v for char in self.objects}] *)
Definition dict_of (chars : list ascii) (v : Z) : gmap ascii Z :=
  list_to_map ((λ char, (char, v)) <$> chars).

Definition make_colors (palette : Z) : option (gmap ascii RGB) :=
  if palette =? 0 then
    Some (list_to_map
      [("P", (255, 255, 255)); ("a", (175, 255, 15)); ("b", (21, 0, 255));
       ("c", (255, 0, 0)); ("d", (19, 139, 67)); ("e", (250, 0, 129));
       ("f", (114, 206, 227)); ("g", (136, 3, 252)); ("h", (245, 119, 34));
       ("#", (61, 61, 61)); ("@", (90, 90, 90)); (" ", (0, 0, 0))]%char)
  else if palette =? 1 then
    Some (list_to_map
      [("P", (255, 255, 255)); ("a", (136, 3, 252)); ("b", (21, 0, 255));
       ("c", (255, 0, 0)); ("d", (19, 139, 67)); ("e", (150, 0, 129));
       ("#", (61, 61, 61)); ("@", (90, 90, 90)); (" ", (0, 0, 0))]%char)
  else if palette =? 2 then
    Some (list_to_map
      [("P", (255, 255, 255)); ("a", (255, 0, 0)); ("b", (255, 0, 0));
       ("c", (255, 0, 0)); ("d", (255, 0, 0)); ("e", (255, 0, 0));
       ("f", (255, 0, 0)); ("g", (255, 0, 0)); ("h", (255, 0, 0));
       ("#", (61, 61, 61)); ("@", (90, 90, 90)); (" ", (0, 0, 0))]%char)
  else None.

(** *** Painting *)

(** One iteration of the loop of [_paint_board] for the [i]-th key of the
    render order: [board] and [board_mask] before and after.  [randint] is
    what [np.random.randint(-15, 15, (h, w, 1))] returned in this
    iteration. *)
Definition paint_layer (colors : gmap ascii RGB) (layers : gmap ascii Mask)
    (randint : nat → nat → nat → Z)
    (acc : (nat → nat → RGB) * (nat → nat → bool)) (ikey : nat * ascii)
  : (nat → nat → RGB) * (nat → nat → bool) :=
  let '(board, board_mask) := acc in
  let '(i, key) := ikey in
  let color := default (0, 0, 0) (colors !! key) in
  let board_layer_mask := mask_at (layers !!! key) in
  let perturbation :=
    if bool_decide (key = "@"%char) then randint i else λ _ _, 0 in
  (λ r c,
     if negb (board_mask r c)
     then rgb_map (λ ch, Z.b2z (board_layer_mask r c) * ch + perturbation r c)
            color
     else board r c,
   λ r c, board_layer_mask r c || board_mask r c).

Definition paint (colors : gmap ascii RGB) (render_order : list ascii)
    (layers : gmap ascii Mask) (randint : nat → nat → nat → Z)
  : (nat → nat → RGB) * (nat → nat → bool) :=
  foldl (paint_layer colors layers randint)
    (λ _ _, (0, 0, 0), λ _ _, false) (imap pair render_order).

(** [_repeat_axes] over the two board axes followed by [astype(np.uint8)]. *)
Definition resize (scale : nat) (img : Image) : Image :=
  mkImage ((shape img).1 * scale, (shape img).2 * scale)%nat
    (λ r c, rgb_map (λ v, v `mod` 256) (pixel img (r / scale) (c / scale))).

(** The first key of the (indexed) render order whose layer covers a
    cell. *)
Fixpoint first_cover (covers : ascii → bool) (order : list (nat * ascii))
  : option (nat * ascii) :=
  match order with
  | [] => None
  | ikey :: order =>
      if covers ikey.2 then Some ikey else first_cover covers order
  end.

(** The test under which the loop over [state_layer_chars] counts a visit
    of [char]: it is not the blank, it is one of [objects], and its layer
    contains a 1. *)
Definition tracked (cfg : Config) (observations : Observation) (char : ascii)
  : bool :=
  bool_decide (char ≠ " "%char) && bool_decide (char ∈ objects cfg)
  && one_in (layers observations !!! char).

(** The counts after the loop: one more visit for every tracked character. *)
Definition count_visits (cfg : Config) (observations : Observation)
    (vf : gmap ascii Z) (chars : list ascii) : gmap ascii Z :=
  foldl (λ vf char,
           if tracked cfg observations char then alter Z.succ char vf else vf)
    vf chars.

Section WithEngine.
Context {Engine : Type} `{!Pycolab Engine} `{!SciPy}.

(** The attributes of a [PyColabEnv] that change after construction
    (and [_render_order], computed once by the constructor). *)
Record PyColabEnv := mkEnv {
  config : Config;
  _render_order : list ascii;
  _colors : option (gmap ascii RGB);
  current_game : option Engine;
  _state : option StateArray;
  _last_uncropped_observations : option Observation;
  _last_cropped_observations : option Observation;
  _last_reward : option Q;
  _game_over : option bool;
  visitation_frequency : gmap ascii Z;
  first_visit_time : gmap ascii Z;
  visitation_entropy : Q;
  num_obj_eps : gmap ascii Z;
  episodes : Z;
  heatmap : list (list Z)
}.

Definition _extrinsic_coord_based (cfg : Config) : bool :=
  match extrinsic_reward_spec cfg with
  | Some spec => is_tuple spec.2
  | None => false
  end.

(** The constructor; [test_game] is what [self.make_game()] returned.
    [None] is a failed assertion, or the [TypeError] of subscripting a
    missing [extrinsic_reward_spec]. *)
Definition __init__ (cfg : Config) (test_game : Engine) : option PyColabEnv :=
  if negb (0 <? max_iterations cfg) then None
  else
    _ ← extrinsic_reward_spec cfg;
    let '(test_game, observations, _) := its_showtime test_game in
    let layer_keys := elements (dom (layers observations)) in
    let not_ordered :=
      elements ((list_to_set layer_keys : gset ascii)
                  ∖ list_to_set (z_order test_game)) in
    Some {|
      config := cfg;
      _render_order := reverse (not_ordered ++ z_order test_game);
      _colors := make_colors (color_palette cfg);
      current_game := None;
      _state := None;
      _last_uncropped_observations := None;
      _last_cropped_observations := None;
      _last_reward := None;
      _game_over := Some false;
      visitation_frequency := dict_of (objects cfg) 0;
      first_visit_time := dict_of (objects cfg) 500;
      visitation_entropy := 0%Q;
      num_obj_eps := dict_of (objects cfg) 0;
      episodes := 0;
      heatmap := replicate 5 (replicate 5 1)
    |}.

(** [_paint_board]: [None] when the observation whose shape it reads, or
    the colour table, is [None]. *)
Definition _paint_board (env : PyColabEnv) (lyrs : gmap ascii Mask)
    (cropped : bool) (randint : nat → nat → nat → Z) : option Image :=
  last ← (if cropped then _last_cropped_observations env
          else _last_uncropped_observations env);
  colors ← _colors env;
  Some (mkImage (board_shape (obs_board last))
          (paint colors (_render_order env) lyrs randint).1).

(** The body of the loop over [state_layer_chars], shared by the two
    observation types; [rewarded char] is the test under which the
    extrinsic reward is assigned.  The accumulator is the reward, the
    visitation counts and (for ['mask']) the masks appended so far. *)
Definition scan_layer (cfg : Config) (observations : Observation)
    (rewarded : ascii → bool)
    (acc : option Q * gmap ascii Z * list Mask) (char : ascii)
  : option Q * gmap ascii Z * list Mask :=
  let '(reward, vf, st) := acc in
  if bool_decide (char ≠ " "%char) then
    let mask := layers observations !!! char in
    let '(reward, vf) :=
      if bool_decide (char ∈ objects cfg) && one_in mask then
        ((if rewarded char then Some (extrinsic_reward cfg) else reward),
         alter Z.succ char vf)
      else (reward, vf) in
    (reward, vf, st ++ [mask])
  else acc.

(** [char == self._extrinsic_reward_spec[1]] *)
Definition is_goal_char (cfg : Config) (char : ascii) : bool :=
  match extrinsic_reward_spec cfg with
  | Some spec => goal_is_char spec.2 char
  | None => false
  end.

Definition with_game_step (env : PyColabEnv) (st : option StateArray)
    (vf : gmap ascii Z) (hm : list (list Z)) (ent : Q)
    (reward : option Q) (over : bool) : PyColabEnv :=
  {| config := config env;
     _render_order := _render_order env;
     _colors := _colors env;
     current_game := current_game env;
     _state := st;
     _last_uncropped_observations := _last_uncropped_observations env;
     _last_cropped_observations := _last_cropped_observations env;
     _last_reward := reward;
     _game_over := Some over;
     visitation_frequency := vf;
     first_visit_time := first_visit_time env;
     visitation_entropy := ent;
     num_obj_eps := num_obj_eps env;
     episodes := episodes env;
     heatmap := hm |}.

(** The first statement of [_update_for_game_step]: the reward for a
    sprite standing on the goal coordinate. *)
Definition coordinate_reward (cfg : Config) (game : Engine)
    (spec : ascii * Goal) (reward : option Q) : option Q :=
  if Qpositive (extrinsic_reward cfg) && _extrinsic_coord_based cfg then
    if goal_is_coord spec.2 (thing_position game spec.1)
    then Some (extrinsic_reward cfg) else reward
  else reward.

(** The tests under which the two loops assign the extrinsic reward to a
    visible object [char]. *)
Definition mask_rewarded (cfg : Config) (char : ascii) : bool :=
  negb (_extrinsic_coord_based cfg) && is_goal_char cfg char.

Definition rgb_rewarded (cfg : Config) (char : ascii) : bool :=
  Qpositive (extrinsic_reward cfg) && negb (_extrinsic_coord_based cfg)
  && is_goal_char cfg char.

(** The last two statements of [_update_for_game_step]. *)
Definition game_over_now (cfg : Config) (game : Engine) : bool :=
  if bool_decide (max_iterations cfg ≤ frame game) then true
  else game_over game.

(** [_update_for_game_step].  [None] stands for the exceptions of reading
    [self.current_game] when it is [None], of a missing specification, and
    of [_paint_board]. *)
Definition _update_for_game_step (env : PyColabEnv)
    (observations : Observation) (reward : option Q)
    (randint : nat → nat → nat → Z) : option PyColabEnv :=
  let cfg := config env in
  game ← current_game env;
  spec ← extrinsic_reward_spec cfg;
  let reward := coordinate_reward cfg game spec reward in
  '(reward, vf, st) ←
    (if String.eqb (obs_type cfg) "mask" then
       let '(reward, vf, masks) :=
         foldl (scan_layer cfg observations (mask_rewarded cfg))
           (reward, visitation_frequency env, []) (state_layer_chars cfg) in
       Some (reward, vf, Some (MaskState masks))
     else if String.eqb (obs_type cfg) "rgb" then
       rgb_img ← _paint_board env (layers observations) true randint;
       let '(reward, vf, _) :=
         foldl (scan_layer cfg observations (rgb_rewarded cfg))
           (reward, visitation_frequency env, []) (state_layer_chars cfg) in
       Some (reward, vf, Some (RgbState (resize (resize_scale cfg) rgb_img)))
     else Some (reward, visitation_frequency env, _state env));
  (* update heatmap metric *)
  let '(hm, ent) :=
    if log_heatmaps cfg then
      let '(pr, pc) := thing_position game "P" in
      let hm := alter (alter Z.succ (Z.to_nat pc)) (Z.to_nat pr) (heatmap env) in
      (hm, entropy (concat hm) (visitable_states cfg))
    else (heatmap env, visitation_entropy env) in
  (* update reward *)
  let last_reward :=
    match reward with Some r => r | None => default_reward cfg end in
  Some (with_game_step env st vf hm ent (Some last_reward)
          (game_over_now cfg game)).

(** [cropper.crop(observations)] for the first cropper, if there is one. *)
Definition crop (cfg : Config) (observations : Observation)
  : option Observation :=
  (λ cropper, cropper observations) <$> head (_croppers cfg).

(** The counters saved at the start of an episode: an object seen in the
    episode that just ended adds one to its [num_obj_eps]. *)
Definition save_metrics (objs : list ascii) (vf num : gmap ascii Z)
  : gmap ascii Z :=
  foldl (λ num char, if 0 <? vf !!! char then alter Z.succ char num else num)
    num objs.

(** [reset]; [game] is what [self.make_game()] returned.  Saving the
    heatmap to disk leaves the object unchanged and is left out. *)
Definition reset (env : PyColabEnv) (game : Engine)
    (randint : nat → nat → nat → Z)
  : option (PyColabEnv * option StateArray) :=
  let cfg := config env in
  let '(game, observations, reward) := its_showtime game in
  let uncropped := observations in
  let cropped := crop cfg observations in
  let observations := default observations cropped in
  let env1 :=
    {| config := cfg;
       _render_order := _render_order env;
       _colors := make_colors (color_palette cfg);
       current_game := Some game;
       _state := _state env;
       _last_uncropped_observations := Some uncropped;
       _last_cropped_observations :=
         match cropped with
         | Some o => Some o
         | None => _last_cropped_observations env
         end;
       _last_reward := None;
       _game_over := None;
       visitation_frequency := dict_of (objects cfg) 0;
       first_visit_time := first_visit_time env;
       visitation_entropy := visitation_entropy env;
       num_obj_eps :=
         save_metrics (objects cfg) (visitation_frequency env)
           (num_obj_eps env);
       episodes := episodes env + 1;
       heatmap :=
         replicate (board_shape (obs_board uncropped)).1
           (replicate (board_shape (obs_board uncropped)).2 0) |} in
  env2 ← _update_for_game_step env1 observations reward randint;
  Some (env2, _state env2).

(** The custom metrics [step] adds to the engine's [info]. *)
Definition add_metrics (env : PyColabEnv) (info : gmap string InfoValue)
  : gmap string InfoValue :=
  <["num_obj_eps" := InfoCounts (num_obj_eps env)]>
  (<["episodes" := InfoNumber (episodes env)]>
  (<["visitation_entropy" := InfoReal (visitation_entropy env)]>
  (<["first_time_visit" := InfoCounts (first_visit_time env)]>
  (<["visitation_frequency" := InfoCounts (visitation_frequency env)]>
     info)))).

Definition with_game (env : PyColabEnv) (game : option Engine)
    (uncropped cropped : option Observation) (st : option StateArray)
  : PyColabEnv :=
  {| config := config env;
     _render_order := _render_order env;
     _colors := _colors env;
     current_game := game;
     _state := st;
     _last_uncropped_observations := uncropped;
     _last_cropped_observations := cropped;
     _last_reward := _last_reward env;
     _game_over := _game_over env;
     visitation_frequency := visitation_frequency env;
     first_visit_time := first_visit_time env;
     visitation_entropy := visitation_entropy env;
     num_obj_eps := num_obj_eps env;
     episodes := episodes env;
     heatmap := heatmap env |}.

(** What [step] returns: [state, reward, done, info]. *)
Definition StepResult : Type :=
  option StateArray * option Q * option bool * gmap string InfoValue.

(** [step].  The outer [None] is an exception of [_update_for_game_step]. *)
Definition step (env : PyColabEnv) (action : Z)
    (randint : nat → nat → nat → Z) : option (PyColabEnv * StepResult) :=
  match current_game env with
  | None =>
      let env' :=
        with_game env None (_last_uncropped_observations env)
          (_last_cropped_observations env) None in
      Some (env', (_state env', _last_reward env', _game_over env', ∅))
  | Some game =>
      (* Execute the action in pycolab. *)
      let '(game, observations, reward) := play game action in
      let uncropped := observations in
      (* Crop and update *)
      let cropped := crop (config env) observations in
      let observations := default observations cropped in
      let env1 :=
        with_game env (Some game) (Some uncropped)
          (match cropped with
           | Some o => Some o
           | None => _last_cropped_observations env
           end) (_state env) in
      env2 ← _update_for_game_step env1 observations reward randint;
      let info := add_metrics env2 (the_plot_info game) in
      let reward := _last_reward env2 in
      let done := _game_over env2 in
      let env3 :=
        if bool_decide (done = Some true)
        then with_game env2 None (_last_uncropped_observations env2)
               (_last_cropped_observations env2) (_state env2)
        else env2 in
      Some (env3, (_state env3, reward, done, info))
  end.

(** *** Sequences of calls *)

Inductive Op :=
| OpReset (game : Engine) (randint : nat → nat → nat → Z)
| OpStep (action : Z) (randint : nat → nat → nat → Z).

(** One call: the object afterwards and, for [step], what it returned. *)
Definition exec (env : PyColabEnv) (op : Op)
  : option (PyColabEnv * option StepResult) :=
  match op with
  | OpReset game randint => (λ r, (r.1, None)) <$> reset env game randint
  | OpStep action randint => (λ r, (r.1, Some r.2)) <$> step env action randint
  end.

Fixpoint run (env : PyColabEnv) (ops : list Op)
  : option (PyColabEnv * list (option StepResult)) :=
  match ops with
  | [] => Some (env, [])
  | op :: ops =>
      '(env, r) ← exec env op;
      '(env, rs) ← run env ops;
      Some (env, r :: rs)
  end.

(** The [done] flag a call returned, [false] for [reset]. *)
Definition returned_done (r : option StepResult) : bool :=
  match r with
  | Some (_, _, Some true, _) => true
  | _ => false
  end.

(** The cropped observation, in the words of the description of the
    environment: what the first cropper makes of the observation of the
    game, and that observation itself when there is no cropper. *)
Definition cropped_observation (cfg : Config) (observations : Observation)
  : Observation :=
  match _croppers cfg with
  | [] => observations
  | cropper :: _ => cropper observations
  end.

(** The observation in which a call looks for the visible characters: the
    cropped observation of the frame the game has just rendered.  A [step]
    without a game looks at nothing. *)
Definition processed (env : PyColabEnv) (op : Op) : option Observation :=
  match op with
  | OpReset game _ =>
      Some (cropped_observation (config env) (its_showtime game).1.2)
  | OpStep action _ =>
      match current_game env with
      | Some game =>
          Some (cropped_observation (config env) (play game action).1.2)
      | None => None
      end
  end.

Definition is_reset (op : Op) : bool :=
  match op with OpReset _ _ => true | OpStep _ _ => false end.

(** The history of a sequence of calls: for each call, whether it is a
    [reset] and the observation it processed. *)
Fixpoint history (env : PyColabEnv) (ops : list Op)
  : list (bool * option Observation) :=
  match ops with
  | [] => []
  | op :: ops =>
      (is_reset op, processed env op) ::
      match exec env op with
      | Some (env, _) => history env ops
      | None => []
      end
  end.

End WithEngine.

Arguments PyColabEnv Engine : clear implicits.
Arguments Op Engine : clear implicits.

(** *** Episodes of a history *)

(** Character [c]'s layer contains a 1 in the observation. *)
Definition visible (c : ascii) (o : option Observation) : bool :=
  match o with
  | Some observations => one_in (layers observations !!! c)
  | None => false
  end.

(** The history cut into episodes: every [reset] closes the running
    episode [cur] and opens the next one with its own update. *)
Fixpoint episodes_of (h : list (bool * option Observation))
    (cur : list (option Observation)) : list (list (option Observation)) :=
  match h with
  | [] => [cur]
  | (true, o) :: h => cur :: episodes_of h [o]
  | (false, o) :: h => episodes_of h (cur ++ [o])
  end.

(** The number of updates of an episode in which [c] was visible. *)
Definition visits (c : ascii) (episode : list (option Observation)) : Z :=
  Z.of_nat (length (filter (λ o, visible c o = true) episode)).

(** The episode in progress, and the episodes a later [reset] ended. *)
Definition current_episode (eps : list (list (option Observation)))
  : list (option Observation) :=
  default [] (last eps).

Definition ended_episodes (eps : list (list (option Observation)))
  : list (list (option Observation)) :=
  take (length eps - 1) eps.

(** The number of ended episodes in which [c] was visited at least once. *)
Definition episodes_visited (c : ascii)
    (eps : list (list (option Observation))) : Z :=
  Z.of_nat (length (filter (λ ep, 0 < visits c ep) (ended_episodes eps))).

(** The number of times a character is listed. *)
Definition times_listed (c : ascii) (chars : list ascii) : Z :=
  Z.of_nat (length (filter (λ char, char = c) chars)).

(** What an update in which [c] is visible adds to the count of [c]: one
    for every time the loop over [state_layer_chars] meets [c], the blank
    being skipped; nothing with an observation type that has no such
    loop. *)
Definition visit_weight (cfg : Config) (c : ascii) : Z :=
  if String.eqb (obs_type cfg) "mask" || String.eqb (obs_type cfg) "rgb"
  then if bool_decide (c = " "%char) then 0
       else times_listed c (state_layer_chars cfg)
  else 0.

(** *** Arrays, images and the metrics *)

(** The entry of a 2-D array at [(r, c)], if there is one. *)
Definition cell {A} (x : list (list A)) (r c : nat) : option A :=
  x !! r ≫= λ row, row !! c.

(** An observation as pycolab renders it for a game whose characters are
    those of the render order: every cell of the board belongs to the
    layer of the character it shows. *)
Definition rendered (order : list ascii) (o : Observation) : Prop :=
  ∀ r c ch, cell (obs_board o) r c = Some ch →
            ch ∈ order ∧ mask_at (layers o !!! ch) r c = true.

(** The same, cell by cell. *)
Definition rendered_cells (order : list ascii) (o : Observation) : Prop :=
  Forall (λ rrow : nat * list ascii,
            Forall (λ cch : nat * ascii,
                      cch.2 ∈ order ∧
                      mask_at (layers o !!! cch.2) rrow.1 cch.1 = true)
              (imap pair rrow.2))
    (imap pair (obs_board o)).

(** [np.repeat(x, repeats, axis=0)] *)
Definition np_repeat {A} (x : list A) (repeats : nat) : list A :=
  x ≫= replicate repeats.

(** [_repeat_axes] with its default [axis=[0, 1]], the only way it is
    called: the loop over the two axes, unrolled. *)
Definition _repeat_axes {A} (x : list (list A)) (factor : nat)
  : list (list A) :=
  let x_ := x in
  let x_ := np_repeat x_ factor in
  let x_ := (λ row, np_repeat row factor) <$> x_ in
  x_.

(** The rows of an image. *)
Definition rows_of (img : Image) : list (list RGB) :=
  (λ r, pixel img r <$> seq 0 (shape img).2) <$> seq 0 (shape img).1.

(** The metric keys [step] writes into [info]. *)
Definition metric_keys : list string :=
  ["visitation_frequency"; "first_time_visit"; "visitation_entropy";
   "episodes"; "num_obj_eps"]%string.

(** A board as [resize] returns it: every cell the code of its character,
    repeated over the three channels. *)
Definition board_image (board : Board) : Image :=
  mkImage (board_shape board)
    (λ r c,
       let v := Z.of_N (N_of_ascii (default "000"%char (cell board r c))) in
       (v, v, v)).

(** The counts of a counter are not negative. *)
Definition counts (m : gmap ascii Z) : Prop := ∀ c n, m !! c = Some n → 0 ≤ n.

Section Rendering.
Context {Engine : Type} `{!Pycolab Engine} `{!SciPy}.

(** [render] with [mode='rgb_array'].  Before the first [reset] there is
    neither an observation nor an empty board, and [resize] raises on
    [None]; without colours the board itself is resized. *)
Definition render (env : PyColabEnv Engine) (randint : nat → nat → nat → Z)
  : option Image :=
  observed ← _last_uncropped_observations env;
  img ←
    match _colors env with
    | Some colors =>
        if bool_decide (colors ≠ ∅)
        then _paint_board env (layers observed) false randint
        else Some (board_image (obs_board observed))
    | None => Some (board_image (obs_board observed))
    end;
  Some (resize (resize_scale (config env)) img).

(** What the metrics are made of: the keys are the objects, the counts are
    not negative, and nobody has written a first-visit time. *)
Definition metrics_kept (cfg : Config) (env : PyColabEnv Engine) : Prop :=
  dom (visitation_frequency env) = list_to_set (objects cfg) ∧
  dom (num_obj_eps env) = list_to_set (objects cfg) ∧
  counts (visitation_frequency env) ∧
  counts (num_obj_eps env) ∧
  first_visit_time env = dict_of (objects cfg) 500.

End Rendering.

End Env.

(** ** The trajectory record of the sampler *)

Module Traj.

(** What [PycolabTrajInfo.step] reads off [env_info] with
    [getattr(env_info, name, None)]: an attribute that is missing reads as
    [None]; the three dictionaries of the environment arrive as the
    sequences of their values. *)
Record EnvInfo := mkEnvInfo {
  info_visitation_frequency : option (list Z);
  info_first_time_visit : option (list Z);
  info_visitation_entropy : option Q;
  info_episodes : option Z;
  info_num_obj_eps : option (list Z)
}.

(** [rlpyt.samplers.collections.TrajInfo], the base class; its source file
    is not among those embedded.  [traj_step] is its [step]. *)
Class TrajInfo (Base Obs Act AgentInfo : Type) := {
  traj_new : Base;
  Length : Base → Z;
  traj_step :
    Base → Obs → Act → Q → bool → AgentInfo → EnvInfo → Base
}.

(** The four attributes kept for one sprite: [visit_freq_x], [first_visit_x],
    [num_eps_x] and [percent_eps_x]. *)
Record Sprite := mkSprite {
  visit_freq : Z;
  first_visit : Z;
  num_eps : Z;
  percent_eps : Q
}.

Section WithTrajInfo.
Context {Base Obs Act AgentInfo : Type} `{!TrajInfo Base Obs Act AgentInfo}.

(** A [PycolabTrajInfo]: the attributes of the base class, and the
    attributes with the suffixes [a] to [h] as the entries 0 to 7 of
    [sprites]. *)
Record PycolabTrajInfo := mkTraj {
  base : Base;
  sprites : list Sprite;
  visitation_entropy : option Q
}.

Definition __init__ : PycolabTrajInfo :=
  mkTraj traj_new (replicate 8 (mkSprite 0 500 0 0%Q)) (Some 0%Q).

(** The block of [step] for the sprite with index [i], one of the eight
    blocks [if len(visitation_frequency) >= i + 1: ...].  [None] is an
    exception: an index out of range, a subscript of [None], the division
    by [None] or by zero. *)
Definition step_sprite (length_now : Z) (done : bool)
    (visitation_frequency first_visit_time : list Z)
    (num_obj_eps : option (list Z)) (episodes : option Z)
    (i : nat) (sp : Sprite) : option Sprite :=
  if bool_decide (i + 1 ≤ length visitation_frequency)%nat then
    fvt ← first_visit_time !! i;
    vf ← visitation_frequency !! i;
    let first :=
      if bool_decide (fvt = 500) && bool_decide (vf = 1)
      then length_now else first_visit sp in
    if done then
      counts ← num_obj_eps;
      n ← counts !! i;
      eps ← episodes;
      if bool_decide (eps = 0) then None
      else Some (mkSprite vf first n (inject_Z n / inject_Z eps)%Q)
    else Some (mkSprite vf first (num_eps sp) (percent_eps sp))
  else Some sp.

(** [step]. *)
Definition step (self : PycolabTrajInfo) (observation : Obs) (action : Act)
    (reward_ext : Q) (done : bool) (agent_info : AgentInfo)
    (env_info : EnvInfo) : option PycolabTrajInfo :=
  let visitation_frequency := info_visitation_frequency env_info in
  let first_visit_time := info_first_time_visit env_info in
  let entropy := info_visitation_entropy env_info in
  let episodes := info_episodes env_info in
  let num_obj_eps := info_num_obj_eps env_info in
  sprites' ←
    match visitation_frequency, first_visit_time with
    | Some vf, Some fvt =>
        mapM (λ isp : nat * Sprite,
                step_sprite (Length (base self)) done vf fvt num_obj_eps
                  episodes isp.1 isp.2)
          (imap pair (sprites self))
    | _, _ => Some (sprites self)
    end;
  Some (mkTraj
          (traj_step (base self) observation action reward_ext done
             agent_info env_info)
          sprites' entropy).

(** The steps of a trajectory, one after the other. *)
Fixpoint steps (self : PycolabTrajInfo)
    (calls : list (Obs * Act * Q * bool * AgentInfo * EnvInfo))
  : option PycolabTrajInfo :=
  match calls with
  | [] => Some self
  | (observation, action, reward_ext, done, agent_info, env_info) :: calls =>
      self' ← step self observation action reward_ext done agent_info env_info;
      steps self' calls
  end.

(** The step sees sprite [i] with a count of one and no first visit
    recorded by the environment. *)
Definition first_sighting (env_info : EnvInfo) (i : nat) : bool :=
  match info_visitation_frequency env_info, info_first_time_visit env_info with
  | Some vf, Some fvt =>
      bool_decide (vf !! i = Some 1) && bool_decide (fvt !! i = Some 500)
  | _, _ => false
  end.

End WithTrajInfo.

Arguments PycolabTrajInfo Base : clear implicits.

End Traj.

(** ** Random network distillation *)

Module Rnd.

(** One grayscale frame, [h x w]. *)
Definition Frame : Type := list (list Q).

(** A tensor with the leading dimensions [T, B]: its entry at each
    [(t, b)]; the shape travels with the batch (see [Batch]). *)
Definition Tensor (A : Type) : Type := nat → nat → A.

(** An observation batch [T, B, C, H, W]: the stack of [C] frames at each
    timestep and environment. *)
Record Batch := mkBatch {
  T : nat;
  B : nat;
  frames : Tensor (list Frame)
}.

Record Param := mkParam {
  data : list Q;
  requires_grad : bool
}.

Inductive Layer :=
| Conv2d (in_channels out_channels kernel_size stride : Z)
    (weight bias : Param)
| Linear (in_features out_features : Z) (weight bias : Param)
| LeakyReLU
| ReLU
| Flatten.

(** [nn.Sequential] *)
Definition Sequential : Type := list Layer.

Definition layer_parameters (l : Layer) : list Param :=
  match l with
  | Conv2d _ _ _ _ w b => [w; b]
  | Linear _ _ w b => [w; b]
  | _ => []
  end.

(** [module.parameters()] *)
Definition parameters (m : Sequential) : list Param :=
  m ≫= layer_parameters.

(** What torch computes and this development leaves uninterpreted: the
    output of a network on one frame, [None] being the [RuntimeError] of a
    frame whose shape the layers cannot take, and the square root. *)
Class Torch := {
  run : Sequential → Frame → option (list Q);
  sqrt : Q → Q
}.

(** [rlpyt.utils.averages.RunningMeanStd] over values of type [A]; its
    source file is not among those embedded. *)
Class RunningMeanStd (S A : Type) := {
  rms_new : S;
  mean : S → A;
  var : S → A;
  set_stats : S → A → A → S;
  update : S → list A → S;
  update_from_moments : S → Q → Q → Q → S
}.

(** [rlpyt.utils.averages.RewardForwardFilter]. [rff_update] returns the
    filter and the array object it hands back; [rff_read] is the content of
    that array once the filter is in a later state (the same whenever
    [update] hands back a copy). *)
Class RewardForwardFilter (S H : Type) := {
  rff_new : Q → S;
  rff_update : S → list Q → list Q → S * H;
  rff_read : S → H → list Q
}.

Definition Qsum (l : list Q) : Q := foldr Qplus 0%Q l.

Definition Zsum (l : list Z) : Z := foldr Z.add 0 l.

(** [np.mean] and [np.var] of all entries of an array. *)
Definition np_mean (l : list Q) : Q := (Qsum l / inject_Z (Z.of_nat (length l)))%Q.

Definition np_var (l : list Q) : Q :=
  np_mean ((λ x, (x - np_mean l) * (x - np_mean l))%Q <$> l).

(** [nn.functional.mse_loss(a, b, reduction='none').sum(-1)] *)
Definition mse_sum (a b : list Q) : Q :=
  Qsum (zip_with (λ x y, (x - y) * (x - y))%Q a b).

(** [torch.clamp(x, min=lo, max=hi)] *)
Definition clamp (lo hi x : Q) : Q := Qmin (Qmax x lo) hi.

(** [np.abs(done - 1)] at one entry, [done] being 1 where the episode has
    ended and 0 elsewhere. *)
Definition abs_done_minus_1 (d : bool) : Z := Z.abs (Z.b2z d - 1).

Section WithTorch.
Context `{!Torch} {ObsRms RewRms Rff Handle : Type}
  `{!RunningMeanStd ObsRms Frame} `{!RunningMeanStd RewRms Q}
  `{!RewardForwardFilter Rff Handle}.

Record RND := mkRND {
  prediction_beta : Q;
  drop_probability : Q;
  device : string;
  obs_rms : ObsRms;
  rew_rms : RewRms;
  rew_rff : Rff;
  feature_size : Z;
  conv_feature_size : Z;
  forward_model : Sequential;
  target_model : Sequential
}.

(** A freshly constructed layer: [rng] stands for the values torch draws
    for the [i]-th weight and bias. *)
Definition new_Conv2d (rng : nat → list Q) (i : nat)
    (in_channels out_channels kernel_size stride : Z) : Layer :=
  Conv2d in_channels out_channels kernel_size stride
    (mkParam (rng (2 * i)%nat) true) (mkParam (rng (2 * i + 1)%nat) true).

Definition new_Linear (rng : nat → list Q) (i : nat)
    (in_features out_features : Z) : Layer :=
  Linear in_features out_features
    (mkParam (rng (2 * i)%nat) true) (mkParam (rng (2 * i + 1)%nat) true).

(** [nn.init.orthogonal_(param.weight, np.sqrt(2))] and
    [param.bias.data.zero_()] on the [i]-th module; [orthogonal i] is the
    matrix drawn for it. *)
Definition init_layer (orthogonal : nat → list Q) (i : nat) (l : Layer)
  : Layer :=
  match l with
  | Conv2d ic oc k s w b =>
      Conv2d ic oc k s (mkParam (orthogonal i) (requires_grad w))
        (mkParam ((λ _, 0%Q) <$> data b) (requires_grad b))
  | Linear fi fo w b =>
      Linear fi fo (mkParam (orthogonal i) (requires_grad w))
        (mkParam ((λ _, 0%Q) <$> data b) (requires_grad b))
  | _ => l
  end.

(** [param.requires_grad = False] for every parameter of a module. *)
Definition freeze (l : Layer) : Layer :=
  match l with
  | Conv2d ic oc k s w b =>
      Conv2d ic oc k s (mkParam (data w) false) (mkParam (data b) false)
  | Linear fi fo w b =>
      Linear fi fo (mkParam (data w) false) (mkParam (data b) false)
  | _ => l
  end.

(** The constructor.  [rng_f], [rng_t] are torch's default draws for the two
    networks, [orth_f], [orth_t] the orthogonal matrices that replace
    them. *)
Definition __init__ (obs_stats : option (Frame * Frame))
    (prediction_beta drop_probability gamma : Q) (device : string)
    (rng_f orth_f rng_t orth_t : nat → list Q) : RND :=
  let obs_rms :=
    match obs_stats with
    | Some (m, sd) =>
        set_stats rms_new m (fmap (M := list) (λ x, x * x)%Q <$> sd)
    | None => rms_new
    end in
  let feature_size := 512 in
  let conv_feature_size := 7 * 7 * 64 in
  (* Learned predictor model *)
  let forward_model :=
    [ new_Conv2d rng_f 0 1 32 8 4; LeakyReLU;
      new_Conv2d rng_f 1 32 64 4 2; LeakyReLU;
      new_Conv2d rng_f 2 64 64 3 1; LeakyReLU;
      Flatten;
      new_Linear rng_f 3 conv_feature_size feature_size; ReLU;
      new_Linear rng_f 4 feature_size feature_size; ReLU;
      new_Linear rng_f 5 feature_size feature_size ] in
  let forward_model := imap (init_layer orth_f) forward_model in
  (* Fixed weight target model *)
  let target_model :=
    [ new_Conv2d rng_t 0 1 32 8 4; LeakyReLU;
      new_Conv2d rng_t 1 32 64 4 2; LeakyReLU;
      new_Conv2d rng_t 2 64 64 3 1; LeakyReLU;
      Flatten;
      new_Linear rng_t 3 conv_feature_size feature_size ] in
  let target_model := imap (init_layer orth_t) target_model in
  let target_model := freeze <$> target_model in
  {| prediction_beta := prediction_beta;
     drop_probability := drop_probability;
     device := if String.eqb device "gpu" then "cuda:0" else "cpu";
     obs_rms := obs_rms;
     rew_rms := rms_new;
     rew_rff := rff_new gamma;
     feature_size := feature_size;
     conv_feature_size := conv_feature_size;
     forward_model := forward_model;
     target_model := target_model |}.

(** [(obs - mean) / (sqrt(var) + 1e-10)], clamped to [-5, 5]. *)
Definition normalize (rms : ObsRms) (obs : Frame) : Frame :=
  let centred := zip_with (zip_with Qminus) obs (mean rms) in
  zip_with (zip_with (λ x v, clamp (-5) 5 (x / (sqrt v + (1 # 10000000000)))%Q))
    centred (var rms).

(** [np.sum(np.abs(done - 1), axis=0)] at column [b], as [int(...)] reads it. *)
Definition num_not_done (T : nat) (done : Tensor bool) (b : nat) : Z :=
  Zsum ((λ t, abs_done_minus_1 (done t b)) <$> seq 0 T).

(** [np.swapaxes(obs_cpu, 0, 1)[b]]: the observations of environment [b]. *)
Definition column (T : nat) (obs_cpu : Tensor Frame) (b : nat) : list Frame :=
  (λ t, obs_cpu t b) <$> seq 0 T.

(** The observations [forward] hands to [obs_rms.update].  Indexing column
    0 of an empty batch raises [IndexError]: [None]. *)
Definition valid_obs (T B : nat) (obs_cpu : Tensor Frame) (done : Tensor bool)
  : option (list Frame) :=
  if bool_decide (B = 0%nat) then None
  else
    let first :=
      take (Z.to_nat (num_not_done T done 0)) (column T obs_cpu 0) in
    Some (foldl (λ valid i,
            let obs_slice :=
              take (Z.to_nat (num_not_done T done i)) (column T obs_cpu i) in
            valid ++ obs_slice)
          first (seq 1 (B - 1))).

Definition set_obs_rms (self : RND) (rms : ObsRms) : RND :=
  {| prediction_beta := prediction_beta self;
     drop_probability := drop_probability self;
     device := device self;
     obs_rms := rms;
     rew_rms := rew_rms self;
     rew_rff := rew_rff self;
     feature_size := feature_size self;
     conv_feature_size := conv_feature_size self;
     forward_model := forward_model self;
     target_model := target_model self |}.

Definition set_rew (self : RND) (rms : RewRms) (rff : Rff) : RND :=
  {| prediction_beta := prediction_beta self;
     drop_probability := drop_probability self;
     device := device self;
     obs_rms := obs_rms self;
     rew_rms := rms;
     rew_rff := rff;
     feature_size := feature_size self;
     conv_feature_size := conv_feature_size self;
     forward_model := forward_model self;
     target_model := target_model self |}.

(** The features a network returns for a frame it takes. *)
Definition output (model : Sequential) (x : Frame) : list Q :=
  default [] (run model x).

(** [model(x.view(T * B, *img_shape)).view(T, B, -1)]: the features of
    every frame of the batch.  [None] is a [RuntimeError]: a frame the
    network cannot take, or an empty batch, which [Flatten] and [view]
    cannot shape with a dimension left to infer. *)
Definition features (model : Sequential) (x : Tensor Frame) (T B : nat)
  : option (Tensor (list Q)) :=
  if bool_decide (T * B = 0)%nat then None
  else
    outputs ← mapM (λ tb : nat * nat, run model (x tb.1 tb.2))
                (t ← seq 0 T; pair t <$> seq 0 B);
    Some (λ t b, output model (x t b)).

(** [forward]: the module afterwards, [phi], [predicted_phi] and [T].
    [None] is an error raised: the [IndexError] of an empty frame stack,
    the [RuntimeError] of an empty batch or of a frame the networks cannot
    take. *)
Definition forward (self : RND) (obs : Batch) (done : option (Tensor bool))
  : option (RND * Tensor (list Q) * Tensor (list Q) * nat) :=
  (* in case of frame stacking *)
  obs_last ← mapM (λ tb : nat * nat, last (frames obs tb.1 tb.2))
                (t ← seq 0 (T obs); pair t <$> seq 0 (B obs));
  let obs_cpu : Tensor Frame :=
    λ t b, default [] (last (frames obs t b)) in
  let norm_obs : Tensor Frame := λ t b, normalize (obs_rms self) (obs_cpu t b) in
  (* prediction target *)
  phi ← features (target_model self) norm_obs (T obs) (B obs);
  (* make prediction *)
  predicted_phi ← features (forward_model self) norm_obs (T obs) (B obs);
  (* update statistics *)
  self' ←
    match done with
    | Some done =>
        valid ← valid_obs (T obs) (B obs) obs_cpu done;
        Some (set_obs_rms self (update (obs_rms self) valid))
    | None => Some self
    end;
  Some (self', phi, predicted_phi, T obs).

(** A row [x[t]] of a [T, B] tensor. *)
Definition row {A} (B : nat) (x : Tensor A) (t : nat) : list A :=
  x t <$> seq 0 B.

(** The list comprehension over [self.rew_rff.update]: the filter after the
    [T] updates and the array each update handed back. *)
Definition filter_rewards (rff : Rff) (rows : list (list Q * list Q))
  : Rff * list Handle :=
  foldl (λ '(rff, handles) '(rews, not_done),
           let '(rff, h) := rff_update rff rews not_done in
           (rff, handles ++ [h]))
    (rff, []) rows.

(** [compute_bonus]: the module afterwards and the bonus at each
    [(t, b)]. *)
Definition compute_bonus (self : RND) (next_observation : Batch)
    (done : Tensor bool) : option (RND * Tensor Q) :=
  '(self, phi, predicted_phi, T) ← forward self next_observation (Some done);
  let B := B next_observation in
  let rewards : Tensor Q :=
    λ t b, (mse_sum (predicted_phi t b) (phi t b)
            / inject_Z (feature_size self))%Q in
  (* update running mean *)
  let not_done : Tensor Q := λ t b, inject_Z (abs_done_minus_1 (done t b)) in
  let '(rff, handles) :=
    filter_rewards (rew_rff self)
      ((λ i, (row B rewards i, row B not_done i)) <$> seq 0 T) in
  let total_rew_per_env := concat (rff_read rff <$> handles) in
  let rms :=
    update_from_moments (rew_rms self) (np_mean total_rew_per_env)
      (np_var total_rew_per_env)
      (Qsum (t ← seq 0 T; row B not_done t)) in
  let self := set_rew self rms rff in
  (* normalize rewards *)
  let rew_var := var (rew_rms self) in
  let rewards : Tensor Q := λ t b, (rewards t b / sqrt rew_var)%Q in
  (* apply done mask *)
  let rewards : Tensor Q := λ t b, (rewards t b * not_done t b)%Q in
  Some (self, λ t b, (prediction_beta self * rewards t b)%Q).

(** [compute_loss]; [rand] is what [torch.rand(forward_loss.shape)]
    returned. *)
Definition compute_loss (self : RND) (next_observations : Batch)
    (valid : Tensor Q) (rand : Tensor Q) : option (RND * Q) :=
  '(self, phi, predicted_phi, _) ← forward self next_observations None;
  let forward_loss : Tensor Q :=
    λ t b, (mse_sum (predicted_phi t b) (phi t b)
            / inject_Z (feature_size self))%Q in
  let mask : Tensor Q :=
    λ t b, (1 - (if Qle_bool (rand t b) (drop_probability self)
                 then 0 else 1))%Q in
  let net_mask : Tensor Q := λ t b, (mask t b * valid t b)%Q in
  let cells :=
    t ← seq 0 (T next_observations); pair t <$> seq 0 (B next_observations) in
  Some (self,
        (Qsum ((λ tb : nat * nat, forward_loss tb.1 tb.2 * net_mask tb.1 tb.2)
                 <$> cells)
         / Qsum ((λ tb : nat * nat, net_mask tb.1 tb.2) <$> cells))%Q).

(** A call of one of the three methods, with its arguments. *)
Inductive Call :=
| CallForward (obs : Batch) (done : option (Tensor bool))
| CallBonus (next_observation : Batch) (done : Tensor bool)
| CallLoss (next_observations : Batch) (valid rand : Tensor Q).

(** The module a call leaves behind. *)
Definition call (self : RND) (c : Call) : option RND :=
  match c with
  | CallForward obs done =>
      (λ r : RND * Tensor (list Q) * Tensor (list Q) * nat, r.1.1.1)
        <$> forward self obs done
  | CallBonus obs done => fst <$> compute_bonus self obs done
  | CallLoss obs valid rand => fst <$> compute_loss self obs valid rand
  end.

Fixpoint calls (self : RND) (cs : list Call) : option RND :=
  match cs with
  | [] => Some self
  | c :: cs => self' ← call self c; calls self' cs
  end.

(** The frame [forward] reads at [(t, b)]: the last one of the stack. *)
Definition last_frame (obs : Batch) : Tensor Frame :=
  λ t b, default [] (last (frames obs t b)).

(** Every stack of the batch holds a frame. *)
Definition stacked (obs : Batch) : Prop :=
  ∀ t b, (t < T obs)%nat → (b < B obs)%nat → frames obs t b ≠ [].

(** The batch is one the networks can work on: it has a timestep and an
    environment, and both networks take every normalized frame of it. *)
Definition accepted (self : RND) (obs : Batch) : Prop :=
  T obs ≠ 0%nat ∧ B obs ≠ 0%nat ∧
  ∀ t b, (t < T obs)%nat → (b < B obs)%nat →
    is_Some (run (target_model self)
               (normalize (obs_rms self) (last_frame obs t b))) ∧
    is_Some (run (forward_model self)
               (normalize (obs_rms self) (last_frame obs t b))).

(** *** The bonus in the words of its description *)




End WithTorch.

Arguments RND ObsRms RewRms Rff : clear implicits.

(** *** The entries of a batch and the layers of a network *)

(** The pairs [(t, b)] of a batch with leading dimensions [T, B]. *)
Definition entries (T B : nat) : list (nat * nat) :=
  t ← seq 0 T; pair t <$> seq 0 B.

(** The entry survives the mask of [compute_loss]: the draw does not exceed
    [drop_probability]. *)
Definition kept (drop_probability : Q) (rand : Tensor Q) (tb : nat * nat)
  : bool :=
  Qle_bool (rand tb.1 tb.2) drop_probability.

(** [module.weight] and [module.bias], for the modules that have them. *)
Definition weight_of (l : Layer) : option Param :=
  match l with
  | Conv2d _ _ _ _ w _ => Some w
  | Linear _ _ w _ => Some w
  | _ => None
  end.

Definition bias_of (l : Layer) : option Param :=
  match l with
  | Conv2d _ _ _ _ _ b => Some b
  | Linear _ _ _ b => Some b
  | _ => None
  end.

End Rnd.

(** ** Concrete data on which the definitions are run *)

Module Examples.

(** *** The maze *)

Definition empty_game : Maze.Game :=
  Maze.mkGame [] (Maze.PlayerSprite_init (0, 0) "P")
    (Maze.MoveableObject_init (0, 0) "e")
    (Maze.WhiteNoiseObject_init (0, 0) "b") false 0.

(** Level 0 as [make_game] builds it. *)
Definition level_0 : Maze.Game :=
  Eval vm_compute in default empty_game (Maze.make_game 0).

(** The draw of the white-noise object in the frame that follows [g]. *)
Definition draw (g : Maze.Game) : nat :=
  ((Z.to_nat (Maze.frame g) * 7 + 3) `mod` 35)%nat.

(** The game after its opening frame. *)
Definition opened : Maze.Game :=
  Eval vm_compute in default empty_game (Maze.its_showtime level_0 3).

(** Up the corridor, around the object and back above it: actions and
    draws of the white-noise object. *)
Definition walk_around : list (Z * nat) :=
  [(0, 3%nat); (0, 10%nat); (0, 17%nat); (0, 24%nat); (0, 31%nat);
   (2, 3%nat); (0, 10%nat); (0, 17%nat); (3, 24%nat)].

(** The player stands above the object at (2, 9); the object is on the
    exit cell (3, 9). *)
Definition above_exit : Maze.Game :=
  Eval vm_compute in default empty_game (Maze.play_all opened walk_around).

(** *** A pycolab engine for the maze *)

Definition mask_of (ch : ascii) (board : Board) : Env.Mask :=
  fmap (M := list) (λ x, bool_decide (x = ch)) <$> board.

Definition observe (g : Maze.Game) : Env.Observation :=
  let board := Maze.render g in
  Env.mkObservation board
    (list_to_map ((λ ch, (ch, mask_of ch board)) <$> ["#"; " "; "P"; "e"; "b"]%char)).

Definition sprite_position (g : Maze.Game) (ch : ascii) : Position :=
  if bool_decide (ch = "e"%char) then Maze.position (Maze.e g)
  else if bool_decide (ch = "b"%char) then Maze.position (Maze.b g)
  else Maze.position (Maze.walker (Maze.P g)).

#[export] Instance maze_engine : Env.Pycolab Maze.Game := {|
  Env.its_showtime g :=
    let g' := default g (Maze.its_showtime g (draw g)) in (g', observe g', None);
  Env.play g action :=
    let g' := default g (Maze.play g action (draw g)) in (g', observe g', None);
  Env.game_over := Maze.game_over;
  Env.frame := Maze.frame;
  Env.thing_position := sprite_position;
  Env.z_order _ := Maze.z_order;
  Env.the_plot_info _ := ∅
|}.

#[export] Instance no_entropy : Env.SciPy := {| Env.entropy _ _ := 0%Q |}.

(** The first cell of a mask that holds a 1. *)
Definition find_one (m : Env.Mask) : option (Z * Z) :=
  list_find (λ rc : Z * Z, Env.mask_at m (Z.to_nat rc.1) (Z.to_nat rc.2) = true)
    (r ← seqZ 0 (Z.of_nat (length m)); pair r <$> seqZ 0 19)
  ≫= λ x, Some x.2.

(** The 5 x 5 window of a grid whose top-left corner is [(r0, c0)], padded
    where it leaves the grid. *)
Definition window {A} (pad : A) (grid : list (list A)) (r0 c0 : Z)
  : list (list A) :=
  (λ dr,
     (λ dc,
        if (0 <=? r0 + dr) && (0 <=? c0 + dc)
        then default pad
               (grid !! Z.to_nat (r0 + dr) ≫= λ row, row !! Z.to_nat (c0 + dc))
        else pad) <$> seqZ 0 5) <$> seqZ 0 5.

(** A cropper that follows the player, as [ScrollingCropper(rows=5, cols=5,
    to_track=['P'])]. *)
Definition player_view (observations : Env.Observation) : Env.Observation :=
  let '(pr, pc) :=
    default (0, 0) (find_one (Env.layers observations !!! "P"%char)) in
  Env.mkObservation
    (window " "%char (Env.obs_board observations) (pr - 2) (pc - 2))
    ((λ m, window false m (pr - 2) (pc - 2)) <$> Env.layers observations).

(** Four steps allowed, masks observed, one point for seeing the moveable
    object. *)
Definition mask_config : Env.Config :=
  {| Env.max_iterations := 4;
     Env.obs_type := "mask";
     Env.default_reward := 0%Q;
     Env.resize_scale := 8;
     Env.visitable_states := 0%Q;
     Env.extrinsic_reward := 1%Q;
     Env.extrinsic_reward_spec := Some ("P"%char, Env.GoalChar "e");
     Env.color_palette := 0;
     Env.objects := ["e"; "b"]%char;
     Env.state_layer_chars := ["#"; "e"; "b"]%char;
     Env._croppers := [player_view];
     Env.log_heatmaps := false |}.

(** RGB observations, the extrinsic reward left at its default 0.0 and a
    cost of 1/100 for every step. *)
Definition rgb_config : Env.Config :=
  {| Env.max_iterations := 500;
     Env.obs_type := "rgb";
     Env.default_reward := (-1 # 100)%Q;
     Env.resize_scale := 8;
     Env.visitable_states := 0%Q;
     Env.extrinsic_reward := 0%Q;
     Env.extrinsic_reward_spec := Some ("P"%char, Env.GoalChar "e");
     Env.color_palette := 0;
     Env.objects := ["e"; "b"]%char;
     Env.state_layer_chars := ["#"; "e"; "b"]%char;
     Env._croppers := [player_view];
     Env.log_heatmaps := false |}.

Definition no_noise : nat → nat → nat → Z := λ _ _ _, 0.

(** An environment built by the constructor, [reset], and stepped up the
    corridor with [actions]. *)
Definition walked (cfg : Env.Config) (start : Maze.Game) (actions : list Z)
  : option (Env.PyColabEnv Maze.Game * list (option Env.StepResult)) :=
  env ← Env.__init__ cfg level_0;
  Env.run env (Env.OpReset start no_noise
               :: ((λ a, Env.OpStep a no_noise) <$> actions)).

Definition blank_env : Env.PyColabEnv Maze.Game :=
  {| Env.config := mask_config;
     Env._render_order := [];
     Env._colors := None;
     Env.current_game := None;
     Env._state := None;
     Env._last_uncropped_observations := None;
     Env._last_cropped_observations := None;
     Env._last_reward := None;
     Env._game_over := None;
     Env.visitation_frequency := ∅;
     Env.first_visit_time := ∅;
     Env.visitation_entropy := 0%Q;
     Env.num_obj_eps := ∅;
     Env.episodes := 0;
     Env.heatmap := [] |}.

Definition up : Env.Op Maze.Game := Env.OpStep 0 no_noise.

(** The constructed environment, the environment after [reset], and after
    three and four steps up the corridor. *)
Definition constructed (cfg : Env.Config) : Env.PyColabEnv Maze.Game :=
  default blank_env (Env.__init__ cfg level_0).

Definition started (cfg : Env.Config) : Env.PyColabEnv Maze.Game :=
  default blank_env (fst <$> Env.reset (constructed cfg) level_0 no_noise).

Definition after (cfg : Env.Config) (ops : list (Env.Op Maze.Game))
  : Env.PyColabEnv Maze.Game * list (option Env.StepResult) :=
  default (blank_env, []) (Env.run (started cfg) ops).

(** What a [step] returned, together with the environment it left. *)
Definition outcome (o : option (Env.PyColabEnv Maze.Game * Env.StepResult))
  : Env.PyColabEnv Maze.Game * Env.StepResult :=
  default (blank_env, (None, None, None, ∅)) o.

Definition returned_reward (r : Env.PyColabEnv Maze.Game * Env.StepResult)
  : option Q := r.2.1.1.2.

Definition returned_flag (r : Env.PyColabEnv Maze.Game * Env.StepResult)
  : option bool := r.2.1.2.

(** *** A board with an uncovered cell *)

(** A game whose only sprite is the player and whose backdrop has the
    white-noise character: the render order is ['P', '@'].  The observed
    board is one row of two cells; the player covers the first and no
    layer covers the second. *)
Definition noise_layers : gmap ascii Env.Mask :=
  list_to_map [("P"%char, [[true; false]]); ("@"%char, [[false; false]])].

Definition noise_env : Env.PyColabEnv unit :=
  {| Env.config := rgb_config;
     Env._render_order := ["P"; "@"]%char;
     Env._colors := Env.make_colors 0;
     Env.current_game := None;
     Env._state := None;
     Env._last_uncropped_observations :=
       Some (Env.mkObservation [["P"; "?"]%char] noise_layers);
     Env._last_cropped_observations := None;
     Env._last_reward := None;
     Env._game_over := Some false;
     Env.visitation_frequency := ∅;
     Env.first_visit_time := ∅;
     Env.visitation_entropy := 0%Q;
     Env.num_obj_eps := ∅;
     Env.episodes := 0;
     Env.heatmap := [] |}.

(** [np.random.randint(-15, 15, ...)] drew 7 everywhere. *)
Definition sevens : nat → nat → nat → Z := λ _ _ _, 7.

(** *** Running statistics and networks *)

Record Stats (A : Type) := mkStats {
  stats_mean : A;
  stats_var : A;
  stats_count : Q
}.
Arguments mkStats {A}.
Arguments stats_mean {A}.
Arguments stats_var {A}.
Arguments stats_count {A}.

(** The parallel-variance update of the running moments of a scalar. *)
Definition merge_moments (s : Stats Q) (batch_mean batch_var batch_count : Q)
  : Stats Q :=
  let delta := (batch_mean - stats_mean s)%Q in
  let tot_count := (stats_count s + batch_count)%Q in
  let new_mean := (stats_mean s + delta * batch_count / tot_count)%Q in
  let m_a := (stats_var s * stats_count s)%Q in
  let m_b := (batch_var * batch_count)%Q in
  let M2 := (m_a + m_b
             + delta * delta * stats_count s * batch_count / tot_count)%Q in
  mkStats (Qred new_mean) (Qred (M2 / tot_count)) (Qred tot_count).

#[export] Instance reward_stats : Rnd.RunningMeanStd (Stats Q) Q := {|
  Rnd.rms_new := mkStats 0%Q 1%Q (1 # 10000)%Q;
  Rnd.mean := stats_mean;
  Rnd.var := stats_var;
  Rnd.set_stats s m v := mkStats m v (stats_count s);
  Rnd.update s xs :=
    merge_moments s (Rnd.np_mean xs) (Rnd.np_var xs)
      (inject_Z (Z.of_nat (length xs)));
  Rnd.update_from_moments := merge_moments
|}.

(** Frames of one pixel: the statistics of the pixel. *)
Definition pixel_of (x : Rnd.Frame) : Q := default 0%Q (head (concat x)).

#[export] Instance frame_stats : Rnd.RunningMeanStd (Stats Q) Rnd.Frame := {|
  Rnd.rms_new := mkStats 0%Q 1%Q (1 # 10000)%Q;
  Rnd.mean s := [[stats_mean s]];
  Rnd.var s := [[stats_var s]];
  Rnd.set_stats s m v := mkStats (pixel_of m) (pixel_of v) (stats_count s);
  Rnd.update s xs :=
    merge_moments s (Rnd.np_mean (pixel_of <$> xs)) (Rnd.np_var (pixel_of <$> xs))
      (inject_Z (Z.of_nat (length xs)));
  Rnd.update_from_moments := merge_moments
|}.

(** The discounted running sum of the rewards of every environment; the
    array handed back is a copy. *)
#[export] Instance discounted_sum
  : Rnd.RewardForwardFilter (option (list Q) * Q) (list Q) := {|
  Rnd.rff_new gamma := (None, gamma);
  Rnd.rff_update s rews not_done :=
    let rewems :=
      match s.1 with
      | None => rews
      | Some old =>
          zip_with (λ o (rn : Q * Q),
                      if Qeq_bool rn.2 1 then Qred (o * s.2 + rn.1) else o)
            old (zip rews not_done)
      end in
    ((Some rewems, s.2), rewems);
  Rnd.rff_read _ h := h
|}.

(** A stand-in for the networks: the one feature is the sum of the pixels
    scaled by the sum of the weights.  The root is exact on squares of
    rationals. *)
#[export] Instance toy_torch : Rnd.Torch := {|
  Rnd.run m x :=
    Some [Qred (Rnd.Qsum (concat x) * Rnd.Qsum (Rnd.parameters m ≫= Rnd.data))];
  Rnd.sqrt q := (Z.sqrt (Qnum q) # Pos.sqrt (Qden q))%Q
|}.

Definition toy_rnd : Rnd.RND (Stats Q) (Stats Q) (option (list Q) * Q) :=
  Rnd.__init__ None 1%Q 1%Q (99 # 100)%Q "cpu"
    (λ _, [0%Q]) (λ i, [inject_Z (Z.of_nat i)])
    (λ _, [0%Q]) (λ i, [(1 # 2)%Q]).

(** Two timesteps of one environment; the frame at timestep [t] is the
    single pixel [t]. *)
Definition two_steps : Rnd.Batch :=
  Rnd.mkBatch 2 1 (λ t _, [[[inject_Z (Z.of_nat t)]]]).


(** The episode is marked done at the second timestep only. *)
Definition done_last : Rnd.Tensor bool := λ t _, bool_decide (t = 1%nat).

(** *** More configurations *)

(** [mask_config] with the heatmap logged. *)
Definition logging_config : Env.Config :=
  {| Env.max_iterations := 4;
     Env.obs_type := "mask";
     Env.default_reward := 0%Q;
     Env.resize_scale := 8;
     Env.visitable_states := 0%Q;
     Env.extrinsic_reward := 1%Q;
     Env.extrinsic_reward_spec := Some ("P"%char, Env.GoalChar "e");
     Env.color_palette := 0;
     Env.objects := ["e"; "b"]%char;
     Env.state_layer_chars := ["#"; "e"; "b"]%char;
     Env._croppers := [player_view];
     Env.log_heatmaps := true |}.

(** RGB observations without a cropper. *)
Definition uncropped_config : Env.Config :=
  {| Env.max_iterations := 500;
     Env.obs_type := "rgb";
     Env.default_reward := (-1 # 100)%Q;
     Env.resize_scale := 8;
     Env.visitable_states := 0%Q;
     Env.extrinsic_reward := 0%Q;
     Env.extrinsic_reward_spec := Some ("P"%char, Env.GoalChar "e");
     Env.color_palette := 0;
     Env.objects := ["e"; "b"]%char;
     Env.state_layer_chars := ["#"; "e"; "b"]%char;
     Env._croppers := [];
     Env.log_heatmaps := false |}.

(** [mask_config] with the goal character 'e' left out of the objects. *)
Definition unobjected_config : Env.Config :=
  {| Env.max_iterations := 4;
     Env.obs_type := "mask";
     Env.default_reward := 0%Q;
     Env.resize_scale := 8;
     Env.visitable_states := 0%Q;
     Env.extrinsic_reward := 1%Q;
     Env.extrinsic_reward_spec := Some ("P"%char, Env.GoalChar "e");
     Env.color_palette := 0;
     Env.objects := ["b"]%char;
     Env.state_layer_chars := ["#"; "e"; "b"]%char;
     Env._croppers := [player_view];
     Env.log_heatmaps := false |}.

(** [mask_config] with the object 'e' left out of the state layers. *)
Definition unlisted_config : Env.Config :=
  {| Env.max_iterations := 4;
     Env.obs_type := "mask";
     Env.default_reward := 0%Q;
     Env.resize_scale := 8;
     Env.visitable_states := 0%Q;
     Env.extrinsic_reward := 1%Q;
     Env.extrinsic_reward_spec := Some ("P"%char, Env.GoalChar "e");
     Env.color_palette := 0;
     Env.objects := ["e"; "b"]%char;
     Env.state_layer_chars := ["#"; "b"]%char;
     Env._croppers := [player_view];
     Env.log_heatmaps := false |}.

(** [mask_config] with the object 'e' listed twice, among the objects and
    among the state layers. *)
Definition twice_config : Env.Config :=
  {| Env.max_iterations := 4;
     Env.obs_type := "mask";
     Env.default_reward := 0%Q;
     Env.resize_scale := 8;
     Env.visitable_states := 0%Q;
     Env.extrinsic_reward := 1%Q;
     Env.extrinsic_reward_spec := Some ("P"%char, Env.GoalChar "e");
     Env.color_palette := 0;
     Env.objects := ["e"; "e"; "b"]%char;
     Env.state_layer_chars := ["#"; "e"; "e"; "b"]%char;
     Env._croppers := [player_view];
     Env.log_heatmaps := false |}.

(** [mask_config] with the blank among the objects and the state layers,
    and the blank as the goal character. *)
Definition blank_goal_config : Env.Config :=
  {| Env.max_iterations := 4;
     Env.obs_type := "mask";
     Env.default_reward := 0%Q;
     Env.resize_scale := 8;
     Env.visitable_states := 0%Q;
     Env.extrinsic_reward := 1%Q;
     Env.extrinsic_reward_spec := Some ("P"%char, Env.GoalChar " ");
     Env.color_palette := 0;
     Env.objects := [" "; "e"; "b"]%char;
     Env.state_layer_chars := ["#"; " "; "e"; "b"]%char;
     Env._croppers := [player_view];
     Env.log_heatmaps := false |}.

(** [mask_config] with an observation type that is neither ['mask'] nor
    ['rgb']. *)
Definition board_config : Env.Config :=
  {| Env.max_iterations := 4;
     Env.obs_type := "board";
     Env.default_reward := 0%Q;
     Env.resize_scale := 8;
     Env.visitable_states := 0%Q;
     Env.extrinsic_reward := 1%Q;
     Env.extrinsic_reward_spec := Some ("P"%char, Env.GoalChar "e");
     Env.color_palette := 0;
     Env.objects := ["e"; "b"]%char;
     Env.state_layer_chars := ["#"; "e"; "b"]%char;
     Env._croppers := [player_view];
     Env.log_heatmaps := false |}.

(** The environment after a [reset] and three steps up the corridor: the
    next step up brings the object 'e' into the cropped observation. *)
Definition before_sight (cfg : Env.Config) : Env.PyColabEnv Maze.Game :=
  (after cfg [up; up; up]).1.

(** One episode: a [reset] and four steps up the corridor. *)
Definition one_episode : list (Env.Op Maze.Game) :=
  [Env.OpReset level_0 no_noise; up; up; up; up].

(** What a sequence of calls leaves of a constructed environment. *)
Definition finished (cfg : Env.Config) (ops : list (Env.Op Maze.Game))
  : Env.PyColabEnv Maze.Game * list (option Env.StepResult) :=
  default (blank_env, []) (Env.run (constructed cfg) ops).

(** With RGB observations, the environment after four steps up the
    corridor, the cropped observation it keeps and the image painted from
    it. *)
Definition corridor_env : Env.PyColabEnv Maze.Game :=
  (after rgb_config [up; up; up; up]).1.

Definition corridor_view : Env.Observation :=
  default (observe empty_game) (Env._last_cropped_observations corridor_env).

Definition corridor_image : Env.Image :=
  default (Env.mkImage (0, 0)%nat (λ _ _, (0, 0, 0)))
    (Env._paint_board corridor_env (Env.layers corridor_view) true no_noise).

(** The game of an environment, when it has one. *)
Definition game_of (env : Env.PyColabEnv Maze.Game) : Maze.Game :=
  default empty_game (Env.current_game env).

(** What an update left, when it did not raise. *)
Definition updated (o : option (Env.PyColabEnv Maze.Game))
  : Env.PyColabEnv Maze.Game :=
  default blank_env o.

(** Two episodes: a [reset], four steps up the corridor, a [reset]. *)
Definition two_episodes : list (Env.Op Maze.Game) :=
  [Env.OpReset level_0 no_noise; up; up; up; up; Env.OpReset level_0 no_noise].

(** The environment after three steps up the corridor, and its fourth
    step. *)
Definition third : Env.PyColabEnv Maze.Game :=
  (after mask_config [up; up; up]).1.

Definition fourth : Env.PyColabEnv Maze.Game * Env.StepResult :=
  outcome (Env.step third 0 no_noise).

(** The environment that logs heatmaps, after its [reset], and one more
    update with the same observation. *)
Definition logged : option (Env.PyColabEnv Maze.Game) :=
  Env._update_for_game_step (started logging_config)
    (player_view (observe (game_of (started logging_config)))) None no_noise.

(** *** A trajectory *)

(** A base class that only counts its steps. *)
#[export] Instance counted_steps : Traj.TrajInfo Z unit unit unit := {|
  Traj.traj_new := 0;
  Traj.Length s := s;
  Traj.traj_step s _ _ _ _ _ _ := s + 1
|}.

(** The info of a step of the second episode in which the one sprite has
    been seen [n] times. *)
Definition seen (n : Z) : Traj.EnvInfo :=
  Traj.mkEnvInfo (Some [n]) (Some [500]) (Some 0%Q) (Some 2) (Some [1]).

Definition call_with (done : bool) (env_info : Traj.EnvInfo)
  : unit * unit * Q * bool * unit * Traj.EnvInfo :=
  (tt, tt, 0%Q, done, tt, env_info).

(** Five steps: the sprite comes into view at the second, is out of view
    at the third and in view again at the fourth; the fifth ends the
    episode. *)
Definition sightings : list (unit * unit * Q * bool * unit * Traj.EnvInfo) :=
  [call_with false (seen 0); call_with false (seen 1);
   call_with false (seen 1); call_with false (seen 2);
   call_with true (seen 2)].

(** The end of an episode reported before any [reset] was counted. *)
Definition no_episode : Traj.EnvInfo :=
  Traj.mkEnvInfo (Some [1]) (Some [500]) (Some 0%Q) (Some 0) (Some [0]).

(** *** Stacked frames *)

(** A batch without a timestep. *)
Definition no_steps : Rnd.Batch :=
  Rnd.mkBatch 0 1 (λ t _, [[[inject_Z (Z.of_nat t)]]]).

(** [two_steps] with an older frame under each frame. *)
Definition two_stacked : Rnd.Batch :=
  Rnd.mkBatch 2 1 (λ t _, [[[7%Q]]; [[inject_Z (Z.of_nat t)]]]).


(** The module and the bonus [compute_bonus] returns on [two_steps]. *)
Definition rewarded : option (Rnd.RND (Stats Q) (Stats Q) (option (list Q) * Q)
                              * Rnd.Tensor Q) :=
  Rnd.compute_bonus (Handle := list Q) toy_rnd two_steps done_last.

Definition rewarded_module
  : Rnd.RND (Stats Q) (Stats Q) (option (list Q) * Q) :=
  default toy_rnd (fst <$> rewarded).

Definition rewarded_bonus : Rnd.Tensor Q :=
  default (λ _ _, 0%Q) (snd <$> rewarded).

End Examples.

(** * Properties *)

Lemma Position_eqb_eq (p q : Position) : Position_eqb p q = true ↔ p = q.
Proof.
  destruct p as [a b], q as [c d]. unfold Position_eqb. simpl.
  rewrite andb_true_iff, !Z.eqb_eq. split.
  - intros [-> ->]. reflexivity.
  - intros [= -> ->]. split; reflexivity.
Qed.

Lemma Position_eqb_refl (p : Position) : Position_eqb p p = true.
Proof. apply Position_eqb_eq. reflexivity. Qed.

Lemma Position_eqb_neq (p q : Position) : Position_eqb p q = false ↔ p ≠ q.
Proof.
  rewrite <- Position_eqb_eq. destruct (Position_eqb p q); split; congruence.
Qed.

(** ** The maze sprites *)

Module MazeFacts.
Import Maze.

Lemma ROOMS_4_length : length ROOMS_4 = 35%nat.
Proof. reflexivity. Qed.

Lemma ROOMS_4_NoDup : NoDup ROOMS_4.
Proof. apply (bool_decide_unpack _). vm_compute. reflexivity. Qed.

Lemma teleport_position w p : position (_teleport w p) = p.
Proof. reflexivity. Qed.

(** The frame leaves the white-noise object where its own update put it:
    neither the player nor the moveable object touches it. *)
Lemma update_frame_b g actions k g' :
  update_frame g actions k = Some g' →
  WhiteNoiseObject_update (b g) k = Some (b g').
Proof.
  unfold update_frame.
  destruct (PlayerSprite_update (P g) actions (render g)) as [P1 quit].
  destruct (MoveableObject_update (e g) (render g) P1) as [[e1 P2]|];
    simpl; [|discriminate].
  destruct (WhiteNoiseObject_update (b g) k) as [b1|]; simpl; [|discriminate].
  intros [= <-]. reflexivity.
Qed.

Lemma MoveableObject_update_is_Some e0 board P0 lp :
  last_position P0 = Some lp → is_Some (MoveableObject_update e0 board P0).
Proof.
  intros Hlp. unfold MoveableObject_update.
  destruct (position e0) as [mr mc]. rewrite Hlp. destruct lp as [pr pc].
  eexists. reflexivity.
Qed.

Lemma update_frame_total g actions k :
  (k < length ROOMS_4)%nat → is_Some (update_frame g actions k).
Proof.
  intros Hk. unfold update_frame.
  destruct (PlayerSprite_update (P g) actions (render g)) as [P1 quit] eqn:HP.
  assert (Hlp : last_position P1 = Some (position (walker (P g)))).
  { unfold PlayerSprite_update in HP. injection HP as <- _. reflexivity. }
  destruct (MoveableObject_update_is_Some (e g) (render g) P1 _ Hlp)
    as [[e1 P2] ->].
  simpl. unfold WhiteNoiseObject_update.
  destruct (lookup_lt_is_Some_2 ROOMS_4 k Hk) as [p ->]. simpl. eauto.
Qed.

(** C8. Every update of the white-noise sprite teleports it to the entry of
    ROOMS[4] that the random index selects; the 35 entries are pairwise
    distinct, so a uniform index is a uniform cell.  Consequently, after the
    opening frame and after every played frame, the sprite stands on a cell
    of ROOMS[4]. *)
Theorem white_noise_stays_in_room_4 (w : MazeWalker) (g : Game)
    (action : Z) (k : nat) (Hk : (k < length ROOMS_4)%nat) :
  (∃ p, ROOMS_4 !! k = Some p ∧
        WhiteNoiseObject_update w k = Some (_teleport w p) ∧
        position (_teleport w p) ∈ ROOMS_4) ∧
  (∀ p, p ∈ ROOMS_4 →
        ∃ j, ROOMS_4 !! j = Some p ∧ ∀ j', ROOMS_4 !! j' = Some p → j' = j) ∧
  (∃ g', its_showtime g k = Some g' ∧ ROOMS_4 !! k = Some (position (b g'))) ∧
  (∃ g', play g action k = Some g' ∧ ROOMS_4 !! k = Some (position (b g')) ∧
         position (b g') ∈ ROOMS_4).
Proof.
  destruct (lookup_lt_is_Some_2 ROOMS_4 k Hk) as [p Hp].
  assert (Hupd : ∀ x, WhiteNoiseObject_update x k = Some (_teleport x p)).
  { intros x. unfold WhiteNoiseObject_update. rewrite Hp. reflexivity. }
  assert (Hfr : ∀ a, ∃ g', update_frame g a k = Some g' ∧ position (b g') = p).
  { intros a. destruct (update_frame_total g a k Hk) as [g' Hg'].
    exists g'. split; [exact Hg'|].
    apply update_frame_b in Hg'. rewrite Hupd in Hg'.
    injection Hg' as <-. reflexivity. }
  split; [|split; [|split]].
  - exists p. split; [exact Hp|]. split; [apply Hupd|].
    rewrite teleport_position. eapply list_elem_of_lookup_2, Hp.
  - intros q Hq. apply list_elem_of_lookup_1 in Hq as [j Hj].
    exists j. split; [exact Hj|]. intros j' Hj'.
    eapply NoDup_lookup; [apply ROOMS_4_NoDup|exact Hj'|exact Hj].
  - destruct (Hfr None) as (g' & Hg' & Hb).
    unfold its_showtime. rewrite Hg'. simpl. eexists. split; [reflexivity|].
    simpl. rewrite Hb. exact Hp.
  - destruct (Hfr (Some action)) as (g' & Hg' & Hb).
    unfold play. rewrite Hg'. simpl. eexists. split; [reflexivity|].
    simpl. rewrite Hb. split; [exact Hp|].
    eapply list_elem_of_lookup_2, Hp.
Qed.

(** *** What a single move does *)

Lemma shift_0 p : shift p STAY = p.
Proof. destruct p as [r c]. unfold shift, STAY. simpl. f_equal; lia. Qed.

Lemma teleport_same w : _teleport w (position w) = w.
Proof. destruct w. reflexivity. Qed.

Lemma move_snd w board m :
  (_move w board m).2 =
  if obstructed w board m then w else _teleport w (shift (position w) m).
Proof.
  unfold _move, obstructed, shift.
  destruct (board_at board _) as [ch|]; [|reflexivity].
  destruct (bool_decide (ch ∈ impassable w)); reflexivity.
Qed.

Lemma move_fst w board m :
  bool_decide ((_move w board m).1 ≠ None) = obstructed w board m.
Proof.
  unfold _move, obstructed, shift.
  destruct (board_at board _) as [ch|]; [|reflexivity].
  destruct (bool_decide (ch ∈ impassable w)); reflexivity.
Qed.

Lemma move_pair w board m :
  _move w board m = ((_move w board m).1, (_move w board m).2).
Proof. destruct (_move w board m). reflexivity. Qed.

Lemma stay_snd w board : (_stay w board).2 = w.
Proof.
  unfold _stay. rewrite move_snd, shift_0, teleport_same.
  destruct (obstructed w board STAY); reflexivity.
Qed.

(** A walker that only walls stop moves wherever the board shows no wall. *)
Lemma obstructed_wall_only w board m :
  impassable w = ["#"%char] →
  board_at board (shift (position w) m) ≠ Some "#"%char →
  obstructed w board m = false.
Proof.
  intros Hi Hb. unfold obstructed.
  destruct (board_at board _) as [ch|]; [|reflexivity].
  rewrite Hi. apply bool_decide_eq_false. intros Hin.
  apply list_elem_of_singleton in Hin. congruence.
Qed.

Lemma behind_shift p d : shift (behind p d) (motion d) = p.
Proof.
  destruct p as [r c]. unfold behind, shift.
  destruct d; simpl; f_equal; lia.
Qed.

Lemma shift_behind p d : shift p (motion (opposite d)) = behind p d.
Proof. reflexivity. Qed.

Lemma shift_motion_inj p d d' :
  shift p (motion d) = shift p (motion d') → d = d'.
Proof.
  destruct p as [r c]. unfold shift.
  destruct d, d'; simpl; intros H; try reflexivity; injection H; intros; lia.
Qed.

Lemma shift_motion_ne p d : shift p (motion d) ≠ p.
Proof.
  destruct p as [r c]. unfold shift.
  destruct d; simpl; intros H; injection H; intros; lia.
Qed.

(** *** The branches of [MoveableObject.update] *)

(** The code's test for a push in direction [d]. *)
Lemma pushed_test (pe pp : Position) (a : option Z) (d : Direction) :
  pp = behind pe d ∧ a = Some (action_of d) ↔
  match d with
  | Up => (pe.2 =? pp.2) && (pe.1 - pp.1 =? -1) && bool_decide (a = Some 0)
  | Down => (pe.2 =? pp.2) && (pe.1 - pp.1 =? 1) && bool_decide (a = Some 1)
  | Right => (pe.2 - pp.2 =? 1) && (pe.1 =? pp.1) && bool_decide (a = Some 3)
  | Left => (pe.2 - pp.2 =? -1) && (pe.1 =? pp.1) && bool_decide (a = Some 2)
  end = true.
Proof.
  destruct pe as [mr mc], pp as [pr pc]. unfold behind, shift.
  destruct d; simpl; rewrite !andb_true_iff, !Z.eqb_eq, bool_decide_eq_true;
    (split; [intros [Hp ->]; injection Hp as -> ->; repeat split; lia
            |intros [[? ?] ->]; split; [f_equal; lia|reflexivity]]).
Qed.

Lemma update_pushed e0 board P0 d :
  last_position P0 = Some (behind (position e0) d) →
  last_action P0 = Some (action_of d) →
  MoveableObject_update e0 board P0 = Some (
    if at_exit e0 d || obstructed e0 board (motion d)
    then (e0, push_back P0 board (motion (opposite d)))
    else (_teleport e0 (shift (position e0) (motion d)), P0)).
Proof.
  intros Hlp Hla. unfold MoveableObject_update.
  destruct (position e0) as [mr mc] eqn:Hpos. rewrite Hlp, Hla.
  unfold behind, shift, at_exit. rewrite Hpos.
  destruct d; simpl;
    repeat match goal with
    | |- context [bool_decide (Some ?x = Some ?y)] =>
        first [rewrite (bool_decide_eq_true_2 (Some x = Some y)) by reflexivity
              |rewrite (bool_decide_eq_false_2 (Some x = Some y)) by discriminate]
    end;
    rewrite ?andb_false_r, ?andb_true_r;
    repeat match goal with
    | |- context [?a =? ?b] =>
        first [rewrite (proj2 (Z.eqb_eq a b)) by lia
              |rewrite (proj2 (Z.eqb_neq a b)) by lia]
    end; simpl.
  all: try (destruct (Position_eqb (mr, mc) _) eqn:Hex; simpl;
            [rewrite stay_snd; reflexivity|]).
  all: unfold _north, _south, _east, _west;
    rewrite (move_pair e0 board _), move_fst, move_snd;
    unfold shift; rewrite Hpos; simpl;
    match goal with |- context [obstructed ?w ?bd ?m] =>
      destruct (obstructed w bd m) end; reflexivity.
Qed.

Lemma update_not_pushed e0 board P0 lp :
  last_position P0 = Some lp →
  (∀ d, ¬ (lp = behind (position e0) d ∧ last_action P0 = Some (action_of d))) →
  MoveableObject_update e0 board P0 = Some (e0, P0).
Proof.
  intros Hlp Hno. unfold MoveableObject_update.
  destruct (position e0) as [mr mc] eqn:Hpos. rewrite Hlp.
  destruct lp as [pr pc].
  pose proof (proj2 (pushed_test (mr, mc) (pr, pc) (last_action P0) Up)) as HU.
  pose proof (proj2 (pushed_test (mr, mc) (pr, pc) (last_action P0) Down)) as HD.
  pose proof (proj2 (pushed_test (mr, mc) (pr, pc) (last_action P0) Right)) as HR.
  pose proof (proj2 (pushed_test (mr, mc) (pr, pc) (last_action P0) Left)) as HL.
  simpl in HU, HD, HR, HL.
  destruct (_ && _ && bool_decide (last_action P0 = Some 0)).
  { destruct (Hno Up (HU eq_refl)). }
  destruct (_ && _ && bool_decide (last_action P0 = Some 1)).
  { destruct (Hno Down (HD eq_refl)). }
  destruct (_ && _ && bool_decide (last_action P0 = Some 3)).
  { destruct (Hno Right (HR eq_refl)). }
  destruct (_ && _ && bool_decide (last_action P0 = Some 2)).
  { destruct (Hno Left (HL eq_refl)). }
  reflexivity.
Qed.

Lemma action_of_inj d d' : action_of d = action_of d' → d = d'.
Proof. destruct d, d'; simpl; intros H; try reflexivity; discriminate. Qed.

Lemma player_update_push P0 d board :
  (PlayerSprite_update P0 (Some (action_of d)) board).1 =
  mkPlayer (_move (walker P0) board (motion d)).2
    (Some (position (walker P0))) (Some (action_of d)).
Proof. destruct d; reflexivity. Qed.

(** Stepping onto a cell and being pushed back the other way returns the
    player to the cell it came from, when neither cell shows a wall. *)
Lemma step_and_back w board d :
  impassable w = ["#"%char] →
  board_at board (position w) ≠ Some "#"%char →
  board_at board (shift (position w) (motion d)) ≠ Some "#"%char →
  position (_move (_move w board (motion d)).2 board (motion (opposite d))).2
  = position w.
Proof.
  intros Hi Hhere Hthere.
  rewrite (move_snd w), (obstructed_wall_only w board _ Hi Hthere).
  assert (Hback : shift (shift (position w) (motion d)) (motion (opposite d))
                  = position w).
  { destruct (position w) as [r c]. unfold shift.
    destruct d; simpl; f_equal; lia. }
  rewrite move_snd, obstructed_wall_only; simpl.
  - exact Hback.
  - exact Hi.
  - rewrite Hback. exact Hhere.
Qed.

Lemma exit_guard p d :
  shift p (motion d) = (4, 9) →
  match exit_cell d with
  | Some c => Position_eqb p c
  | None => false
  end = false →
  p = (5, 9).
Proof.
  destruct p as [r c]. unfold shift.
  destruct d; simpl; intros H; injection H; intros Hc Hr Hex;
    try (apply Position_eqb_neq in Hex; exfalso; apply Hex);
    f_equal; lia.
Qed.

(** *** Room 2 is closed *)

Lemma on_board_cells board p : on_board board p = true → p ∈ cells board.
Proof.
  destruct p as [r c]. unfold on_board, cells. simpl.
  rewrite !andb_true_iff, !Z.leb_le, !Z.ltb_lt. intros [[[Hr0 Hr] Hc0] Hc].
  apply list_elem_of_bind. exists r. split.
  - apply list_elem_of_fmap. exists c. split; [reflexivity|].
    apply elem_of_seqZ. lia.
  - apply elem_of_seqZ. lia.
Qed.

Lemma board_at_on_board board p ch :
  board_at board p = Some ch → on_board board p = true.
Proof. unfold board_at. destruct (on_board board p); [reflexivity|discriminate]. Qed.

(** A fact checked on every cell of the backdrop of level 0. *)
Lemma every_cell (f : Position → bool) p ch :
  forallb f (cells level_0_backdrop) = true →
  board_at level_0_backdrop p = Some ch → f p = true.
Proof.
  intros Hall Hp. apply board_at_on_board, on_board_cells in Hp.
  rewrite forallb_forall in Hall. apply Hall, list_elem_of_In, Hp.
Qed.

Lemma backdrop_wall_or_floor p ch :
  board_at level_0_backdrop p = Some ch → ch = "#"%char ∨ ch = " "%char.
Proof.
  intros Hp.
  pose proof (every_cell (λ q, is_wall level_0_backdrop q
                               || is_floor level_0_backdrop q) p ch
                ltac:(vm_compute; reflexivity) Hp) as H.
  apply orb_true_iff in H as [H|H]; apply bool_decide_eq_true in H;
    rewrite Hp in H; injection H as ->; [left|right]; reflexivity.
Qed.

(** From a floor cell every step stays on the board. *)
Lemma floor_is_inside p m :
  board_at level_0_backdrop p = Some " "%char →
  m ∈ [NORTH; SOUTH; EAST; WEST; STAY] →
  is_Some (board_at level_0_backdrop (shift p m)).
Proof.
  intros Hp Hm.
  pose proof (every_cell
                (λ q, is_wall level_0_backdrop q
                      || forallb (λ m, match board_at level_0_backdrop
                                               (shift q m) with
                                       | Some _ => true
                                       | None => false
                                       end)
                           [NORTH; SOUTH; EAST; WEST; STAY]) p _
                ltac:(vm_compute; reflexivity) Hp) as H.
  apply orb_true_iff in H as [H|H].
  - apply bool_decide_eq_true in H. rewrite Hp in H. discriminate H.
  - rewrite forallb_forall in H. apply list_elem_of_In, H in Hm.
    destruct (board_at level_0_backdrop (shift p m)); [eauto|discriminate].
Qed.

Lemma room_2_on_board p :
  in_room_2 p = true → is_Some (board_at level_0_backdrop p).
Proof.
  destruct p as [r c]. unfold in_room_2. simpl.
  rewrite !andb_true_iff, !Z.leb_le, !Z.ltb_lt. intros [[[[Hr1 Hr4] Hc] Hc'] _].
  assert (Hon : on_board level_0_backdrop (r, c) = true).
  { unfold on_board. simpl. rewrite !andb_true_iff, !Z.leb_le, !Z.ltb_lt.
    change (board_rows level_0_backdrop) with 19.
    change (board_cols level_0_backdrop) with 19. lia. }
  apply on_board_cells in Hon.
  assert (Hall : forallb (λ q, match board_at level_0_backdrop q with
                               | Some _ => true
                               | None => false
                               end) (cells level_0_backdrop) = true)
    by (vm_compute; reflexivity).
  rewrite forallb_forall in Hall. apply list_elem_of_In, Hall in Hon.
  fold (board_at level_0_backdrop (r, c)).
  destruct (board_at level_0_backdrop (r, c)); [eauto|discriminate].
Qed.

(** Room 2 is floor, and a step from one of its cells leads to a cell of
    the room, into a wall, or from an exit cell into the doorway. *)
Lemma room_2_closed p d :
  in_room_2 p = true →
  board_at level_0_backdrop p = Some " "%char ∧
  (in_room_2 (shift p (motion d)) = true ∨
   board_at level_0_backdrop (shift p (motion d)) = Some "#"%char ∨
   exit_cell d = Some p).
Proof.
  intros Hin. destruct (room_2_on_board p Hin) as [ch Hp].
  assert (Hcheck :
    forallb (λ q, negb (in_room_2 q)
                  || (is_floor level_0_backdrop q
                      && forallb (λ d,
                           in_room_2 (shift q (motion d))
                           || is_wall level_0_backdrop (shift q (motion d))
                           || bool_decide (exit_cell d = Some q))
                           directions))
      (cells level_0_backdrop) = true) by (vm_compute; reflexivity).
  pose proof (every_cell _ p ch Hcheck Hp) as H. cbn beta in H.
  rewrite Hin in H. cbn [negb orb] in H.
  apply andb_true_iff in H as [Hfloor Hall].
  apply bool_decide_eq_true in Hfloor. split; [exact Hfloor|].
  rewrite forallb_forall in Hall.
  assert (Hd : In d directions) by (destruct d; simpl; tauto).
  apply Hall in Hd. apply orb_true_iff in Hd as [Hd|Hd].
  - apply orb_true_iff in Hd as [Hd|Hd]; [left; exact Hd|].
    right. left. apply bool_decide_eq_true in Hd. exact Hd.
  - right. right. apply bool_decide_eq_true in Hd. exact Hd.
Qed.

Lemma ROOMS_4_floor p :
  p ∈ ROOMS_4 → board_at level_0_backdrop p = Some " "%char.
Proof.
  intros Hin.
  assert (Hall : Forall (λ q, board_at level_0_backdrop q = Some " "%char)
                   ROOMS_4)
    by (apply (bool_decide_unpack _); vm_compute; exact I).
  rewrite Forall_forall in Hall. apply Hall, Hin.
Qed.

(** *** The rendered board *)

Lemma board_at_render g p :
  board_at (render g) p = render_cell g p <$> board_at (backdrop g) p.
Proof.
  destruct p as [r c]. unfold board_at.
  assert (Hon : on_board (render g) (r, c) = on_board (backdrop g) (r, c)).
  { unfold on_board, board_rows, board_cols, render.
    rewrite length_imap. destruct (backdrop g) as [|row rows]; [reflexivity|].
    simpl. rewrite length_imap. reflexivity. }
  rewrite Hon. destruct (on_board (backdrop g) (r, c)) eqn:Hb; [|reflexivity].
  unfold on_board in Hb. simpl in Hb.
  rewrite !andb_true_iff, !Z.leb_le in Hb. destruct Hb as [[[Hr _] Hc] _].
  cbn [fst snd]. unfold render, Board. rewrite list_lookup_imap.
  destruct (_ !! Z.to_nat r) as [row|]; [|reflexivity].
  cbn [fmap option_fmap option_map mbind option_bind].
  rewrite list_lookup_imap, !Z2Nat.id by assumption. reflexivity.
Qed.

Lemma wall_shows g t :
  well_placed g →
  board_at level_0_backdrop t = Some "#"%char →
  board_at (render g) t = Some "#"%char.
Proof.
  intros (Hbd & _ & _ & HP & Hb & He) Ht.
  rewrite board_at_render, Hbd, Ht. simpl. f_equal. unfold render_cell.
  destruct (Position_eqb (position (walker (P g))) t) eqn:H1.
  { apply Position_eqb_eq in H1. rewrite H1, Ht in HP. discriminate HP. }
  destruct (Position_eqb (position (b g)) t) eqn:H2.
  { apply Position_eqb_eq in H2. rewrite H2, Ht in Hb. discriminate Hb. }
  destruct (Position_eqb (position (e g)) t) eqn:H3.
  { apply Position_eqb_eq in H3.
    destruct (room_2_closed _ Up He) as [Hfloor _].
    rewrite H3, Ht in Hfloor. discriminate Hfloor. }
  reflexivity.
Qed.

Lemma move_impassable w board m : impassable (_move w board m).2 = impassable w.
Proof. rewrite move_snd. destruct (obstructed w board m); reflexivity. Qed.

(** A walker that only walls stop never leaves the floor. *)
Lemma walker_stays_on_floor g w m :
  well_placed g →
  impassable w = ["#"%char] →
  board_at level_0_backdrop (position w) = Some " "%char →
  m ∈ [NORTH; SOUTH; EAST; WEST; STAY] →
  board_at level_0_backdrop (position (_move w (render g) m).2) = Some " "%char.
Proof.
  intros Hg Hi Hw Hm. rewrite move_snd.
  destruct (obstructed w (render g) m) eqn:Hobs; [exact Hw|].
  rewrite teleport_position.
  destruct (floor_is_inside _ _ Hw Hm) as [ch Ht].
  destruct (backdrop_wall_or_floor _ _ Ht) as [-> | ->]; [|exact Ht].
  exfalso. unfold obstructed in Hobs.
  rewrite (wall_shows g _ Hg Ht), Hi in Hobs.
  rewrite bool_decide_eq_true_2 in Hobs by left. discriminate Hobs.
Qed.

Lemma update_cases e0 board P1 lp :
  last_position P1 = Some lp →
  (∃ d,
     MoveableObject_update e0 board P1 = Some (
       if at_exit e0 d || obstructed e0 board (motion d)
       then (e0, push_back P1 board (motion (opposite d)))
       else (_teleport e0 (shift (position e0) (motion d)), P1))) ∨
  MoveableObject_update e0 board P1 = Some (e0, P1).
Proof.
  intros Hlp.
  destruct (decide (Exists (λ d, lp = behind (position e0) d ∧
                                 last_action P1 = Some (action_of d))
                      directions)) as [Hyes|Hno].
  - apply Exists_exists in Hyes as (d & _ & Hpos & Hact).
    left. exists d.
    apply update_pushed; [rewrite Hlp, Hpos; reflexivity|exact Hact].
  - right. eapply update_not_pushed; [exact Hlp|].
    intros d Hd. apply Hno, Exists_exists. exists d. split; [|exact Hd].
    apply list_elem_of_In. destruct d; simpl; tauto.
Qed.

Lemma motion_listed d : motion d ∈ [NORTH; SOUTH; EAST; WEST; STAY].
Proof. apply list_elem_of_In. destruct d; simpl; tauto. Qed.

(** One frame keeps the sprites in place. *)
Lemma update_frame_well_placed g actions k g' :
  well_placed g → update_frame g actions k = Some g' → well_placed g'.
Proof.
  intros Hg Hframe. pose proof Hg as (Hbd & HPi & Hei & HP & Hb & He).
  unfold update_frame in Hframe.
  destruct (PlayerSprite_update (P g) actions (render g)) as [P1 quit] eqn:HP1.
  assert (HP1' : impassable (walker P1) = ["#"%char] ∧
                 board_at level_0_backdrop (position (walker P1)) = Some " "%char ∧
                 last_position P1 = Some (position (walker (P g)))).
  { unfold PlayerSprite_update in HP1. injection HP1 as <- _. simpl.
    unfold _north, _south, _east, _west, _stay.
    repeat case_bool_decide;
      rewrite ?move_impassable;
      (split; [exact HPi|split; [|reflexivity]]);
      try (apply walker_stays_on_floor;
           [exact Hg|exact HPi|exact HP|apply list_elem_of_In; simpl; tauto]).
    exact HP. }
  destruct HP1' as (HP1i & HP1f & Hlp).
  destruct (MoveableObject_update (e g) (render g) P1) as [[e1 P2]|] eqn:Hupd;
    [|discriminate Hframe].
  cbn [mbind option_bind] in Hframe.
  destruct (WhiteNoiseObject_update (b g) k) as [b1|] eqn:Hwn;
    [|discriminate Hframe].
  cbn [mbind option_bind] in Hframe. injection Hframe as <-.
  unfold well_placed. simpl.
  assert (Hb1 : board_at level_0_backdrop (position b1) = Some " "%char).
  { unfold WhiteNoiseObject_update in Hwn.
    destruct (ROOMS_4 !! k) as [q|] eqn:Hq; [|discriminate Hwn].
    injection Hwn as <-. rewrite teleport_position.
    apply ROOMS_4_floor. eapply list_elem_of_lookup_2, Hq. }
  assert (Hback : ∀ d, impassable (walker (push_back P1 (render g) (motion d)))
                       = ["#"%char] ∧
                       board_at level_0_backdrop
                         (position (walker (push_back P1 (render g) (motion d))))
                       = Some " "%char).
  { intros d. unfold push_back. simpl. rewrite move_impassable.
    split; [exact HP1i|].
    apply walker_stays_on_floor;
      [exact Hg|exact HP1i|exact HP1f|apply motion_listed]. }
  destruct (update_cases (e g) (render g) P1 _ Hlp) as [[d Hd]|Hd];
    rewrite Hd in Hupd.
  - destruct (at_exit (e g) d || obstructed (e g) (render g) (motion d)) eqn:Hblk;
      injection Hupd as <- <-.
    + destruct (Hback (opposite d)) as [Hi Hf].
      repeat split; assumption.
    + simpl. repeat split; try assumption.
      apply orb_false_iff in Hblk as [Hex Hobs].
      destruct (room_2_closed _ d He) as [_ [Hin|[Hwall|Hexit]]].
      * exact Hin.
      * exfalso. unfold obstructed in Hobs.
        rewrite (wall_shows g _ Hg Hwall), Hei in Hobs.
        rewrite bool_decide_eq_true_2 in Hobs by left. discriminate Hobs.
      * exfalso. unfold at_exit in Hex. rewrite Hexit in Hex.
        rewrite Position_eqb_refl in Hex. discriminate Hex.
  - injection Hupd as <- <-. repeat split; assumption.
Qed.

Lemma play_well_placed g action k g' :
  well_placed g → play g action k = Some g' → well_placed g'.
Proof.
  intros Hg. unfold play.
  destruct (update_frame g (Some action) k) as [g1|] eqn:Hf; [|discriminate].
  simpl. intros [= <-]. apply (update_frame_well_placed _ _ _ _ Hg Hf).
Qed.

Lemma its_showtime_well_placed g k g' :
  well_placed g → its_showtime g k = Some g' → well_placed g'.
Proof.
  intros Hg. unfold its_showtime.
  destruct (update_frame g None k) as [g1|] eqn:Hf; [|discriminate].
  simpl. intros [= <-]. apply (update_frame_well_placed _ _ _ _ Hg Hf).
Qed.

Lemma make_game_well_placed g : make_game 0 = Some g → well_placed g.
Proof.
  intros Hg. vm_compute in Hg. injection Hg as <-.
  unfold well_placed. simpl. repeat split; vm_compute; reflexivity.
Qed.

(** However level 0 is played, the moveable object stays on the floor of
    room 2: it never stands in the doorway (4, 9) nor beyond it. *)
Lemma object_stays_in_room_2 g0 k0 g1 inputs g :
  make_game 0 = Some g0 →
  its_showtime g0 k0 = Some g1 →
  play_all g1 inputs = Some g →
  in_room_2 (position (e g)) = true ∧ position (e g) ≠ (4, 9).
Proof.
  intros H0 H1 Hplay.
  assert (Hg : well_placed g).
  { apply make_game_well_placed in H0.
    apply (its_showtime_well_placed _ _ _ H0) in H1.
    clear H0. revert g1 H1 Hplay.
    induction inputs as [|[action k] inputs IH]; intros g1 H1 Hplay.
    - injection Hplay as <-. exact H1.
    - simpl in Hplay.
      destruct (play g1 action k) as [g2|] eqn:Hp; [|discriminate Hplay].
      apply (IH g2); [apply (play_well_placed _ _ _ _ H1 Hp)|exact Hplay]. }
  destruct Hg as (_ & _ & _ & _ & _ & He). split; [exact He|].
  intros Heq. rewrite Heq in He. discriminate He.
Qed.
(** C3. One frame of the update schedule: the player is updated with
    [actions], then the moveable object, both against the same board, on
    which neither sprite stands on a wall.  For every direction [d], the
    object ends one cell further in direction [d] exactly when the player
    stood on the adjacent cell on the opposite side and its action was the
    move in direction [d], the object was not on the exit cell of [d] and
    the board did not obstruct it.  When such a push is obstructed or the
    object is on the exit cell ((3,9) down, (4,8) right, (4,10) left) the
    object stays and the player is back on the cell it came from.  The
    object enters the doorway (4,9) from none of the three exit cells, and
    however level 0 is played the object stays on the floor of room 2. *)
Theorem moveable_object_update (P0 : PlayerSprite) (e0 : MazeWalker)
    (board : Board) (actions : option Z) (d : Direction)
    (HP : impassable (walker P0) = ["#"%char])
    (HbP : board_at board (position (walker P0)) ≠ Some "#"%char)
    (Hbe : board_at board (position e0) ≠ Some "#"%char) :
  let P1 := (PlayerSprite_update P0 actions board).1 in
  let pushed :=
    position (walker P0) = behind (position e0) d ∧
    actions = Some (action_of d) in
  let blocked := at_exit e0 d || obstructed e0 board (motion d) in
  (∃ e1 P2,
     MoveableObject_update e0 board P1 = Some (e1, P2) ∧
     (position e1 = shift (position e0) (motion d) ↔
      pushed ∧ blocked = false) ∧
     (pushed → blocked = true →
      e1 = e0 ∧ position (walker P2) = position (walker P0)) ∧
     (position e1 = (4, 9) →
      position e0 = (4, 9) ∨ position e0 = (5, 9))) ∧
  (∀ g0 k0 g1 inputs g,
     make_game 0 = Some g0 →
     its_showtime g0 k0 = Some g1 →
     play_all g1 inputs = Some g →
     in_room_2 (position (e g)) = true ∧ position (e g) ≠ (4, 9)).
Proof.
  intros P1 pushed blocked.
  split; [|intros g0 k0 g1 inputs g; apply object_stays_in_room_2].
  assert (Hlp : last_position P1 = Some (position (walker P0))) by reflexivity.
  assert (Hla : last_action P1 = actions) by reflexivity.
  assert (Hcases :
    (∃ d', position (walker P0) = behind (position e0) d' ∧
           actions = Some (action_of d')) ∨
    (∀ d', ¬ (position (walker P0) = behind (position e0) d' ∧
              actions = Some (action_of d')))).
  { destruct (decide (position (walker P0) = behind (position e0) Up ∧
                      actions = Some (action_of Up))); [left; eauto|].
    destruct (decide (position (walker P0) = behind (position e0) Down ∧
                      actions = Some (action_of Down))); [left; eauto|].
    destruct (decide (position (walker P0) = behind (position e0) Right ∧
                      actions = Some (action_of Right))); [left; eauto|].
    destruct (decide (position (walker P0) = behind (position e0) Left ∧
                      actions = Some (action_of Left))); [left; eauto|].
    right. intros []; assumption. }
  destruct Hcases as [(d' & Hpos & Hact) | Hno].
  - pose proof (update_pushed e0 board P1 d') as Hupd.
    rewrite Hlp, Hla, Hpos, Hact in Hupd.
    specialize (Hupd eq_refl eq_refl).
    assert (Hsame : pushed → d = d').
    { intros [_ Hd]. rewrite Hact in Hd. injection Hd as Hd.
      symmetry. apply action_of_inj, Hd. }
    destruct (at_exit e0 d' || obstructed e0 board (motion d')) eqn:Hblk.
    + exists e0, (push_back P1 board (motion (opposite d'))).
      split; [exact Hupd|]. split; [|split].
      * split.
        -- intros Habs. symmetry in Habs. destruct (shift_motion_ne _ _ Habs).
        -- intros [Hpu Hb]. apply Hsame in Hpu. subst d'.
           unfold blocked in Hb. congruence.
      * intros _ _. split; [reflexivity|].
        unfold P1. rewrite Hact, player_update_push. unfold push_back. simpl.
        apply step_and_back; [exact HP|exact HbP|].
        rewrite Hpos, behind_shift. exact Hbe.
      * intros H49. left. exact H49.
    + exists (_teleport e0 (shift (position e0) (motion d'))), P1.
      split; [exact Hupd|]. split; [|split].
      * rewrite teleport_position. split.
        -- intros Heq. apply shift_motion_inj in Heq. subst d'.
           split; [split; assumption|exact Hblk].
        -- intros [Hpu _]. apply Hsame in Hpu. subst d'. reflexivity.
      * intros Hpu Hb. apply Hsame in Hpu. subst d'.
        unfold blocked in Hb. congruence.
      * rewrite teleport_position. intros H49. right.
        apply orb_false_iff in Hblk as [Hex _].
        eapply exit_guard; [exact H49|exact Hex].
  - exists e0, P1. split.
    { eapply update_not_pushed; [exact Hlp|]. rewrite Hla. exact Hno. }
    split; [|split].
    + split.
      * intros Habs. symmetry in Habs. destruct (shift_motion_ne _ _ Habs).
      * intros [Hpu _]. destruct (Hno d Hpu).
    + intros Hpu. destruct (Hno d Hpu).
    + intros H49. left. exact H49.
Qed.


(** *** The sprites keep apart *)

Lemma update_pushed_or_not e0 board P1 lp :
  last_position P1 = Some lp →
  (∃ d, lp = behind (position e0) d ∧ last_action P1 = Some (action_of d) ∧
     MoveableObject_update e0 board P1 = Some (
       if at_exit e0 d || obstructed e0 board (motion d)
       then (e0, push_back P1 board (motion (opposite d)))
       else (_teleport e0 (shift (position e0) (motion d)), P1))) ∨
  ((∀ d, ¬ (lp = behind (position e0) d ∧
            last_action P1 = Some (action_of d))) ∧
   MoveableObject_update e0 board P1 = Some (e0, P1)).
Proof.
  intros Hlp.
  destruct (decide (Exists (λ d, lp = behind (position e0) d ∧
                                 last_action P1 = Some (action_of d))
                      directions)) as [Hyes|Hno].
  - apply Exists_exists in Hyes as (d & _ & Hpos & Hact).
    left. exists d. split; [exact Hpos|]. split; [exact Hact|].
    apply update_pushed; [rewrite Hlp, Hpos; reflexivity|exact Hact].
  - assert (Hnone : ∀ d, ¬ (lp = behind (position e0) d ∧
                            last_action P1 = Some (action_of d))).
    { intros d Hd. apply Hno, Exists_exists. exists d. split; [|exact Hd].
      apply list_elem_of_In. destruct d; simpl; tauto. }
    right. split; [exact Hnone|].
    eapply update_not_pushed; [exact Hlp|exact Hnone].
Qed.

(** Where [PlayerSprite.update] leaves the player: on its cell, or one cell
    further in the direction of its action. *)
Lemma player_update_position P0 actions board :
  position (walker (PlayerSprite_update P0 actions board).1)
    = position (walker P0) ∨
  ∃ d, actions = Some (action_of d) ∧
       obstructed (walker P0) board (motion d) = false ∧
       position (walker (PlayerSprite_update P0 actions board).1)
         = shift (position (walker P0)) (motion d).
Proof.
  unfold PlayerSprite_update. cbn [fst walker].
  unfold _north, _south, _east, _west.
  repeat case_bool_decide; subst;
    try (rewrite stay_snd; left; reflexivity);
    try (left; reflexivity);
    rewrite move_snd;
    match goal with |- context [obstructed ?w ?bd ?m] =>
      destruct (obstructed w bd m) eqn:Hobs end;
    try (left; reflexivity); right.
  - exists Up. repeat split; assumption.
  - exists Down. repeat split; assumption.
  - exists Left. repeat split; assumption.
  - exists Right. repeat split; assumption.
Qed.

Lemma behind_of_shift p d : behind (shift p (motion d)) d = p.
Proof.
  destruct p as [r c]. unfold behind, shift. destruct d; simpl; f_equal; lia.
Qed.

Lemma behind_ne_shift p d : behind p d ≠ shift p (motion d).
Proof.
  destruct p as [r c]. unfold behind, shift.
  destruct d; simpl; intros H; injection H; intros; lia.
Qed.

(** The board never shows a wall where the backdrop has floor. *)
Lemma floor_shows_no_wall g p :
  board_at (backdrop g) p = Some " "%char →
  board_at (render g) p ≠ Some "#"%char.
Proof.
  intros Hp. rewrite board_at_render, Hp. simpl. unfold render_cell.
  repeat match goal with |- context [Position_eqb ?a ?b] =>
    destruct (Position_eqb a b) end; discriminate.
Qed.

Lemma room_4_outside_room_2 p : p ∈ ROOMS_4 → in_room_2 p = false.
Proof.
  intros Hin.
  assert (Hall : Forall (λ q, in_room_2 q = false) ROOMS_4)
    by (apply (bool_decide_unpack _); vm_compute; exact I).
  rewrite Forall_forall in Hall. apply Hall, Hin.
Qed.

Lemma update_frame_settled g actions k g' :
  settled g → update_frame g actions k = Some g' → settled g'.
Proof.
  intros (Hg & _ & Hapart) Hframe.
  split; [apply (update_frame_well_placed _ _ _ _ Hg Hframe)|].
  split.
  { apply update_frame_b in Hframe. unfold WhiteNoiseObject_update in Hframe.
    destruct (ROOMS_4 !! k) as [q|] eqn:Hq; [|discriminate Hframe].
    injection Hframe as <-. rewrite teleport_position.
    eapply list_elem_of_lookup_2, Hq. }
  pose proof Hg as (Hbd & HPi & Hei & HP & Hb & He).
  destruct (room_2_closed _ Up He) as [Hefloor _].
  assert (HnoP : board_at (render g) (position (walker (P g))) ≠ Some "#"%char)
    by (apply floor_shows_no_wall; rewrite Hbd; exact HP).
  assert (Hnoe : board_at (render g) (position (e g)) ≠ Some "#"%char)
    by (apply floor_shows_no_wall; rewrite Hbd; exact Hefloor).
  unfold update_frame in Hframe.
  pose proof (player_update_position (P g) actions (render g)) as Hmoved.
  destruct (PlayerSprite_update (P g) actions (render g)) as [P1 quit] eqn:HP1.
  assert (Hlp : last_position P1 = Some (position (walker (P g)))).
  { unfold PlayerSprite_update in HP1. injection HP1 as <- _. reflexivity. }
  assert (Hla : last_action P1 = actions).
  { unfold PlayerSprite_update in HP1. injection HP1 as <- _. reflexivity. }
  assert (HP1w : P1 = (PlayerSprite_update (P g) actions (render g)).1)
    by (rewrite HP1; reflexivity).
  cbn [fst] in Hmoved.
  destruct (MoveableObject_update (e g) (render g) P1) as [[e1 P2]|] eqn:Hupd;
    [|discriminate Hframe].
  cbn [mbind option_bind] in Hframe.
  destruct (WhiteNoiseObject_update (b g) k) as [b1|]; [|discriminate Hframe].
  cbn [mbind option_bind] in Hframe. injection Hframe as <-. cbn [P e walker].
  destruct (update_pushed_or_not (e g) (render g) P1 _ Hlp)
    as [(d & Hpos & Hact & Hd)|[Hno Hd]]; rewrite Hd in Hupd.
  - rewrite Hla in Hact.
    destruct (at_exit (e g) d || obstructed (e g) (render g) (motion d));
      injection Hupd as <- <-.
    + rewrite HP1w, Hact, player_update_push. unfold push_back. cbn [walker].
      rewrite step_and_back; [exact Hapart|exact HPi|exact HnoP|].
      rewrite Hpos, behind_shift. exact Hnoe.
    + rewrite teleport_position.
      destruct Hmoved as [Hstay|(d' & Hact' & _ & Hto)].
      * rewrite Hstay, Hpos. apply behind_ne_shift.
      * rewrite Hto, Hpos. rewrite Hact in Hact'. injection Hact' as Hact'.
        apply action_of_inj in Hact'. subst d'. rewrite behind_shift.
        intros Heq. symmetry in Heq. apply (shift_motion_ne _ _ Heq).
  - injection Hupd as <- <-.
    destruct Hmoved as [Hstay|(d' & Hact' & _ & Hto)].
    + rewrite Hstay. exact Hapart.
    + rewrite Hto. intros Heq. apply (Hno d'). split.
      * rewrite <- Heq. symmetry. apply behind_of_shift.
      * rewrite Hla. exact Hact'.
Qed.

Lemma play_settled g action k g' :
  settled g → play g action k = Some g' → settled g'.
Proof.
  intros Hg. unfold play.
  destruct (update_frame g (Some action) k) as [g1|] eqn:Hf; [|discriminate].
  simpl. intros [= <-]. apply (update_frame_settled _ _ _ _ Hg Hf).
Qed.

Lemma its_showtime_settled g k g' :
  settled g → its_showtime g k = Some g' → settled g'.
Proof.
  intros Hg. unfold its_showtime.
  destruct (update_frame g None k) as [g1|] eqn:Hf; [|discriminate].
  simpl. intros [= <-]. apply (update_frame_settled _ _ _ _ Hg Hf).
Qed.

Lemma make_game_settled g : make_game 0 = Some g → settled g.
Proof.
  intros Hg. split; [apply make_game_well_placed, Hg|].
  vm_compute in Hg. injection Hg as <-. split.
  - apply list_elem_of_In. vm_compute. tauto.
  - vm_compute. discriminate.
Qed.

Lemma play_all_settled inputs g1 g :
  settled g1 → play_all g1 inputs = Some g → settled g.
Proof.
  revert g1. induction inputs as [|[action k] inputs IH]; intros g1 H1 Hplay.
  - injection Hplay as <-. exact H1.
  - simpl in Hplay.
    destruct (play g1 action k) as [g2|] eqn:Hp; [|discriminate Hplay].
    apply (IH g2); [apply (play_settled _ _ _ _ H1 Hp)|exact Hplay].
Qed.

(** X1. However level 0 is played, at the end of every frame the player
    does not stand on the moveable object, and the white-noise object
    does not either. *)
Theorem sprites_keep_apart (g0 g1 g : Game) (k0 : nat)
    (inputs : list (Z * nat))
    (Hmade : make_game 0 = Some g0)
    (Hshow : its_showtime g0 k0 = Some g1)
    (Hplay : play_all g1 inputs = Some g) :
  position (walker (P g)) ≠ position (e g) ∧
  position (b g) ≠ position (e g).
Proof.
  apply make_game_settled in Hmade.
  apply (its_showtime_settled _ _ _ Hmade) in Hshow.
  destruct (play_all_settled _ _ _ Hshow Hplay) as (Hg & Hb & Hapart).
  split; [exact Hapart|].
  destruct Hg as (_ & _ & _ & _ & _ & He).
  intros Heq. rewrite Heq in Hb. apply room_4_outside_room_2 in Hb.
  congruence.
Qed.

(** X2. However level 0 is played, the player stands on a floor cell of
    the maze: it never enters a wall and never leaves the board. *)
Theorem player_stays_on_floor (g0 g1 g : Game) (k0 : nat)
    (inputs : list (Z * nat))
    (Hmade : make_game 0 = Some g0)
    (Hshow : its_showtime g0 k0 = Some g1)
    (Hplay : play_all g1 inputs = Some g) :
  board_at (backdrop g) (position (walker (P g))) = Some " "%char ∧
  on_board (backdrop g) (position (walker (P g))) = true ∧
  backdrop g = backdrop g0.
Proof.
  pose proof (make_game_settled _ Hmade) as H0.
  apply (its_showtime_settled _ _ _ H0) in Hshow.
  destruct (play_all_settled _ _ _ Hshow Hplay) as (Hg & _ & _).
  destruct Hg as (Hbd & _ & _ & HP & _ & _).
  destruct H0 as ((Hbd0 & _) & _).
  rewrite Hbd. split; [exact HP|]. split.
  - eapply board_at_on_board, HP.
  - symmetry. exact Hbd0.
Qed.

(** *** The end of the game *)

Lemma update_frame_game_over g actions k g' :
  update_frame g actions k = Some g' →
  game_over g' = game_over g || bool_decide (actions = Some 5).
Proof.
  unfold update_frame, PlayerSprite_update.
  destruct (MoveableObject_update _ _ _) as [[e1 P2]|]; [|discriminate].
  cbn [mbind option_bind].
  destruct (WhiteNoiseObject_update (b g) k) as [b1|]; [|discriminate].
  cbn [mbind option_bind]. intros [= <-]. reflexivity.
Qed.

Lemma play_game_over g action k g' :
  play g action k = Some g' →
  game_over g' = game_over g || bool_decide (action = 5).
Proof.
  unfold play.
  destruct (update_frame g (Some action) k) as [g1|] eqn:Hf; [|discriminate].
  simpl. intros [= <-]. cbn [game_over].
  rewrite (update_frame_game_over _ _ _ _ Hf).
  f_equal. apply bool_decide_ext. split; congruence.
Qed.

(** X3. The maze has no terminal state of its own: as long as the player
    has not issued action 5 the game is not over, and the next frame ends
    it exactly when its action is 5. *)
Theorem game_ends_only_by_quit (g0 g1 g : Game) (k0 : nat)
    (inputs : list (Z * nat))
    (Hmade : make_game 0 = Some g0)
    (Hshow : its_showtime g0 k0 = Some g1)
    (Hplay : play_all g1 inputs = Some g)
    (Hnoquit : Forall (λ i : Z * nat, i.1 ≠ 5) inputs) :
  game_over g = false ∧
  ∀ action k g', play g action k = Some g' →
    (game_over g' = true ↔ action = 5).
Proof.
  assert (H1 : game_over g1 = false).
  { vm_compute in Hmade. injection Hmade as <-.
    unfold its_showtime in Hshow.
    destruct (update_frame _ None k0) as [g'|] eqn:Hf; [|discriminate Hshow].
    simpl in Hshow. injection Hshow as <-. simpl.
    rewrite (update_frame_game_over _ _ _ _ Hf). reflexivity. }
  assert (Hg : game_over g = false).
  { clear Hshow Hmade. revert g1 H1 Hplay.
    induction Hnoquit as [|[action k] inputs Ha _ IH]; intros g1 H1 Hplay.
    - injection Hplay as <-. exact H1.
    - simpl in Hplay.
      destruct (play g1 action k) as [g2|] eqn:Hp; [|discriminate Hplay].
      apply (IH g2); [|exact Hplay].
      rewrite (play_game_over _ _ _ _ Hp), H1. simpl.
      apply bool_decide_eq_false. exact Ha. }
  split; [exact Hg|].
  intros action k g' Hp. rewrite (play_game_over _ _ _ _ Hp), Hg. simpl.
  apply bool_decide_eq_true.
Qed.

End MazeFacts.

(** ** The gym adapter *)

Module EnvFacts.
Import Env.

(** *** The loop over the state layers *)

Lemma scan_layer_tracked cfg observations rewarded reward vf st char :
  (scan_layer cfg observations rewarded (reward, vf, st) char).1 =
  if tracked cfg observations char
  then ((if rewarded char then Some (extrinsic_reward cfg) else reward),
        alter Z.succ char vf)
  else (reward, vf).
Proof.
  unfold scan_layer, tracked.
  destruct (bool_decide (char ≠ " "%char)); [|reflexivity]. simpl.
  destruct (bool_decide (char ∈ objects cfg) && _); reflexivity.
Qed.

Lemma scan_fold cfg observations rewarded chars reward vf st :
  (foldl (scan_layer cfg observations rewarded) (reward, vf, st) chars).1 =
  ((if existsb (λ char, tracked cfg observations char && rewarded char) chars
    then Some (extrinsic_reward cfg) else reward),
   count_visits cfg observations vf chars).
Proof.
  revert reward vf st. induction chars as [|char chars IH]; intros reward vf st.
  - reflexivity.
  - cbn [foldl].
    destruct (scan_layer cfg observations rewarded (reward, vf, st) char)
      as [[reward' vf'] st'] eqn:Hs.
    pose proof (scan_layer_tracked cfg observations rewarded reward vf st char)
      as Ht. rewrite Hs in Ht. simpl in Ht.
    rewrite IH. unfold count_visits. cbn [foldl existsb].
    destruct (tracked cfg observations char); injection Ht as -> ->; simpl.
    + destruct (rewarded char); simpl; [|reflexivity].
      destruct (existsb _ chars); reflexivity.
    + reflexivity.
Qed.

(** A character listed once gains one visit when it is tracked, and no
    other count moves. *)
Lemma count_visits_lookup cfg observations (vf : gmap ascii Z) chars c :
  NoDup chars →
  count_visits cfg observations vf chars !! c =
  if tracked cfg observations c && bool_decide (c ∈ chars)
  then Z.succ <$> vf !! c else vf !! c.
Proof.
  unfold count_visits. revert vf.
  induction chars as [|char chars IH]; intros vf Hnd.
  - simpl. rewrite andb_false_r. reflexivity.
  - apply NoDup_cons in Hnd as [Hnotin Hnd]. simpl. rewrite IH by exact Hnd.
    destruct (decide (c = char)) as [->|Hne].
    + rewrite (bool_decide_eq_false_2 (char ∈ chars)) by exact Hnotin.
      rewrite andb_false_r.
      rewrite (bool_decide_eq_true_2 (char ∈ char :: chars)) by left.
      rewrite andb_true_r.
      destruct (tracked cfg observations char); [|reflexivity].
      apply lookup_alter_eq.
    + assert (Hin : bool_decide (c ∈ char :: chars) = bool_decide (c ∈ chars)).
      { apply bool_decide_ext. rewrite elem_of_cons.
        split; [intros [Heq|Hin]; [congruence|exact Hin]|intros Hin; right; exact Hin]. }
      rewrite Hin.
      assert (Hlk : (if tracked cfg observations char
                     then alter Z.succ char vf else vf) !! c = vf !! c).
      { destruct (tracked cfg observations char); [|reflexivity].
        apply lookup_alter_ne. congruence. }
      rewrite Hlk. reflexivity.
Qed.

Lemma dict_of_lookup chars v c : c ∈ chars → dict_of chars v !! c = Some v.
Proof.
  unfold dict_of. induction chars as [|char chars IH]; intros Hin.
  - apply elem_of_nil in Hin. destruct Hin.
  - rewrite fmap_cons. simpl.
    destruct (decide (char = c)) as [->|Hne].
    + apply lookup_insert_eq.
    + rewrite lookup_insert_ne by exact Hne. apply IH.
      apply elem_of_cons in Hin as [->|Hin]; [congruence|exact Hin].
Qed.

(** An object listed once gains one episode when it was visited, and no
    other counter moves. *)
Lemma save_metrics_lookup objs (vf num : gmap ascii Z) c :
  NoDup objs →
  save_metrics objs vf num !! c =
  if bool_decide (c ∈ objs) && (0 <? vf !!! c)
  then Z.succ <$> num !! c else num !! c.
Proof.
  unfold save_metrics. revert num.
  induction objs as [|char objs IH]; intros num Hnd.
  - reflexivity.
  - apply NoDup_cons in Hnd as [Hnotin Hnd]. simpl. rewrite IH by exact Hnd.
    destruct (decide (c = char)) as [->|Hne].
    + rewrite (bool_decide_eq_false_2 (char ∈ objs)) by exact Hnotin.
      rewrite (bool_decide_eq_true_2 (char ∈ char :: objs)) by left.
      simpl. destruct (0 <? vf !!! char); [|reflexivity].
      apply lookup_alter_eq.
    + assert (Hin : bool_decide (c ∈ char :: objs) = bool_decide (c ∈ objs)).
      { apply bool_decide_ext. rewrite elem_of_cons.
        split; [intros [Heq|Hin]; [congruence|exact Hin]
               |intros Hin; right; exact Hin]. }
      rewrite Hin.
      assert (Hlk : (if 0 <? vf !!! char then alter Z.succ char num else num)
                    !! c = num !! c).
      { destruct (0 <? vf !!! char); [|reflexivity].
        apply lookup_alter_ne. congruence. }
      rewrite Hlk. reflexivity.
Qed.

(** *** Episodes of a history *)

Lemma episodes_of_nonempty h cur : episodes_of h cur ≠ [].
Proof.
  revert cur. induction h as [|[[] o] h IH]; intros cur; simpl.
  - discriminate.
  - discriminate.
  - apply IH.
Qed.

Lemma current_episode_cons ep eps :
  eps ≠ [] → current_episode (ep :: eps) = current_episode eps.
Proof.
  intros Hne. unfold current_episode. destruct eps as [|ep' eps]; [congruence|].
  reflexivity.
Qed.

Lemma episodes_visited_cons c ep eps :
  eps ≠ [] →
  episodes_visited c (ep :: eps) =
  (if 0 <? visits c ep then 1 else 0) + episodes_visited c eps.
Proof.
  intros Hne. unfold episodes_visited, ended_episodes.
  destruct eps as [|ep' eps]; [congruence|].
  replace (length (ep :: ep' :: eps) - 1)%nat
    with (S (length (ep' :: eps) - 1)) by (simpl; lia).
  cbn [take]. rewrite filter_cons.
  destruct (Z.ltb_spec 0 (visits c ep)) as [Hv|Hv].
  - case_decide; [|lia]. simpl length. lia.
  - case_decide; [lia|]. lia.
Qed.

Lemma visits_snoc c ep o :
  visits c (ep ++ [o]) = visits c ep + Z.b2z (visible c o).
Proof.
  unfold visits. rewrite filter_app, length_app, filter_cons.
  destruct (visible c o); simpl; lia.
Qed.

Lemma visits_singleton c o : visits c [o] = Z.b2z (visible c o).
Proof. apply (visits_snoc c [] o). Qed.

Lemma visits_nonneg c ep : 0 ≤ visits c ep.
Proof. unfold visits. lia. Qed.

(** *** Painting *)

Lemma first_cover_app covers l1 l2 :
  first_cover covers (l1 ++ l2) =
  match first_cover covers l1 with
  | Some ik => Some ik
  | None => first_cover covers l2
  end.
Proof.
  induction l1 as [|ik l1 IH]; simpl; [reflexivity|].
  destruct (covers ik.2); [reflexivity|exact IH].
Qed.

(** What the loop of [_paint_board] leaves at a cell: the colour of the
    first layer of the render order that covers it, with the perturbation
    drawn for that layer when it is ['@']; at a cell that no layer covers,
    the perturbation of the last layer of the render order. *)
Lemma paint_cell colors lyrs randint (order : list (nat * ascii)) r c :
  let covers key := mask_at (lyrs !!! key) r c in
  let perturbation (ik : nat * ascii) :=
    if bool_decide (ik.2 = "@"%char) then randint ik.1 r c else 0 in
  let res :=
    foldl (paint_layer colors lyrs randint)
      (λ _ _, (0, 0, 0), λ _ _, false) order in
  res.2 r c =
    match first_cover covers order with Some _ => true | None => false end ∧
  res.1 r c =
    match first_cover covers order with
    | Some ik =>
        rgb_map (λ ch, ch + perturbation ik) (default (0, 0, 0) (colors !! ik.2))
    | None =>
        match last order with
        | Some ik => (perturbation ik, perturbation ik, perturbation ik)
        | None => (0, 0, 0)
        end
    end.
Proof.
  intros covers perturbation.
  induction order as [|[i key] order IH] using rev_ind; [split; reflexivity|].
  cbn zeta in IH |- *. rewrite foldl_app, first_cover_app, last_snoc.
  destruct (foldl _ _ order) as [board board_mask]. simpl in IH.
  destruct IH as [Hmask Hboard]. cbn [foldl paint_layer fst snd].
  destruct (first_cover covers order) as [ik|].
  - rewrite Hmask, orb_true_r. simpl. split; [reflexivity|exact Hboard].
  - rewrite Hmask, orb_false_r. simpl. fold (covers key).
    destruct (covers key); cbn [Z.b2z]; (split; [reflexivity|]);
      unfold rgb_map, perturbation; cbn [fst snd];
      destruct (default (0, 0, 0) (colors !! key)) as [[x y] z]; cbn [fst snd];
      destruct (bool_decide (key = "@"%char));
      rewrite ?Z.mul_1_l, ?Z.mul_0_l, ?Z.add_0_l; reflexivity.
Qed.

Section WithEngine.
Context {Engine : Type} `{!Pycolab Engine} `{!SciPy}.

(** What an update with a supported observation type leaves behind. *)
Lemma update_for_game_step_spec (env env' : PyColabEnv Engine)
    observations reward randint :
  _update_for_game_step env observations reward randint = Some env' →
  ∃ game spec,
    current_game env = Some game ∧
    extrinsic_reward_spec (config env) = Some spec ∧
    config env' = config env ∧
    current_game env' = current_game env ∧
    num_obj_eps env' = num_obj_eps env ∧
    episodes env' = episodes env ∧
    _last_uncropped_observations env' = _last_uncropped_observations env ∧
    _last_cropped_observations env' = _last_cropped_observations env ∧
    _game_over env' = Some (game_over_now (config env) game) ∧
    ∀ rewarded,
      (obs_type (config env) = "mask" ∧ rewarded = mask_rewarded (config env)) ∨
      (obs_type (config env) = "rgb" ∧ rewarded = rgb_rewarded (config env)) →
      visitation_frequency env' =
        count_visits (config env) observations (visitation_frequency env)
          (state_layer_chars (config env)) ∧
      _last_reward env' =
        Some (default (default_reward (config env))
                (if existsb (λ char, tracked (config env) observations char
                                     && rewarded char)
                     (state_layer_chars (config env))
                 then Some (extrinsic_reward (config env))
                 else coordinate_reward (config env) game spec reward)).
Proof.
  unfold _update_for_game_step. intros Hu.
  destruct (current_game env) as [game|] eqn:Hg; [|discriminate].
  destruct (extrinsic_reward_spec (config env)) as [spec|] eqn:Hspec;
    [|discriminate].
  cbn [mbind option_bind] in Hu.
  set (r1 := coordinate_reward (config env) game spec reward) in *.
  destruct (String.eqb (obs_type (config env)) "mask") eqn:Hm.
  - apply String.eqb_eq in Hm.
    pose proof (scan_fold (config env) observations (mask_rewarded (config env))
                  (state_layer_chars (config env)) r1
                  (visitation_frequency env) []) as Hf.
    destruct (foldl _ _ _) as [[r2 vf] masks]. simpl in Hf.
    injection Hf as -> ->. cbn [mbind option_bind] in Hu.
    destruct (log_heatmaps (config env)).
    + destruct (thing_position game "P") as [pr pc].
      injection Hu as <-. exists game, spec. simpl.
      do 3 (split; [reflexivity|]). split; [exact Hg|]. do 5 (split; [reflexivity|]).
      intros rewarded [[_ ->]|[Hr _]]; [|rewrite Hm in Hr; discriminate].
      split; [reflexivity|]. subst r1. destruct (existsb _ _); [reflexivity|].
        destruct (coordinate_reward _ _ _ _); reflexivity.
    + injection Hu as <-. exists game, spec. simpl.
      do 3 (split; [reflexivity|]). split; [exact Hg|]. do 5 (split; [reflexivity|]).
      intros rewarded [[_ ->]|[Hr _]]; [|rewrite Hm in Hr; discriminate].
      split; [reflexivity|]. subst r1. destruct (existsb _ _); [reflexivity|].
        destruct (coordinate_reward _ _ _ _); reflexivity.
  - destruct (String.eqb (obs_type (config env)) "rgb") eqn:Hr.
    + apply String.eqb_eq in Hr.
      destruct (_paint_board env (layers observations) true randint)
        as [img|]; [|discriminate].
      cbn [mbind option_bind] in Hu.
      pose proof (scan_fold (config env) observations
                    (rgb_rewarded (config env))
                    (state_layer_chars (config env)) r1
                    (visitation_frequency env) []) as Hf.
      destruct (foldl _ _ _) as [[r2 vf] masks]. simpl in Hf.
      injection Hf as -> ->. cbn [mbind option_bind] in Hu.
      destruct (log_heatmaps (config env)).
      * destruct (thing_position game "P") as [pr pc].
        injection Hu as <-. exists game, spec. simpl.
        do 3 (split; [reflexivity|]). split; [exact Hg|]. do 5 (split; [reflexivity|]).
        intros rewarded [[Hm' _]|[_ ->]]; [rewrite Hr in Hm'; discriminate|].
        split; [reflexivity|]. subst r1. destruct (existsb _ _); [reflexivity|].
        destruct (coordinate_reward _ _ _ _); reflexivity.
      * injection Hu as <-. exists game, spec. simpl.
        do 3 (split; [reflexivity|]). split; [exact Hg|]. do 5 (split; [reflexivity|]).
        intros rewarded [[Hm' _]|[_ ->]]; [rewrite Hr in Hm'; discriminate|].
        split; [reflexivity|]. subst r1. destruct (existsb _ _); [reflexivity|].
        destruct (coordinate_reward _ _ _ _); reflexivity.
    + apply String.eqb_neq in Hm, Hr. cbn [mbind option_bind] in Hu.
      destruct (log_heatmaps (config env)).
      * destruct (thing_position game "P") as [pr pc].
        injection Hu as <-. exists game, spec. simpl.
        do 3 (split; [reflexivity|]). split; [exact Hg|]. do 5 (split; [reflexivity|]).
        intros rewarded [[Hm' _]|[Hr' _]]; congruence.
      * injection Hu as <-. exists game, spec. simpl.
        do 3 (split; [reflexivity|]). split; [exact Hg|]. do 5 (split; [reflexivity|]).
        intros rewarded [[Hm' _]|[Hr' _]]; congruence.
Qed.

(** What an update leaves in the counters and in the reward, whatever the
    observation type. *)
Lemma update_for_game_step_result (env env' : PyColabEnv Engine)
    observations reward randint :
  _update_for_game_step env observations reward randint = Some env' →
  ∃ game spec,
    current_game env = Some game ∧
    extrinsic_reward_spec (config env) = Some spec ∧
    config env' = config env ∧
    num_obj_eps env' = num_obj_eps env ∧
    visitation_frequency env' =
      (if String.eqb (obs_type (config env)) "mask"
          || String.eqb (obs_type (config env)) "rgb"
       then count_visits (config env) observations (visitation_frequency env)
              (state_layer_chars (config env))
       else visitation_frequency env) ∧
    _last_reward env' =
      Some (default (default_reward (config env))
              (if (if String.eqb (obs_type (config env)) "mask" then
                     existsb (λ char, tracked (config env) observations char
                                      && mask_rewarded (config env) char)
                       (state_layer_chars (config env))
                   else if String.eqb (obs_type (config env)) "rgb" then
                     existsb (λ char, tracked (config env) observations char
                                      && rgb_rewarded (config env) char)
                       (state_layer_chars (config env))
                   else false)
               then Some (extrinsic_reward (config env))
               else coordinate_reward (config env) game spec reward)).
Proof.
  intros Hu.
  destruct (String.eqb (obs_type (config env)) "mask") eqn:Hm.
  - apply update_for_game_step_spec in Hu
      as (g & spec & Hg & Hspec & Hc & _ & Hnum & _ & _ & _ & _ & Hrew).
    apply String.eqb_eq in Hm.
    destruct (Hrew (mask_rewarded (config env))) as [Hvf Hlast].
    { left. split; [exact Hm|reflexivity]. }
    exists g, spec. do 4 (split; [assumption|]). split; assumption.
  - destruct (String.eqb (obs_type (config env)) "rgb") eqn:Hr.
    + apply update_for_game_step_spec in Hu
        as (g & spec & Hg & Hspec & Hc & _ & Hnum & _ & _ & _ & _ & Hrew).
      apply String.eqb_eq in Hr.
      destruct (Hrew (rgb_rewarded (config env))) as [Hvf Hlast].
      { right. split; [exact Hr|reflexivity]. }
      exists g, spec. do 4 (split; [assumption|]). split; assumption.
    + unfold _update_for_game_step in Hu.
      destruct (current_game env) as [game|] eqn:Hg; [|discriminate].
      destruct (extrinsic_reward_spec (config env)) as [spec|] eqn:Hspec;
        [|discriminate].
      cbn [mbind option_bind] in Hu. rewrite Hm, Hr in Hu.
      cbn [mbind option_bind] in Hu.
      exists game, spec. do 2 (split; [reflexivity|]).
      destruct (log_heatmaps (config env)).
      * destruct (thing_position game "P") as [pr pc].
        injection Hu as <-. cbn. do 3 (split; [reflexivity|]).
        destruct (coordinate_reward _ _ _ _); reflexivity.
      * injection Hu as <-. cbn. do 3 (split; [reflexivity|]).
        destruct (coordinate_reward _ _ _ _); reflexivity.
Qed.

(** The observation [reset] and [step] hand to the update is the cropped
    observation. *)
Lemma crop_cropped_observation (cfg : Config) (observations : Observation) :
  default observations (crop cfg observations)
  = cropped_observation cfg observations.
Proof.
  unfold crop, cropped_observation.
  destruct (_croppers cfg) as [|cropper croppers]; reflexivity.
Qed.

(** *** [step] and [reset], unfolded *)

Lemma step_inactive (env : PyColabEnv Engine) action randint :
  current_game env = None →
  step env action randint =
  Some (with_game env None (_last_uncropped_observations env)
          (_last_cropped_observations env) None,
        (None, _last_reward env, _game_over env, ∅)).
Proof. intros Hg. unfold step. rewrite Hg. reflexivity. Qed.

(** The object [step] hands to [_update_for_game_step] when a game is
    running. *)
Lemma step_active (env env' : PyColabEnv Engine) action randint game r :
  current_game env = Some game →
  step env action randint = Some (env', r) →
  ∃ env1 env2,
    config env1 = config env ∧
    current_game env1 = Some (play game action).1.1 ∧
    visitation_frequency env1 = visitation_frequency env ∧
    num_obj_eps env1 = num_obj_eps env ∧
    episodes env1 = episodes env ∧
    _update_for_game_step env1
      (default (play game action).1.2
         (crop (config env) (play game action).1.2))
      (play game action).2 randint = Some env2 ∧
    r.1.1.2 = _last_reward env2 ∧
    r.1.2 = _game_over env2 ∧
    config env' = config env2 ∧
    visitation_frequency env' = visitation_frequency env2 ∧
    num_obj_eps env' = num_obj_eps env2 ∧
    episodes env' = episodes env2 ∧
    _last_reward env' = _last_reward env2 ∧
    _game_over env' = _game_over env2 ∧
    current_game env' =
      if bool_decide (_game_over env2 = Some true) then None
      else current_game env2.
Proof.
  intros Hg. unfold step. rewrite Hg.
  destruct (play game action) as [[game' observations] reward]. simpl.
  set (env1 := with_game env (Some game') _ _ _).
  destruct (_update_for_game_step env1 _ reward randint) as [env2|] eqn:Hu;
    [|discriminate].
  cbn [mbind option_bind]. intros [= <- <-].
  exists env1, env2. do 5 (split; [reflexivity|]). split; [exact Hu|].
  simpl. destruct (bool_decide (_game_over env2 = Some true));
    repeat split; reflexivity.
Qed.

(** The object [reset] hands to [_update_for_game_step]. *)
Lemma reset_unfold (env env' : PyColabEnv Engine) game randint st :
  reset env game randint = Some (env', st) →
  ∃ env1,
    config env1 = config env ∧
    current_game env1 = Some (its_showtime game).1.1 ∧
    visitation_frequency env1 = dict_of (objects (config env)) 0 ∧
    num_obj_eps env1 =
      save_metrics (objects (config env)) (visitation_frequency env)
        (num_obj_eps env) ∧
    episodes env1 = episodes env + 1 ∧
    _update_for_game_step env1
      (default (its_showtime game).1.2
         (crop (config env) (its_showtime game).1.2))
      (its_showtime game).2 randint = Some env'.
Proof.
  unfold reset.
  destruct (its_showtime game) as [[game' observations] reward]. simpl.
  set (env1 := mkEnv _ _ _ _ _ _ _ _ _ _ _ _ _ _ _).
  destruct (_update_for_game_step env1 _ reward randint) as [env2|] eqn:Hu;
    [|discriminate].
  cbn [mbind option_bind]. intros [= <- _].
  exists env1. do 5 (split; [reflexivity|]). exact Hu.
Qed.

(** C5. A [step] without a running game returns the state [None], the
    last reward, the last game-over flag and an empty [info], and leaves
    every metric, the episode counter and the heatmap as they were.  After
    a [step] that returns [done] true there is no running game, so the next
    [step] is of this kind. *)
Theorem step_without_game (env : PyColabEnv Engine) (action : Z)
    (randint : nat → nat → nat → Z) :
  (current_game env = None →
   ∃ env',
     step env action randint =
       Some (env', (None, _last_reward env, _game_over env, ∅)) ∧
     current_game env' = None ∧
     visitation_frequency env' = visitation_frequency env ∧
     first_visit_time env' = first_visit_time env ∧
     visitation_entropy env' = visitation_entropy env ∧
     num_obj_eps env' = num_obj_eps env ∧
     episodes env' = episodes env ∧
     heatmap env' = heatmap env) ∧
  (∀ env' st reward info,
     step env action randint = Some (env', (st, reward, Some true, info)) →
     current_game env' = None ∧
     ∀ action' randint', ∃ env'',
       step env' action' randint' = Some (env'', (None, reward, Some true, ∅))).
Proof.
  split.
  - intros Hg. eexists. split; [apply step_inactive, Hg|].
    repeat split; reflexivity.
  - intros env' st reward info Hstep.
    assert (Hfacts : current_game env' = None ∧ _last_reward env' = reward
                     ∧ _game_over env' = Some true).
    { destruct (current_game env) as [game|] eqn:Hg.
      - destruct (step_active _ _ _ _ _ _ Hg Hstep)
          as (env1 & env2 & _ & _ & _ & _ & _ & _ & Hr & Hd & _ & _ & _ & _
              & Hr' & Hd' & Hcur).
        simpl in Hr, Hd. rewrite <- Hd in Hcur, Hd'. rewrite <- Hr in Hr'.
        rewrite bool_decide_eq_true_2 in Hcur by reflexivity.
        split; [exact Hcur|]. split; assumption.
      - rewrite (step_inactive _ _ _ Hg) in Hstep.
        injection Hstep as <- _ Hr Hd _. simpl. repeat split; assumption. }
    destruct Hfacts as (Hcur & Hr & Hd). split; [exact Hcur|].
    intros action' randint'. eexists.
    rewrite (step_inactive _ _ _ Hcur), Hr, Hd. reflexivity.
Qed.

(** *** The configuration never changes *)

Lemma exec_config (env env' : PyColabEnv Engine) op r :
  exec env op = Some (env', r) → config env' = config env.
Proof.
  destruct op as [game randint|action randint]; simpl.
  - destruct (reset env game randint) as [[env1 st]|] eqn:Hr; [|discriminate].
    intros [= <- _]. simpl.
    apply reset_unfold in Hr as (env0 & Hc & _ & _ & _ & _ & Hu).
    apply update_for_game_step_spec in Hu
      as (g & spec & _ & _ & Hc' & _). congruence.
  - destruct (step env action randint) as [[env1 res]|] eqn:Hs; [|discriminate].
    intros [= <- _]. simpl.
    destruct (current_game env) as [game|] eqn:Hg.
    + destruct (step_active _ _ _ _ _ _ Hg Hs)
        as (e1 & e2 & Hc1 & _ & _ & _ & _ & Hu & _ & _ & Hc' & _).
      apply update_for_game_step_spec in Hu as (g & spec & _ & _ & Hc2 & _).
      congruence.
    + rewrite (step_inactive _ _ _ Hg) in Hs. injection Hs as <- _.
      reflexivity.
Qed.

Lemma run_cons (env : PyColabEnv Engine) op ops env2 results :
  run env (op :: ops) = Some (env2, results) →
  ∃ env1 r rs,
    exec env op = Some (env1, r) ∧ run env1 ops = Some (env2, rs) ∧
    results = r :: rs.
Proof.
  simpl. destruct (exec env op) as [[env1 r]|]; [|discriminate].
  cbn [mbind option_bind].
  destruct (run env1 ops) as [[env3 rs]|] eqn:Hrun; [|discriminate].
  cbn [mbind option_bind]. intros [= <- <-].
  exists env1, r, rs. split; [reflexivity|]. split; [exact Hrun|reflexivity].
Qed.

Lemma run_config ops (env env' : PyColabEnv Engine) results :
  run env ops = Some (env', results) → config env' = config env.
Proof.
  revert env results. induction ops as [|op ops IH]; intros env results.
  - intros [= <- _]. reflexivity.
  - intros Hrun. apply run_cons in Hrun as (env1 & r & rs & He & Hr & _).
    rewrite (IH _ _ Hr). eapply exec_config, He.
Qed.

Lemma init_config cfg test_game (env : PyColabEnv Engine) :
  __init__ cfg test_game = Some env →
  0 < max_iterations cfg ∧ config env = cfg ∧ current_game env = None ∧
  visitation_frequency env = dict_of (objects cfg) 0 ∧
  num_obj_eps env = dict_of (objects cfg) 0.
Proof.
  unfold __init__.
  destruct (0 <? max_iterations cfg) eqn:Hmax; [|discriminate]. simpl.
  destruct (extrinsic_reward_spec cfg); [|discriminate]. simpl.
  destruct (its_showtime test_game) as [[g o] r].
  intros [= <-]. simpl. apply Z.ltb_lt in Hmax. repeat split; assumption.
Qed.

(** *** The reward *)

Lemma existsb_false_iff {A} (f : A → bool) (l : list A) :
  existsb f l = false ↔ ∀ x, x ∈ l → f x = false.
Proof.
  induction l as [|a l IH]; simpl.
  - split; [intros _ x Hx; apply elem_of_nil in Hx; destruct Hx|reflexivity].
  - rewrite orb_false_iff, IH. split.
    + intros [Ha Hl] x Hx. apply elem_of_cons in Hx as [->|Hx]; auto.
    + intros Hall. split; [apply Hall; left|].
      intros x Hx. apply Hall. right. exact Hx.
Qed.

Lemma existsb_true_intro {A} (f : A → bool) (l : list A) x :
  x ∈ l → f x = true → existsb f l = true.
Proof.
  intros Hx Hf. destruct (existsb f l) eqn:He; [reflexivity|].
  rewrite (proj1 (existsb_false_iff f l) He x Hx) in Hf. discriminate.
Qed.

Lemma Qpositive_lt (x : Q) : Qpositive x = true ↔ (0 < x)%Q.
Proof.
  unfold Qpositive. rewrite negb_true_iff. split.
  - intros Hle. apply Qnot_le_lt. intros Hx.
    apply Qle_bool_iff in Hx. congruence.
  - intros Hlt. destruct (Qle_bool x 0) eqn:Hle; [|reflexivity].
    apply Qle_bool_iff in Hle. exfalso. apply (Qlt_not_le _ _ Hlt Hle).
Qed.

Lemma Qpositive_le (x : Q) : Qpositive x = false ↔ (x <= 0)%Q.
Proof.
  unfold Qpositive. rewrite negb_false_iff. apply Qle_bool_iff.
Qed.

(** C4 (as amended). The reward a [step] on a running game reports is the
    game's reward, or [default_reward] when the game returned [None],
    except that it is [extrinsic_reward] (2) when that is positive and the
    specified sprite stands on the goal coordinate, and (3) when the goal
    character, a character other than the blank that is listed in
    [state_layer_chars] and in [objects], has a 1 in its layer of the
    cropped observation and either the observation type is ['mask'],
    whatever the sign of [extrinsic_reward], or the observation type is
    ['rgb'] and [extrinsic_reward] is positive.  In every other case the
    game's reward is reported: on the goal coordinate with an
    [extrinsic_reward] that is not positive, with the goal character
    visible and the type ['rgb'] and an [extrinsic_reward] that is not
    positive, with the goal character visible and a type that is neither,
    and when neither the sprite stands on the goal coordinate nor the goal
    character is visible. *)
Theorem step_reward (env env' : PyColabEnv Engine) (action : Z)
    (randint : nat → nat → nat → Z) (game : Engine) (spec : ascii * Goal)
    (st : option StateArray) (reward : option Q) (done : option bool)
    (info : gmap string InfoValue)
    (Hg : current_game env = Some game)
    (Hspec : extrinsic_reward_spec (config env) = Some spec)
    (Hstep : step env action randint = Some (env', (st, reward, done, info))) :
  let cfg := config env in
  let played := play game action in
  let observations := cropped_observation cfg played.1.2 in
  let on_goal := spec.2 = GoalCoord (thing_position played.1.1 spec.1) in
  let goal_visible :=
    ∃ char, spec.2 = GoalChar char ∧ char ∈ state_layer_chars cfg ∧
            char ≠ " "%char ∧ char ∈ objects cfg ∧
            one_in (layers observations !!! char) = true in
  let game_reward := Some (default (default_reward cfg) played.2) in
  let extrinsic := Some (extrinsic_reward cfg) in
  (on_goal → (0 < extrinsic_reward cfg)%Q → reward = extrinsic) ∧
  (on_goal → (extrinsic_reward cfg <= 0)%Q → reward = game_reward) ∧
  (goal_visible → obs_type cfg = "mask" → reward = extrinsic) ∧
  (goal_visible → obs_type cfg = "rgb" → (0 < extrinsic_reward cfg)%Q →
   reward = extrinsic) ∧
  (goal_visible → obs_type cfg = "rgb" → (extrinsic_reward cfg <= 0)%Q →
   reward = game_reward) ∧
  (goal_visible → obs_type cfg ≠ "mask" → obs_type cfg ≠ "rgb" →
   reward = game_reward) ∧
  (¬ on_goal → ¬ goal_visible → reward = game_reward).
Proof.
  intros cfg played observations on_goal goal_visible game_reward extrinsic.
  destruct (step_active _ _ _ _ _ _ Hg Hstep)
    as (e1 & e2 & Hc1 & Hg1 & _ & _ & _ & Hu & Hr & _).
  simpl in Hr. rewrite crop_cropped_observation in Hu.
  fold played in Hu, Hg1. fold cfg in Hu. fold observations in Hu.
  apply update_for_game_step_result in Hu
    as (g & spec' & Hg' & Hspec' & _ & _ & _ & Hrew).
  rewrite Hg1 in Hg'. injection Hg' as <-.
  rewrite Hc1 in Hspec', Hrew. fold cfg in Hspec', Hrew.
  unfold cfg in Hspec' at 1. rewrite Hspec in Hspec'. injection Hspec' as <-.
  rewrite <- Hr in Hrew. clear Hr.
  assert (Hon : goal_is_coord spec.2 (thing_position played.1.1 spec.1) = true
                ↔ on_goal).
  { unfold on_goal, goal_is_coord. destruct spec.2 as [q|ch].
    - rewrite Position_eqb_eq. split; [intros ->; reflexivity|].
      intros [= ->]. reflexivity.
    - split; discriminate. }
  assert (Hcoord : on_goal → _extrinsic_coord_based cfg = true).
  { unfold on_goal, _extrinsic_coord_based, cfg. rewrite Hspec.
    intros ->. reflexivity. }
  assert (Hgoal : ∀ char, is_goal_char cfg char = true ↔ spec.2 = GoalChar char).
  { intros char. unfold is_goal_char, cfg. rewrite Hspec. unfold goal_is_char.
    destruct spec.2 as [p|ch].
    - split; discriminate.
    - rewrite bool_decide_eq_true. split; [intros ->; reflexivity|].
      intros [= ->]. reflexivity. }
  assert (Hchar : ∀ char, spec.2 = GoalChar char →
                          _extrinsic_coord_based cfg = false).
  { intros char Hs. unfold _extrinsic_coord_based, cfg. rewrite Hspec, Hs.
    reflexivity. }
  (* on the goal coordinate neither loop assigns the reward *)
  assert (Hloop_coord : ∀ rewarded,
            rewarded = mask_rewarded cfg ∨ rewarded = rgb_rewarded cfg →
            _extrinsic_coord_based cfg = true →
            existsb (λ char, tracked cfg observations char && rewarded char)
              (state_layer_chars cfg) = false).
  { intros rewarded Hwhich Hcb. apply existsb_false_iff. intros char _.
    destruct Hwhich as [-> | ->]; unfold mask_rewarded, rgb_rewarded;
      rewrite Hcb; cbn [negb andb]; rewrite ?andb_false_r; reflexivity. }
  (* a visible goal character is met by the loop *)
  assert (Hloop_seen : ∀ rewarded char,
            spec.2 = GoalChar char → char ∈ state_layer_chars cfg →
            char ≠ " "%char → char ∈ objects cfg →
            one_in (layers observations !!! char) = true →
            rewarded char = true →
            existsb (λ char, tracked cfg observations char && rewarded char)
              (state_layer_chars cfg) = true).
  { intros rewarded char Hs Hin Hnb Hobj Hone Hrw.
    apply (existsb_true_intro _ _ char Hin).
    apply andb_true_iff. split; [|exact Hrw].
    unfold tracked. rewrite !bool_decide_eq_true_2 by assumption.
    exact Hone. }
  (* without a visible goal character neither loop assigns the reward *)
  assert (Hloop_hidden : ∀ rewarded,
            rewarded = mask_rewarded cfg ∨ rewarded = rgb_rewarded cfg →
            ¬ goal_visible →
            existsb (λ char, tracked cfg observations char && rewarded char)
              (state_layer_chars cfg) = false).
  { intros rewarded Hwhich Hhid. apply existsb_false_iff. intros char Hin.
    destruct (tracked cfg observations char && rewarded char) eqn:Hb;
      [|reflexivity].
    exfalso. apply Hhid. apply andb_true_iff in Hb as [Ht Hw].
    unfold tracked in Ht.
    apply andb_true_iff in Ht as [Ht Hone].
    apply andb_true_iff in Ht as [Hnb Hobj].
    apply bool_decide_eq_true in Hnb, Hobj.
    assert (Hgc : is_goal_char cfg char = true).
    { destruct Hwhich as [-> | ->]; unfold mask_rewarded, rgb_rewarded in Hw;
        repeat (apply andb_true_iff in Hw as [Hw ?]); assumption. }
    exists char. split; [apply Hgoal, Hgc|]. repeat split; assumption. }
  assert (Hpass_char : ∀ char, spec.2 = GoalChar char →
            coordinate_reward cfg played.1.1 spec played.2 = played.2).
  { intros char Hs. unfold coordinate_reward.
    rewrite (Hchar _ Hs), andb_false_r. reflexivity. }
  split; [|split; [|split; [|split; [|split; [|split]]]]].
  - (* on the goal coordinate, positive *)
    intros Hgoal_on Hpos. apply Qpositive_lt in Hpos. rewrite Hrew.
    rewrite (Hloop_coord (mask_rewarded cfg) (or_introl eq_refl)
               (Hcoord Hgoal_on)).
    rewrite (Hloop_coord (rgb_rewarded cfg) (or_intror eq_refl)
               (Hcoord Hgoal_on)).
    replace (if String.eqb (obs_type cfg) "mask" then false
             else if String.eqb (obs_type cfg) "rgb" then false else false)
      with false by (repeat destruct (String.eqb _ _); reflexivity).
    unfold coordinate_reward. rewrite Hpos, (Hcoord Hgoal_on).
    cbn [andb]. rewrite (proj2 Hon Hgoal_on). reflexivity.
  - (* on the goal coordinate, not positive *)
    intros Hgoal_on Hneg. apply Qpositive_le in Hneg. rewrite Hrew.
    rewrite (Hloop_coord (mask_rewarded cfg) (or_introl eq_refl)
               (Hcoord Hgoal_on)).
    rewrite (Hloop_coord (rgb_rewarded cfg) (or_intror eq_refl)
               (Hcoord Hgoal_on)).
    replace (if String.eqb (obs_type cfg) "mask" then false
             else if String.eqb (obs_type cfg) "rgb" then false else false)
      with false by (repeat destruct (String.eqb _ _); reflexivity).
    unfold coordinate_reward. rewrite Hneg. reflexivity.
  - (* the goal character in view, masks *)
    intros (char & Hs & Hin & Hnb & Hobj & Hone) Hm. rewrite Hrew, Hm.
    cbn [String.eqb Ascii.eqb Bool.eqb andb].
    rewrite (Hloop_seen (mask_rewarded cfg) char Hs Hin Hnb Hobj Hone);
      [reflexivity|].
    unfold mask_rewarded.
    rewrite (Hchar _ Hs), (proj2 (Hgoal char) Hs). reflexivity.
  - (* the goal character in view, RGB, positive *)
    intros (char & Hs & Hin & Hnb & Hobj & Hone) Hrgb Hpos.
    apply Qpositive_lt in Hpos. rewrite Hrew, Hrgb.
    cbn [String.eqb Ascii.eqb Bool.eqb andb].
    rewrite (Hloop_seen (rgb_rewarded cfg) char Hs Hin Hnb Hobj Hone);
      [reflexivity|].
    unfold rgb_rewarded.
    rewrite Hpos, (Hchar _ Hs), (proj2 (Hgoal char) Hs). reflexivity.
  - (* the goal character in view, RGB, not positive *)
    intros (char & Hs & Hin & Hnb & Hobj & Hone) Hrgb Hneg.
    apply Qpositive_le in Hneg. rewrite Hrew, Hrgb.
    cbn [String.eqb Ascii.eqb Bool.eqb andb].
    assert (Hnone : existsb (λ char, tracked cfg observations char
                                     && rgb_rewarded cfg char)
                      (state_layer_chars cfg) = false).
    { apply existsb_false_iff. intros char' _.
      unfold rgb_rewarded. rewrite Hneg, andb_false_r. reflexivity. }
    rewrite Hnone, (Hpass_char _ Hs). reflexivity.
  - (* the goal character in view, another observation type *)
    intros (char & Hs & Hin & Hnb & Hobj & Hone) Hnm Hnr.
    apply String.eqb_neq in Hnm, Hnr. rewrite Hrew, Hnm, Hnr.
    rewrite (Hpass_char _ Hs). reflexivity.
  - (* neither *)
    intros Hoff Hhid. rewrite Hrew.
    rewrite (Hloop_hidden (mask_rewarded cfg) (or_introl eq_refl) Hhid).
    rewrite (Hloop_hidden (rgb_rewarded cfg) (or_intror eq_refl) Hhid).
    replace (if String.eqb (obs_type cfg) "mask" then false
             else if String.eqb (obs_type cfg) "rgb" then false else false)
      with false by (repeat destruct (String.eqb _ _); reflexivity).
    unfold coordinate_reward, game_reward.
    destruct (Qpositive _ && _); [|reflexivity].
    destruct (goal_is_coord spec.2 (thing_position played.1.1 spec.1));
      [|reflexivity].
    exfalso. apply Hoff, Hon. reflexivity.
Qed.

(** *** The visitation counters *)

Lemma times_listed_nonneg c chars : 0 ≤ times_listed c chars.
Proof. unfold times_listed. lia. Qed.

Lemma times_listed_cons c char chars :
  times_listed c (char :: chars) =
  (if bool_decide (char = c) then 1 else 0) + times_listed c chars.
Proof.
  unfold times_listed. rewrite filter_cons.
  case_bool_decide as Hc.
  - rewrite decide_True by exact Hc. simpl length. lia.
  - rewrite decide_False by exact Hc. lia.
Qed.

Lemma times_listed_absent c chars : c ∉ chars → times_listed c chars = 0.
Proof.
  induction chars as [|char chars IH]; intros Hnotin; [reflexivity|].
  apply not_elem_of_cons in Hnotin as [Hne Hnotin].
  rewrite times_listed_cons, (IH Hnotin).
  rewrite bool_decide_eq_false_2 by congruence. reflexivity.
Qed.

Lemma times_listed_once c chars :
  c ∈ chars → NoDup chars → times_listed c chars = 1.
Proof.
  induction chars as [|char chars IH]; intros Hin Hnd.
  - apply elem_of_nil in Hin. destruct Hin.
  - apply NoDup_cons in Hnd as [Hnotin Hnd]. rewrite times_listed_cons.
    case_bool_decide as Hc.
    + subst char. rewrite (times_listed_absent _ _ Hnotin). reflexivity.
    + apply elem_of_cons in Hin as [->|Hin]; [congruence|].
      rewrite (IH Hin Hnd). reflexivity.
Qed.

Lemma visit_weight_nonneg cfg c : 0 ≤ visit_weight cfg c.
Proof.
  unfold visit_weight. destruct (_ || _); [|reflexivity].
  case_bool_decide; [reflexivity|apply times_listed_nonneg].
Qed.

(** The loop over the state layers adds one to the count of [c] every time
    it meets [c], provided [c] is tracked. *)
Lemma count_visits_listed cfg observations (vf : gmap ascii Z) chars c :
  count_visits cfg observations vf chars !! c =
  (λ n, n + Z.b2z (tracked cfg observations c) * times_listed c chars)
    <$> vf !! c.
Proof.
  unfold count_visits. revert vf.
  induction chars as [|char chars IH]; intros vf.
  - cbn [foldl]. change (times_listed c []) with 0.
    destruct (vf !! c) as [n|]; [|reflexivity].
    cbn. f_equal. lia.
  - cbn [foldl]. rewrite IH, times_listed_cons.
    case_bool_decide as Hc.
    + subst char. destruct (tracked cfg observations c).
      * rewrite lookup_alter_eq. destruct (vf !! c) as [n|]; [|reflexivity].
        cbn. f_equal. lia.
      * destruct (vf !! c) as [n|]; [|reflexivity]. cbn. f_equal.
    + assert (Hlk : (if tracked cfg observations char
                     then alter Z.succ char vf else vf) !! c = vf !! c).
      { destruct (tracked cfg observations char); [|reflexivity].
        apply lookup_alter_ne. exact Hc. }
      rewrite Hlk. destruct (vf !! c) as [n|]; [|reflexivity].
      cbn. f_equal.
Qed.

(** The loop of [reset] over the objects adds one to the episodes of [c]
    every time it meets [c], provided [c] was visited. *)
Lemma save_metrics_listed objs (vf num : gmap ascii Z) c :
  save_metrics objs vf num !! c =
  (λ m, m + if 0 <? vf !!! c then times_listed c objs else 0) <$> num !! c.
Proof.
  unfold save_metrics. revert num.
  induction objs as [|char objs IH]; intros num.
  - cbn [foldl]. change (times_listed c []) with 0.
    destruct (num !! c) as [m|]; [|reflexivity].
    cbn. f_equal. destruct (0 <? vf !!! c); lia.
  - cbn [foldl]. rewrite IH, times_listed_cons.
    case_bool_decide as Hc.
    + subst char. destruct (0 <? vf !!! c).
      * rewrite lookup_alter_eq. destruct (num !! c) as [m|]; [|reflexivity].
        cbn. f_equal. lia.
      * reflexivity.
    + assert (Hlk : (if 0 <? vf !!! char then alter Z.succ char num else num)
                    !! c = num !! c).
      { destruct (0 <? vf !!! char); [|reflexivity].
        apply lookup_alter_ne. exact Hc. }
      rewrite Hlk. reflexivity.
Qed.

Section Counters.
Variable cfg : Config.
Variable c : ascii.
Hypothesis c_object : c ∈ objects cfg.

(** One update adds to the count of [c], when [c] is visible in the
    observation, what the loop over the state layers makes of it. *)
Lemma update_counts (env env' : PyColabEnv Engine) observations reward rnd n :
  config env = cfg →
  visitation_frequency env !! c = Some n →
  _update_for_game_step env observations reward rnd = Some env' →
  visitation_frequency env' !! c =
    Some (n + visit_weight cfg c * Z.b2z (visible c (Some observations))) ∧
  num_obj_eps env' = num_obj_eps env ∧ config env' = cfg.
Proof.
  intros Hcfg Hn Hu.
  apply update_for_game_step_result in Hu
    as (g & spec & _ & _ & Hc' & Hnum & Hvf & _).
  rewrite Hcfg in Hvf, Hc'. split; [|split; assumption].
  rewrite Hvf. unfold visit_weight.
  destruct (String.eqb (obs_type cfg) "mask" || String.eqb (obs_type cfg) "rgb").
  - rewrite count_visits_listed, Hn. cbn [fmap option_fmap option_map].
    f_equal. unfold tracked, visible.
    rewrite (bool_decide_eq_true_2 _ c_object), andb_true_r.
    destruct (decide (c = " "%char)) as [Hblank|Hblank].
    + rewrite (bool_decide_eq_true_2 (c = " "%char)) by exact Hblank.
      rewrite bool_decide_eq_false_2 by (intros Hne; apply Hne, Hblank).
      cbn. lia.
    + rewrite (bool_decide_eq_false_2 (c = " "%char)) by exact Hblank.
      rewrite bool_decide_eq_true_2 by exact Hblank. cbn [andb]. lia.
  - rewrite Hn. f_equal. lia.
Qed.

Lemma exec_counts (env env' : PyColabEnv Engine) op r n m :
  config env = cfg →
  visitation_frequency env !! c = Some n →
  num_obj_eps env !! c = Some m →
  exec env op = Some (env', r) →
  visitation_frequency env' !! c =
    Some ((if is_reset op then 0 else n)
          + visit_weight cfg c * Z.b2z (visible c (processed env op))) ∧
  num_obj_eps env' !! c =
    Some (m + if is_reset op && (0 <? n)
              then times_listed c (objects cfg) else 0) ∧
  config env' = cfg.
Proof.
  intros Hcfg Hn Hm He.
  destruct op as [game rnd|action rnd]; simpl in He |- *.
  - destruct (reset env game rnd) as [[env1 st]|] eqn:Hr; [|discriminate].
    injection He as <- _.
    apply reset_unfold in Hr as (e1 & Hc1 & _ & Hvf1 & Hnum1 & _ & Hu).
    rewrite crop_cropped_observation in Hu.
    rewrite Hcfg in Hc1, Hvf1, Hnum1, Hu.
    eapply (update_counts e1 env1 _ _ _ 0) in Hu as (Hvf & Hnum & Hc');
      [|exact Hc1|rewrite Hvf1; apply dict_of_lookup, c_object].
    rewrite Hcfg. split; [exact Hvf|]. split; [|exact Hc'].
    rewrite Hnum, Hnum1, save_metrics_listed, Hm.
    rewrite (lookup_total_correct _ _ _ Hn). reflexivity.
  - destruct (step env action rnd) as [[env1 res]|] eqn:Hs; [|discriminate].
    injection He as <- _.
    destruct (current_game env) as [game|] eqn:Hg.
    + destruct (step_active _ _ _ _ _ _ Hg Hs)
        as (e1 & e2 & Hc1 & _ & Hvf1 & Hnum1 & _ & Hu & _ & _ & Hc' & Hvf' & Hnum'
            & _).
      rewrite crop_cropped_observation in Hu.
      rewrite Hcfg in Hc1, Hu.
      eapply (update_counts e1 e2 _ _ _ n) in Hu as (Hvf & Hnum & Hc2);
        [|exact Hc1|rewrite Hvf1; exact Hn].
      rewrite Hcfg, Hvf', Hnum', Hnum, Hnum1, Hm, Hc', Hc2.
      split; [exact Hvf|]. split; [f_equal; lia|reflexivity].
    + rewrite (step_inactive _ _ _ Hg) in Hs. injection Hs as <- _. simpl.
      rewrite Hn, Hm. repeat split; [f_equal; lia|f_equal; lia|exact Hcfg].
Qed.

Lemma run_counts ops :
  ∀ (env env' : PyColabEnv Engine) results cur m,
    config env = cfg →
    visitation_frequency env !! c
      = Some (visit_weight cfg c * visits c cur) →
    num_obj_eps env !! c = Some m →
    run env ops = Some (env', results) →
    visitation_frequency env' !! c =
      Some (visit_weight cfg c
            * visits c (current_episode (episodes_of (history env ops) cur))) ∧
    num_obj_eps env' !! c =
      Some (m + if 0 <? visit_weight cfg c
                then times_listed c (objects cfg)
                     * episodes_visited c (episodes_of (history env ops) cur)
                else 0).
Proof.
  pose proof (visit_weight_nonneg cfg c) as Hw.
  induction ops as [|op ops IH]; intros env env' results cur m Hcfg Hvf Hnum Hrun.
  - injection Hrun as <- _. simpl. unfold episodes_visited. simpl.
    split; [exact Hvf|]. rewrite Hnum. f_equal.
    destruct (0 <? visit_weight cfg c); lia.
  - apply run_cons in Hrun as (env1 & r & rs & He & Hr & _).
    destruct (exec_counts _ _ _ _ _ _ Hcfg Hvf Hnum He) as (Hvf1 & Hnum1 & Hcfg1).
    cbn [history]. rewrite He.
    destruct op as [game rnd|action rnd]; cbn [is_reset] in *.
    + cbn [episodes_of].
      rewrite current_episode_cons, episodes_visited_cons
        by apply episodes_of_nonempty.
      rewrite Z.add_0_l, <- visits_singleton in Hvf1.
      destruct (IH env1 env' rs _ _ Hcfg1 Hvf1 Hnum1 Hr) as [Hv Hn].
      split; [exact Hv|]. rewrite Hn. f_equal. cbn [andb].
      pose proof (visits_nonneg c cur) as Hcur.
      destruct (Z.ltb_spec 0 (visit_weight cfg c)) as [Hpos|Hzero].
      * destruct (Z.ltb_spec 0 (visits c cur)) as [Hv1|Hv1].
        -- rewrite (proj2 (Z.ltb_lt 0 _)) by nia. lia.
        -- rewrite (proj2 (Z.ltb_ge 0 _)) by nia. lia.
      * rewrite (proj2 (Z.ltb_ge 0 _)) by nia. lia.
    + cbn [episodes_of].
      rewrite <- Z.mul_add_distr_l, <- visits_snoc in Hvf1.
      simpl in Hnum1. rewrite Z.add_0_r in Hnum1.
      apply (IH env1 env' rs _ _ Hcfg1 Hvf1 Hnum1 Hr).
Qed.

End Counters.

(** C7 (as amended). In every history of [reset] and [step] calls on a
    constructed environment, and for every object character [c]: the
    visitation count of [c] is [k] times the number of updates of the
    episode in progress, the one made by [reset] included, in which [c]'s
    layer contained a 1 in the cropped observation, where [k] is the
    number of times [c] is listed in [state_layer_chars] (none for the
    blank, and none with an observation type other than ['mask'] and
    ['rgb']); the count starts again at every [reset]; and [num_obj_eps]
    of [c] gains at every [reset] that ends an episode with a positive
    count the number of times [c] is listed in [objects].  So for a [c]
    other than the blank that is listed once in each list, and either
    supported observation type, the count is the number of those updates
    and [num_obj_eps] the number of ended episodes in which [c] was
    visited. *)
Theorem visitation_counters (cfg : Config) (c : ascii) (test_game : Engine)
    (env0 env : PyColabEnv Engine) (ops : list (Op Engine))
    (results : list (option StepResult))
    (c_object : c ∈ objects cfg)
    (Hinit : __init__ cfg test_game = Some env0)
    (Hrun : run env0 ops = Some (env, results)) :
  let eps := episodes_of (history env0 ops) [] in
  let k := visit_weight cfg c in
  let j := times_listed c (objects cfg) in
  visitation_frequency env !! c = Some (k * visits c (current_episode eps)) ∧
  num_obj_eps env !! c =
    Some (if 0 <? k then j * episodes_visited c eps else 0) ∧
  (∀ game randint env' st n m,
     visitation_frequency env !! c = Some n →
     num_obj_eps env !! c = Some m →
     reset env game randint = Some (env', st) →
     visitation_frequency env' !! c =
       Some (0 + k * Z.b2z (visible c (processed env (OpReset game randint)))) ∧
     num_obj_eps env' !! c = Some (m + if 0 <? n then j else 0)) ∧
  (NoDup (objects cfg) → j = 1) ∧
  (c ≠ " "%char → c ∈ state_layer_chars cfg →
   NoDup (state_layer_chars cfg) →
   obs_type cfg = "mask" ∨ obs_type cfg = "rgb" →
   k = 1) ∧
  (c ∉ state_layer_chars cfg ∨ c = " "%char ∨
   (obs_type cfg ≠ "mask" ∧ obs_type cfg ≠ "rgb") →
   k = 0) ∧
  (k = 1 → j = 1 →
   visitation_frequency env !! c = Some (visits c (current_episode eps)) ∧
   num_obj_eps env !! c = Some (episodes_visited c eps)).
Proof.
  intros eps k j.
  destruct (init_config _ _ _ Hinit) as (_ & Hcfg0 & _ & Hvf0 & Hnum0).
  assert (Hv0 : visitation_frequency env0 !! c = Some (k * visits c [])).
  { rewrite Hvf0, Z.mul_0_r. apply dict_of_lookup, c_object. }
  assert (Hn0 : num_obj_eps env0 !! c = Some 0).
  { rewrite Hnum0. apply dict_of_lookup, c_object. }
  destruct (run_counts cfg c c_object ops env0 env results [] 0 Hcfg0 Hv0 Hn0
              Hrun) as [Hv Hn].
  fold eps k j in Hv, Hn. rewrite Z.add_0_l in Hn.
  split; [exact Hv|]. split; [exact Hn|].
  split; [|split; [|split; [|split]]].
  - intros game randint env' st n m Hvn Hnm Hreset.
    assert (Hcfg : config env = cfg).
    { rewrite (run_config _ _ _ _ Hrun). exact Hcfg0. }
    assert (He : exec env (OpReset game randint) = Some (env', None)).
    { simpl. rewrite Hreset. reflexivity. }
    destruct (exec_counts cfg c c_object env env' _ _ n m Hcfg Hvn Hnm He)
      as (Hv' & Hn' & _).
    split; [exact Hv'|exact Hn'].
  - intros Hnd. apply times_listed_once; assumption.
  - intros Hblank Hin Hnd Hobs. unfold k, visit_weight.
    assert (Hsup : String.eqb (obs_type cfg) "mask"
                   || String.eqb (obs_type cfg) "rgb" = true).
    { destruct Hobs as [-> | ->]; reflexivity. }
    rewrite Hsup, bool_decide_eq_false_2 by exact Hblank.
    apply times_listed_once; assumption.
  - intros Hout. unfold k, visit_weight.
    destruct (String.eqb (obs_type cfg) "mask") eqn:Hm;
      destruct (String.eqb (obs_type cfg) "rgb") eqn:Hr; cbn [orb];
      try (case_bool_decide as Hblank; [reflexivity|];
           destruct Hout as [Hnotin|[Hb|[Hnm Hnr]]];
           [apply times_listed_absent, Hnotin
           |contradiction
           |apply String.eqb_eq in Hm || apply String.eqb_eq in Hr;
            contradiction]).
    reflexivity.
  - intros Hk Hj. rewrite Hv, Hn, Hk, Hj. rewrite !Z.mul_1_l.
    split; reflexivity.
Qed.

(** *** Episodes end *)

Section Frames.
(** pycolab's frame counter: 0 once [its_showtime] has run, one more after
    every [play]. *)
Hypothesis frame_its_showtime : ∀ game, frame (its_showtime game).1.1 = 0.
Hypothesis frame_play :
  ∀ game action, frame (play game action).1.1 = frame game + 1.

Lemma steps_reach_done ops :
  ∀ (env env2 : PyColabEnv Engine) game results,
    Forall (λ op, is_reset op = false) ops →
    current_game env = Some game →
    frame game < max_iterations (config env) →
    max_iterations (config env) - frame game ≤ Z.of_nat (length ops) →
    run env ops = Some (env2, results) →
    ∃ i r, results !! i = Some r ∧ returned_done r = true ∧
           Z.of_nat i < max_iterations (config env) - frame game.
Proof.
  induction ops as [|op ops IH]; intros env env2 game results Hops Hg Hlt Hlen Hrun.
  - simpl in Hlen. lia.
  - apply run_cons in Hrun as (env1 & r & rs & He & Hr & ->).
    apply Forall_cons in Hops as [Hop Hops].
    destruct op as [g0 rnd|action rnd]; [discriminate|]. simpl in He.
    destruct (step env action rnd) as [[env' res]|] eqn:Hs; [|discriminate].
    injection He as <- <-.
    destruct (step_active _ _ _ _ _ _ Hg Hs)
      as (e1 & e2 & Hc1 & Hg1 & _ & _ & _ & Hu & _ & Hd & Hc' & _ & _ & _ & _
          & _ & Hcur).
    apply update_for_game_step_spec in Hu
      as (g & spec & Hg1' & _ & Hc2 & Hg2 & _ & _ & _ & _ & Hover & _).
    rewrite Hg1 in Hg1'. injection Hg1' as <-.
    rewrite Hover in Hd, Hcur. rewrite Hc1 in Hover, Hd, Hcur.
    unfold game_over_now in Hd, Hcur. rewrite frame_play in Hd, Hcur.
    destruct (bool_decide (max_iterations (config env) ≤ frame game + 1))
      eqn:Hmax.
    + exists 0%nat, (Some res). split; [reflexivity|]. split; [|lia].
      destruct res as [[[st rew] done] info]. simpl in Hd. subst done.
      reflexivity.
    + apply bool_decide_eq_false in Hmax.
      destruct (game_over (play game action).1.1) eqn:Hgo.
      * exists 0%nat, (Some res). split; [reflexivity|]. split; [|lia].
        destruct res as [[[st rew] done] info]. simpl in Hd. subst done.
        reflexivity.
      * rewrite bool_decide_eq_false_2 in Hcur by discriminate.
        rewrite Hg2, Hg1 in Hcur.
        assert (Hcfg : config env' = config env) by congruence.
        destruct (IH env' env2 (play game action).1.1 rs Hops Hcur)
          as (i & r & Hi & Hr' & Hb).
        { rewrite Hcfg, frame_play. lia. }
        { rewrite Hcfg, frame_play. simpl in Hlen. lia. }
        { exact Hr. }
        exists (S i), r. split; [exact Hi|]. split; [exact Hr'|].
        rewrite Hcfg, frame_play in Hb. lia.
Qed.

(** C10. The constructor only succeeds when [max_iterations] is positive;
    an update made once the frame counter has reached [max_iterations] sets
    the game-over flag, whatever the game says; hence, in any history of
    the environment, one of the first [max_iterations] steps that follow a
    [reset] returns [done] true. *)
Theorem episodes_are_bounded (cfg : Config) (test_game game : Engine)
    (env0 env env1 env2 : PyColabEnv Engine) (before steps : list (Op Engine))
    (randint : nat → nat → nat → Z) (rs results : list (option StepResult))
    (st : option StateArray)
    (Hinit : __init__ cfg test_game = Some env0)
    (Hbefore : run env0 before = Some (env, rs))
    (Hreset : reset env game randint = Some (env1, st))
    (Hsteps : Forall (λ op, is_reset op = false) steps)
    (Hlen : max_iterations cfg ≤ Z.of_nat (length steps))
    (Hrun : run env1 steps = Some (env2, results)) :
  0 < max_iterations cfg ∧
  (∀ (e e' : PyColabEnv Engine) g observations reward rnd,
     config e = cfg → current_game e = Some g →
     max_iterations cfg ≤ frame g →
     _update_for_game_step e observations reward rnd = Some e' →
     _game_over e' = Some true) ∧
  ∃ i r, results !! i = Some r ∧ returned_done r = true ∧
         Z.of_nat i < max_iterations cfg.
Proof.
  destruct (init_config _ _ _ Hinit) as (Hmax & Hcfg0 & _).
  assert (Hcfg : config env = cfg).
  { rewrite (run_config _ _ _ _ Hbefore). exact Hcfg0. }
  split; [exact Hmax|]. split.
  - intros e e' g observations reward rnd He Hg Hfr Hu.
    apply update_for_game_step_spec in Hu
      as (g' & spec & Hg' & _ & _ & _ & _ & _ & _ & _ & Hover & _).
    rewrite Hg in Hg'. injection Hg' as <-. rewrite Hover. f_equal.
    unfold game_over_now. rewrite He, bool_decide_eq_true_2 by exact Hfr.
    reflexivity.
  - apply reset_unfold in Hreset as (e1 & Hc1 & Hg1 & _ & _ & _ & Hu).
    apply update_for_game_step_spec in Hu
      as (g' & spec & _ & _ & Hc2 & Hg2 & _).
    assert (Hcfg1 : config env1 = cfg) by congruence.
    rewrite Hg1 in Hg2.
    destruct (steps_reach_done steps env1 env2 _ results Hsteps Hg2)
      as (i & r & Hi & Hr & Hb).
    + rewrite Hcfg1, frame_its_showtime. exact Hmax.
    + rewrite Hcfg1, frame_its_showtime. lia.
    + exact Hrun.
    + exists i, r. split; [exact Hi|]. split; [exact Hr|].
      rewrite Hcfg1, frame_its_showtime in Hb. lia.
Qed.

End Frames.

Lemma scan_layer_masks cfg observations rewarded reward vf st char :
  (scan_layer cfg observations rewarded (reward, vf, st) char).2 =
  if bool_decide (char ≠ " "%char)
  then st ++ [layers observations !!! char] else st.
Proof.
  unfold scan_layer.
  destruct (bool_decide (char ≠ " "%char)); [|reflexivity].
  destruct (bool_decide (char ∈ objects cfg) && _); reflexivity.
Qed.

Lemma scan_fold_masks cfg observations rewarded chars acc :
  (foldl (scan_layer cfg observations rewarded) acc chars).2 =
  acc.2 ++ ((λ char, layers observations !!! char)
              <$> filter (λ char, char ≠ " "%char) chars).
Proof.
  revert acc. induction chars as [|char chars IH]; intros [[reward vf] st].
  - simpl. rewrite app_nil_r. reflexivity.
  - cbn [foldl]. rewrite IH, scan_layer_masks, filter_cons. simpl.
    case_bool_decide as Hc.
    + rewrite decide_True by exact Hc. rewrite fmap_cons, <- app_assoc.
      reflexivity.
    + rewrite decide_False by (intros Hne; apply Hne, Hc). reflexivity.
Qed.

(** *** The keys and the sign of the counters *)

Lemma dict_of_dom chars v : dom (dict_of chars v) = list_to_set chars.
Proof.
  unfold dict_of. rewrite dom_list_to_map_L, <- list_fmap_compose.
  f_equal. induction chars as [|c chars IH]; [reflexivity|].
  simpl. f_equal. exact IH.
Qed.

Lemma count_visits_dom cfg observations (vf : gmap ascii Z) chars :
  dom (count_visits cfg observations vf chars) = dom vf.
Proof.
  unfold count_visits. revert vf.
  induction chars as [|char chars IH]; intros vf; [reflexivity|].
  simpl. rewrite IH. destruct (tracked cfg observations char); [|reflexivity].
  apply dom_alter_L.
Qed.

Lemma save_metrics_dom objs (vf num : gmap ascii Z) :
  dom (save_metrics objs vf num) = dom num.
Proof.
  unfold save_metrics. revert num.
  induction objs as [|char objs IH]; intros num; [reflexivity|].
  simpl. rewrite IH. destruct (0 <? vf !!! char); [|reflexivity].
  apply dom_alter_L.
Qed.

Lemma alter_succ_counts (m : gmap ascii Z) char :
  counts m → counts (alter Z.succ char m).
Proof.
  intros Hm c n. destruct (decide (c = char)) as [->|Hne].
  - rewrite lookup_alter_eq. destruct (m !! char) as [k|] eqn:Hk; [|discriminate].
    intros [= <-]. specialize (Hm _ _ Hk). lia.
  - rewrite lookup_alter_ne by congruence. apply Hm.
Qed.

Lemma count_visits_counts cfg observations (vf : gmap ascii Z) chars :
  counts vf → counts (count_visits cfg observations vf chars).
Proof.
  unfold count_visits. revert vf.
  induction chars as [|char chars IH]; intros vf Hvf; [exact Hvf|].
  simpl. apply IH. destruct (tracked cfg observations char); [|exact Hvf].
  apply alter_succ_counts, Hvf.
Qed.

Lemma save_metrics_counts objs (vf num : gmap ascii Z) :
  counts num → counts (save_metrics objs vf num).
Proof.
  unfold save_metrics. revert num.
  induction objs as [|char objs IH]; intros num Hnum; [exact Hnum|].
  simpl. apply IH. destruct (0 <? vf !!! char); [|exact Hnum].
  apply alter_succ_counts, Hnum.
Qed.

Lemma dict_of_counts chars v : 0 ≤ v → counts (dict_of chars v).
Proof.
  intros Hv c n Hc.
  destruct (decide (c ∈ chars)) as [Hin|Hout].
  - rewrite (dict_of_lookup _ v _ Hin) in Hc. injection Hc as <-. exact Hv.
  - exfalso. apply Hout.
    rewrite <- (elem_of_list_to_set (C := gset ascii)), <- (dict_of_dom _ v).
    apply elem_of_dom. eexists. exact Hc.
Qed.

Lemma update_for_game_step_fields (env env' : PyColabEnv Engine)
    observations reward randint :
  _update_for_game_step env observations reward randint = Some env' →
  ∃ game,
    current_game env = Some game ∧
    config env' = config env ∧
    _render_order env' = _render_order env ∧
    _colors env' = _colors env ∧
    first_visit_time env' = first_visit_time env ∧
    num_obj_eps env' = num_obj_eps env ∧
    episodes env' = episodes env ∧
    visitation_frequency env' =
      (if String.eqb (obs_type (config env)) "mask"
          || String.eqb (obs_type (config env)) "rgb"
       then count_visits (config env) observations (visitation_frequency env)
              (state_layer_chars (config env))
       else visitation_frequency env) ∧
    heatmap env' =
      (if log_heatmaps (config env)
       then alter (alter Z.succ (Z.to_nat (thing_position game "P").2))
              (Z.to_nat (thing_position game "P").1) (heatmap env)
       else heatmap env) ∧
    visitation_entropy env' =
      (if log_heatmaps (config env)
       then entropy (concat (heatmap env')) (visitable_states (config env))
       else visitation_entropy env) ∧
    _state env' =
      (if String.eqb (obs_type (config env)) "mask" then
         Some (MaskState
                 ((λ char, layers observations !!! char)
                    <$> filter (λ char, char ≠ " "%char)
                          (state_layer_chars (config env))))
       else if String.eqb (obs_type (config env)) "rgb" then
         (λ img, RgbState (resize (resize_scale (config env)) img))
           <$> _paint_board env (layers observations) true randint
       else _state env).
Proof.
  unfold _update_for_game_step. intros Hu.
  destruct (current_game env) as [game|] eqn:Hg; [|discriminate].
  destruct (extrinsic_reward_spec (config env)) as [spec|] eqn:Hspec;
    [|discriminate].
  cbn [mbind option_bind] in Hu. exists game. split; [reflexivity|].
  set (r1 := coordinate_reward (config env) game spec reward) in *.
  destruct (thing_position game "P") as [pr pc] eqn:HP. cbn [fst snd].
  destruct (String.eqb (obs_type (config env)) "mask") eqn:Hm.
  - pose proof (scan_fold_masks (config env) observations
                  (mask_rewarded (config env))
                  (state_layer_chars (config env))
                  (r1, visitation_frequency env, [])) as Hf.
    pose proof (scan_fold (config env) observations
                  (mask_rewarded (config env))
                  (state_layer_chars (config env)) r1
                  (visitation_frequency env) []) as Hv.
    destruct (foldl _ _ _) as [[r2 vf] masks]. simpl in Hf, Hv. subst masks.
    injection Hv as _ ->.
    cbn [mbind option_bind] in Hu.
    destruct (log_heatmaps (config env)); injection Hu as <-; simpl;
      repeat split; reflexivity.
  - destruct (String.eqb (obs_type (config env)) "rgb") eqn:Hr.
    + destruct (_paint_board env (layers observations) true randint)
        as [img|]; [|discriminate].
      cbn [mbind option_bind] in Hu.
      pose proof (scan_fold (config env) observations
                    (rgb_rewarded (config env))
                    (state_layer_chars (config env)) r1
                    (visitation_frequency env) []) as Hv.
      destruct (foldl _ _ _) as [[r2 vf] masks]. simpl in Hv.
      injection Hv as _ ->.
      cbn [mbind option_bind] in Hu.
      destruct (log_heatmaps (config env)); injection Hu as <-; simpl;
        repeat split; reflexivity.
    + cbn [mbind option_bind] in Hu.
      destruct (log_heatmaps (config env)); injection Hu as <-; simpl;
        repeat split; reflexivity.
Qed.

Lemma update_rgb_painted (env env' : PyColabEnv Engine)
    observations reward randint :
  _update_for_game_step env observations reward randint = Some env' →
  obs_type (config env) = "rgb"%string →
  is_Some (_paint_board env (layers observations) true randint).
Proof.
  unfold _update_for_game_step. intros Hu Hr.
  destruct (current_game env) as [game|]; [|discriminate].
  destruct (extrinsic_reward_spec (config env)) as [spec|]; [|discriminate].
  cbn [mbind option_bind] in Hu. rewrite Hr in Hu.
  cbn [String.eqb Ascii.eqb Bool.eqb] in Hu.
  destruct (_paint_board env (layers observations) true randint) as [img|];
    [eexists; reflexivity|discriminate].
Qed.

(** [reset], in full: the object handed to [_update_for_game_step]. *)
Lemma reset_running (env env' : PyColabEnv Engine) game randint st :
  reset env game randint = Some (env', st) →
  let shown := its_showtime game in
  let cropped := crop (config env) shown.1.2 in
  ∃ env1,
    config env1 = config env ∧
    _render_order env1 = _render_order env ∧
    _colors env1 = make_colors (color_palette (config env)) ∧
    current_game env1 = Some shown.1.1 ∧
    _last_uncropped_observations env1 = Some shown.1.2 ∧
    _last_cropped_observations env1 =
      match cropped with
      | Some o => Some o
      | None => _last_cropped_observations env
      end ∧
    visitation_frequency env1 = dict_of (objects (config env)) 0 ∧
    first_visit_time env1 = first_visit_time env ∧
    visitation_entropy env1 = visitation_entropy env ∧
    num_obj_eps env1 =
      save_metrics (objects (config env)) (visitation_frequency env)
        (num_obj_eps env) ∧
    episodes env1 = episodes env + 1 ∧
    heatmap env1 =
      replicate (board_shape (obs_board shown.1.2)).1
        (replicate (board_shape (obs_board shown.1.2)).2 0) ∧
    _update_for_game_step env1 (default shown.1.2 cropped) shown.2 randint
      = Some env' ∧
    st = _state env'.
Proof.
  unfold reset.
  destruct (its_showtime game) as [[game' observations] reward]. simpl.
  set (env1 := mkEnv _ _ _ _ _ _ _ _ _ _ _ _ _ _ _).
  destruct (_update_for_game_step env1 _ reward randint) as [env2|] eqn:Hu;
    [|discriminate].
  cbn [mbind option_bind]. intros [= <- <-].
  exists env1. do 12 (split; [reflexivity|]). split; [exact Hu|reflexivity].
Qed.

(** [step] on a running game, in full. *)
Lemma step_running (env env' : PyColabEnv Engine) action randint game
    st reward done info :
  current_game env = Some game →
  step env action randint = Some (env', (st, reward, done, info)) →
  let played := play game action in
  let cropped := crop (config env) played.1.2 in
  ∃ env1 env2,
    env1 = with_game env (Some played.1.1) (Some played.1.2)
             (match cropped with
              | Some o => Some o
              | None => _last_cropped_observations env
              end) (_state env) ∧
    _update_for_game_step env1 (default played.1.2 cropped) played.2 randint
      = Some env2 ∧
    info = add_metrics env2 (the_plot_info played.1.1) ∧
    st = _state env2 ∧
    reward = _last_reward env2 ∧
    done = _game_over env2 ∧
    env' = if bool_decide (done = Some true)
           then with_game env2 None (_last_uncropped_observations env2)
                  (_last_cropped_observations env2) (_state env2)
           else env2.
Proof.
  intros Hg. unfold step. rewrite Hg.
  destruct (play game action) as [[game' observations] r]. simpl.
  set (env1 := with_game env (Some game') _ _ _).
  destruct (_update_for_game_step env1 _ r randint) as [env2|] eqn:Hu;
    [|discriminate].
  cbn [mbind option_bind]. intros [= <- <- <- <- <-].
  exists env1, env2. split; [reflexivity|]. split; [exact Hu|].
  destruct (bool_decide (_game_over env2 = Some true)); repeat split; reflexivity.
Qed.

(** *** Before the first [reset] *)

Lemma init_fields cfg test_game (env : PyColabEnv Engine) :
  __init__ cfg test_game = Some env →
  let shown := its_showtime test_game in
  extrinsic_reward_spec cfg ≠ None ∧
  _render_order env =
    reverse (elements ((list_to_set (elements (dom (layers shown.1.2)))
                          : gset ascii) ∖ list_to_set (z_order shown.1.1))
             ++ z_order shown.1.1) ∧
  _colors env = make_colors (color_palette cfg) ∧
  _state env = None ∧
  _last_uncropped_observations env = None ∧
  _last_cropped_observations env = None ∧
  _last_reward env = None ∧
  _game_over env = Some false ∧
  first_visit_time env = dict_of (objects cfg) 500 ∧
  episodes env = 0.
Proof.
  unfold __init__.
  destruct (0 <? max_iterations cfg) eqn:Hmax; [|discriminate]. simpl.
  destruct (extrinsic_reward_spec cfg); [|discriminate]. simpl.
  destruct (its_showtime test_game) as [[g o] r].
  intros [= <-]. simpl. repeat split; try reflexivity. discriminate.
Qed.

(** X4. A [step] on a freshly constructed environment, before any [reset],
    does not raise: it returns no state, no reward, [done] false and an
    empty [info]; it starts no game and counts no episode. *)
Theorem step_before_reset (cfg : Config) (test_game : Engine)
    (env : PyColabEnv Engine) (action : Z) (randint : nat → nat → nat → Z)
    (Hinit : __init__ cfg test_game = Some env) :
  ∃ env',
    step env action randint = Some (env', (None, None, Some false, ∅)) ∧
    current_game env' = None ∧
    episodes env' = 0 ∧
    visitation_frequency env' = dict_of (objects cfg) 0.
Proof.
  pose proof (init_config _ _ _ Hinit) as (_ & _ & Hg & Hv & _).
  pose proof (init_fields _ _ _ Hinit)
    as (_ & _ & _ & _ & _ & _ & Hr & Hd & _ & Hep).
  eexists. split; [rewrite (step_inactive _ _ _ Hg), Hr, Hd; reflexivity|].
  split; [reflexivity|]. split; [exact Hep|exact Hv].
Qed.

(** *** The metrics along a sequence of calls *)

Lemma update_metrics_kept cfg (env env' : PyColabEnv Engine)
    observations reward randint :
  config env = cfg →
  metrics_kept cfg env →
  _update_for_game_step env observations reward randint = Some env' →
  metrics_kept cfg env'.
Proof.
  intros Hc (Hd1 & Hd2 & Hc1 & Hc2 & Hf) Hu.
  apply update_for_game_step_fields in Hu
    as (g & _ & _ & _ & _ & Hf' & Hn & _ & Hv & _).
  unfold metrics_kept. rewrite Hf', Hn, Hv.
  destruct (_ || _).
  - rewrite count_visits_dom. repeat split; try assumption.
    apply count_visits_counts, Hc1.
  - repeat split; assumption.
Qed.

Lemma exec_metrics cfg (env env' : PyColabEnv Engine) op r :
  config env = cfg →
  metrics_kept cfg env →
  exec env op = Some (env', r) →
  metrics_kept cfg env' ∧
  episodes env' = episodes env + (if is_reset op then 1 else 0).
Proof.
  intros Hc Hm. pose proof Hm as (Hd1 & Hd2 & Hc1 & Hc2 & Hf).
  destruct op as [game randint|action randint]; simpl.
  - destruct (reset env game randint) as [[env1 st]|] eqn:Hr; [|discriminate].
    intros [= <- _]. simpl.
    apply reset_running in Hr
      as (e1 & Hc' & _ & _ & _ & _ & _ & Hv & Hf' & _ & Hn & Hep & _ & Hu & _).
    assert (Hm1 : metrics_kept cfg e1).
    { unfold metrics_kept. rewrite Hv, Hf', Hn, Hc, dict_of_dom, save_metrics_dom.
      repeat split; try assumption.
      - apply dict_of_counts. lia.
      - apply save_metrics_counts, Hc2. }
    split.
    + eapply update_metrics_kept; [|exact Hm1|exact Hu]. congruence.
    + apply update_for_game_step_fields in Hu
        as (g & _ & _ & _ & _ & _ & _ & Hep' & _). lia.
  - destruct (step env action randint) as [[env1 [[[st rw] dn] info]]|] eqn:Hs;
      [|discriminate].
    intros [= <- _]. simpl.
    destruct (current_game env) as [game|] eqn:Hg.
    + destruct (step_running _ _ _ _ _ _ _ _ _ Hg Hs)
        as (e1 & e2 & He1 & Hu & _ & _ & _ & _ & He').
      assert (Hm2 : metrics_kept cfg e2 ∧ episodes e2 = episodes env).
      { split.
        - eapply update_metrics_kept; [|  |exact Hu]; subst e1; [exact Hc|exact Hm].
        - apply update_for_game_step_fields in Hu
            as (g & _ & _ & _ & _ & _ & _ & Hep' & _).
          rewrite Hep'. subst e1. reflexivity. }
      destruct Hm2 as [Hm2 Hep2]. subst env1.
      destruct (bool_decide (dn = Some true)); simpl; split;
        first [exact Hm2|lia].
    + rewrite (step_inactive _ _ _ Hg) in Hs. injection Hs as <- _.
      split; [exact Hm|simpl; lia].
Qed.

Lemma run_metrics cfg ops :
  ∀ (env env' : PyColabEnv Engine) results,
    config env = cfg →
    metrics_kept cfg env →
    run env ops = Some (env', results) →
    metrics_kept cfg env' ∧
    episodes env' =
      episodes env
      + Z.of_nat (length (filter (λ op, is_reset op = true) ops)).
Proof.
  induction ops as [|op ops IH]; intros env env' results Hc Hm Hrun.
  - injection Hrun as <- _. split; [exact Hm|simpl; lia].
  - apply run_cons in Hrun as (env1 & r & rs & He & Hr & _).
    destruct (exec_metrics _ _ _ _ _ Hc Hm He) as [Hm1 Hep1].
    assert (Hc1 : config env1 = cfg)
      by (rewrite (exec_config _ _ _ _ He); exact Hc).
    destruct (IH _ _ _ Hc1 Hm1 Hr) as [Hm' Hep'].
    split; [exact Hm'|]. rewrite Hep', Hep1, filter_cons.
    case_decide as Hop; rewrite ?Hop.
    + simpl length. lia.
    + destruct (is_reset op); [congruence|lia].
Qed.

Lemma init_metrics_kept cfg test_game (env : PyColabEnv Engine) :
  __init__ cfg test_game = Some env → metrics_kept cfg env.
Proof.
  intros Hinit.
  pose proof (init_config _ _ _ Hinit) as (_ & _ & _ & Hv & Hn).
  pose proof (init_fields _ _ _ Hinit)
    as (_ & _ & _ & _ & _ & _ & _ & _ & Hf & _).
  unfold metrics_kept. rewrite Hv, Hn, Hf, dict_of_dom.
  repeat split; try apply dict_of_counts; lia.
Qed.

(** X5. [episodes] counts the calls of [reset]: after any sequence of calls
    on a constructed environment it is the number of resets among them. *)
Theorem episodes_count_resets (cfg : Config) (test_game : Engine)
    (env0 env : PyColabEnv Engine) (ops : list (Op Engine))
    (results : list (option StepResult))
    (Hinit : __init__ cfg test_game = Some env0)
    (Hrun : run env0 ops = Some (env, results)) :
  episodes env = Z.of_nat (length (filter (λ op, is_reset op = true) ops)).
Proof.
  pose proof (init_config _ _ _ Hinit) as (_ & Hc & _).
  pose proof (init_fields _ _ _ Hinit)
    as (_ & _ & _ & _ & _ & _ & _ & _ & _ & Hep).
  destruct (run_metrics cfg ops _ _ _ Hc (init_metrics_kept _ _ _ Hinit) Hrun)
    as [_ Hep'].
  rewrite Hep', Hep. lia.
Qed.

(** X6. The keys of the two counters are the objects throughout, so the
    [+= 1] of a counter never meets a missing key, and no count is ever
    negative. *)
Theorem counters_keep_their_keys (cfg : Config) (test_game : Engine)
    (env0 env : PyColabEnv Engine) (ops : list (Op Engine))
    (results : list (option StepResult))
    (Hinit : __init__ cfg test_game = Some env0)
    (Hrun : run env0 ops = Some (env, results)) :
  (∀ c, is_Some (visitation_frequency env !! c) ↔ c ∈ objects cfg) ∧
  (∀ c, is_Some (num_obj_eps env !! c) ↔ c ∈ objects cfg) ∧
  (∀ c n, visitation_frequency env !! c = Some n → 0 ≤ n) ∧
  (∀ c n, num_obj_eps env !! c = Some n → 0 ≤ n).
Proof.
  pose proof (init_config _ _ _ Hinit) as (_ & Hc & _).
  destruct (run_metrics cfg ops _ _ _ Hc (init_metrics_kept _ _ _ Hinit) Hrun)
    as [(Hd1 & Hd2 & Hc1 & Hc2 & _) _].
  split; [|split; [|split; assumption]].
  - intros c. rewrite <- (elem_of_dom (D := gset ascii)), Hd1.
    apply elem_of_list_to_set.
  - intros c. rewrite <- (elem_of_dom (D := gset ascii)), Hd2.
    apply elem_of_list_to_set.
Qed.

(** X7. Nothing ever writes [first_visit_time]: after any sequence of calls
    it still holds 500 for every object, and that is what every [step] on a
    running game reports as [first_time_visit]. *)
Theorem first_visit_time_is_never_written (cfg : Config) (test_game : Engine)
    (env0 env : PyColabEnv Engine) (ops : list (Op Engine))
    (results : list (option StepResult))
    (Hinit : __init__ cfg test_game = Some env0)
    (Hrun : run env0 ops = Some (env, results)) :
  first_visit_time env = dict_of (objects cfg) 500 ∧
  (∀ c, c ∈ objects cfg → first_visit_time env !! c = Some 500) ∧
  ∀ game action randint env' st reward done info,
    current_game env = Some game →
    step env action randint = Some (env', (st, reward, done, info)) →
    info !! "first_time_visit" = Some (InfoCounts (dict_of (objects cfg) 500)).
Proof.
  pose proof (init_config _ _ _ Hinit) as (_ & Hc & _).
  destruct (run_metrics cfg ops _ _ _ Hc (init_metrics_kept _ _ _ Hinit) Hrun)
    as [Hm _].
  pose proof Hm as (_ & _ & _ & _ & Hf).
  split; [exact Hf|]. split.
  - intros c Hin. rewrite Hf. apply dict_of_lookup, Hin.
  - intros game action randint env' st reward done info Hg Hs.
    destruct (step_running _ _ _ _ _ _ _ _ _ Hg Hs)
      as (e1 & e2 & He1 & Hu & Hinfo & _).
    apply update_for_game_step_fields in Hu
      as (g & _ & _ & _ & _ & Hf' & _).
    rewrite Hinfo. unfold add_metrics.
    do 3 (rewrite lookup_insert_ne by discriminate).
    rewrite lookup_insert_eq, Hf'. subst e1. simpl. rewrite Hf. reflexivity.
Qed.

(** *** Resizing *)

Lemma np_repeat_length {A} (x : list A) n :
  length (np_repeat x n) = (length x * n)%nat.
Proof.
  unfold np_repeat. induction x as [|a x IH]; [reflexivity|].
  rewrite bind_cons, length_app, length_replicate, IH. simpl. lia.
Qed.

Lemma np_repeat_lookup {A} (x : list A) n i :
  (0 < n)%nat → np_repeat x n !! i = x !! (i / n)%nat.
Proof.
  intros Hn. unfold np_repeat. revert i.
  induction x as [|a x IH]; intros i; [reflexivity|]. rewrite bind_cons.
  destruct (decide (i < n)%nat) as [Hlt|Hge].
  - rewrite lookup_app_l by (rewrite length_replicate; exact Hlt).
    rewrite Nat.div_small by exact Hlt. simpl.
    apply lookup_replicate. split; [reflexivity|exact Hlt].
  - rewrite lookup_app_r by (rewrite length_replicate; lia).
    rewrite length_replicate, IH.
    replace (i / n)%nat with (S ((i - n) / n)).
    + reflexivity.
    + replace i with ((i - n) + 1 * n)%nat at 2 by lia.
      rewrite Nat.div_add by lia. lia.
Qed.

Lemma repeat_axes_cell {A} (x : list (list A)) n r c :
  (0 < n)%nat → cell (_repeat_axes x n) r c = cell x (r / n) (c / n).
Proof.
  intros Hn. unfold cell, _repeat_axes.
  rewrite list_lookup_fmap, np_repeat_lookup by exact Hn.
  destruct (x !! (r / n)%nat) as [row|]; [|reflexivity]. simpl.
  apply np_repeat_lookup, Hn.
Qed.

Lemma rows_of_cell img r c :
  cell (rows_of img) r c =
  if bool_decide (r < (shape img).1 ∧ c < (shape img).2)%nat
  then Some (pixel img r c) else None.
Proof.
  unfold cell, rows_of. rewrite list_lookup_fmap.
  destruct (decide (r < (shape img).1)%nat) as [Hr|Hr].
  - rewrite lookup_seq_lt by exact Hr. simpl. rewrite list_lookup_fmap.
    destruct (decide (c < (shape img).2)%nat) as [Hc|Hc].
    + rewrite lookup_seq_lt by exact Hc. simpl.
      rewrite bool_decide_eq_true_2 by (split; assumption). reflexivity.
    + rewrite lookup_seq_ge by lia. simpl.
      rewrite bool_decide_eq_false_2 by (intros [_ ?]; contradiction).
      reflexivity.
  - rewrite lookup_seq_ge by lia. simpl.
    rewrite bool_decide_eq_false_2 by (intros [? _]; contradiction).
    reflexivity.
Qed.

(** X8. [resize] repeats every cell [resize_scale] times along both axes
    and casts to [uint8]: the result has [scale] times the rows and
    columns, the cell at [(r, c)] is the cell at [(r / scale, c / scale)]
    of the input reduced modulo 256, and with scale 0 it is empty. *)
Theorem resize_repeats_cells (scale : nat) (img : Image) :
  shape (resize scale img) = ((shape img).1 * scale, (shape img).2 * scale)%nat ∧
  length (_repeat_axes (rows_of img) scale) = ((shape img).1 * scale)%nat ∧
  (∀ r c,
     cell (rows_of (resize scale img)) r c =
     rgb_map (λ v, v `mod` 256) <$> cell (_repeat_axes (rows_of img) scale) r c) ∧
  (∀ r c px,
     cell (rows_of (resize scale img)) r c = Some px →
     (0 < scale)%nat ∧
     px = rgb_map (λ v, v `mod` 256) (pixel img (r / scale) (c / scale)) ∧
     0 ≤ px.1.1 < 256 ∧ 0 ≤ px.1.2 < 256 ∧ 0 ≤ px.2 < 256).
Proof.
  split; [reflexivity|]. split.
  { unfold _repeat_axes. rewrite length_fmap, np_repeat_length.
    unfold rows_of. rewrite length_fmap, length_seq. reflexivity. }
  assert (Hcell : ∀ r c,
    cell (rows_of (resize scale img)) r c =
    rgb_map (λ v, v `mod` 256) <$> cell (_repeat_axes (rows_of img) scale) r c).
  { intros r c. rewrite rows_of_cell. cbn [resize shape pixel fst snd].
    destruct scale as [|n].
    - rewrite !Nat.mul_0_r.
      rewrite bool_decide_eq_false_2 by lia.
      unfold cell, _repeat_axes. rewrite list_lookup_fmap.
      assert (Hnil : np_repeat (rows_of img) 0 = []).
      { unfold np_repeat. induction (rows_of img); [reflexivity|assumption]. }
      rewrite Hnil. reflexivity.
    - rewrite repeat_axes_cell by lia. rewrite rows_of_cell.
      assert (Hdiv : ∀ a m, (a < m * S n ↔ a / S n < m)%nat).
      { intros a m. split; intros Ha.
        - apply Nat.Div0.div_lt_upper_bound. lia.
        - destruct (decide (a < m * S n)%nat) as [?|Hge]; [assumption|].
          assert (m * S n ≤ a)%nat as Hle by lia.
          apply (Nat.Div0.div_le_mono _ _ (S n)) in Hle.
          rewrite Nat.div_mul in Hle by lia. lia. }
      destruct (decide (r < (shape img).1 * S n ∧ c < (shape img).2 * S n)%nat)
        as [[Hr Hc]|Hno].
      + rewrite bool_decide_eq_true_2 by (split; assumption).
        rewrite bool_decide_eq_true_2 by (split; apply Hdiv; assumption).
        reflexivity.
      + rewrite bool_decide_eq_false_2 by exact Hno.
        rewrite bool_decide_eq_false_2; [reflexivity|].
        intros [Hr Hc]. apply Hno. split; apply Hdiv; assumption. }
  split; [exact Hcell|].
  intros r c px Hpx. rewrite rows_of_cell in Hpx.
  case_bool_decide as Hin; [|discriminate]. injection Hpx as <-.
  cbn [resize shape pixel fst snd] in Hin |- *.
  split; [destruct scale; lia|]. split; [reflexivity|].
  unfold rgb_map. cbn [fst snd].
  repeat split; apply Z.mod_pos_bound; lia.
Qed.

(** *** The render order and the painted board *)

Lemma first_cover_none covers (order : list (nat * ascii)) :
  Forall (λ ik, covers ik.2 = false) order → first_cover covers order = None.
Proof.
  induction 1 as [|ik order Hik _ IH]; [reflexivity|].
  simpl. rewrite Hik. exact IH.
Qed.

Lemma first_cover_split covers (above below : list ascii) key :
  Forall (λ k, covers k = false) above →
  covers key = true →
  first_cover covers (imap pair (above ++ key :: below))
    = Some (length above, key).
Proof.
  intros Habove Hkey. rewrite imap_app, first_cover_app.
  rewrite first_cover_none.
  - simpl. rewrite Hkey, Nat.add_0_r. reflexivity.
  - apply Forall_forall. intros ik Hin.
    apply elem_of_lookup_imap_1 in Hin as (i & k & -> & Hlk). simpl.
    rewrite Forall_forall in Habove. apply Habove.
    eapply list_elem_of_lookup_2, Hlk.
Qed.

Lemma first_cover_uncovered covers (order : list ascii) :
  Forall (λ k, covers k = false) order →
  first_cover covers (imap pair order) = None.
Proof.
  intros Hall. apply first_cover_none, Forall_forall. intros ik Hin.
  apply elem_of_lookup_imap_1 in Hin as (i & k & -> & Hlk). simpl.
  rewrite Forall_forall in Hall. apply Hall.
  eapply list_elem_of_lookup_2, Hlk.
Qed.

Lemma last_imap_pair (order : list ascii) :
  snd <$> last (imap pair order) = last order.
Proof.
  induction order as [|k order IH] using rev_ind; [reflexivity|].
  rewrite imap_app. simpl. rewrite !last_snoc. reflexivity.
Qed.

Lemma first_cover_exists (covers : ascii → bool) (order : list ascii) key :
  key ∈ order → covers key = true →
  ∃ above first below,
    order = above ++ first :: below ∧
    Forall (λ k, covers k = false) above ∧ covers first = true.
Proof.
  induction order as [|k order IH]; intros Hin Hkey.
  - apply elem_of_nil in Hin. destruct Hin.
  - destruct (covers k) eqn:Hk.
    + exists [], k, order. split; [reflexivity|]. split; [constructor|exact Hk].
    + apply elem_of_cons in Hin as [->|Hin]; [congruence|].
      destruct (IH Hin Hkey) as (above & first & below & -> & Habove & Hfirst).
      exists (k :: above), first, below. split; [reflexivity|].
      split; [constructor; assumption|exact Hfirst].
Qed.

Lemma rendered_cells_rendered (order : list ascii) (o : Observation) :
  rendered_cells order o → rendered order o.
Proof.
  unfold rendered_cells, rendered, cell. intros Hall r c ch Hcell.
  destruct (@lookup nat (list ascii) (list (list ascii)) _ r (obs_board o))
    as [row|] eqn:Hrow; [|discriminate Hcell].
  cbn [mbind option_bind] in Hcell.
  rewrite Forall_forall in Hall.
  assert (Hr : (r, row) ∈ imap pair (obs_board o)).
  { apply (list_elem_of_lookup_2 _ r). rewrite list_lookup_imap, Hrow.
    reflexivity. }
  specialize (Hall _ Hr). cbn [fst snd] in Hall.
  rewrite Forall_forall in Hall.
  assert (Hc : (c, ch) ∈ imap pair row).
  { apply (list_elem_of_lookup_2 _ c). rewrite list_lookup_imap, Hcell.
    reflexivity. }
  apply (Hall _ Hc).
Qed.

(** C6. [_paint_board] on the layers of the observation it reads the shape
    of, as both its callers call it, the observation being one pycolab
    rendered (every cell belongs to the layer of the character it shows,
    a character of the render order): the image has the shape of the
    board, and every cell of the board shows the configured colour (black
    without one) of the first layer of the render order that covers it,
    whatever the layers after it hold; when that layer is ['@'] the draw
    of [np.random.randint(-15, 15)] for the cell, which is at least -15
    and less than 15, is added to each channel.  No cell of such a board
    is left uncovered; a cell that no layer covers is black whenever the
    render order does not end with ['@'].  The render order is the one
    the constructor computed: the reversed list of the unordered layers
    followed by the game's z-order. *)
Theorem paint_board_cell (env : PyColabEnv Engine) (o : Observation)
    (cropped : bool) (randint : nat → nat → nat → Z) (img : Image)
    (Hlast : (if cropped then _last_cropped_observations env
              else _last_uncropped_observations env) = Some o)
    (Hrendered : rendered (_render_order env) o)
    (Hdraw : ∀ i r c, -15 ≤ randint i r c < 15)
    (Hpaint : _paint_board env (layers o) cropped randint = Some img) :
  ∃ colors,
    _colors env = Some colors ∧
    shape img = board_shape (obs_board o) ∧
    (∀ r c ch, cell (obs_board o) r c = Some ch →
       ∃ above key below,
         _render_order env = above ++ key :: below ∧
         Forall (λ k, mask_at (layers o !!! k) r c = false) above ∧
         mask_at (layers o !!! key) r c = true ∧
         (key ≠ "@"%char →
          pixel img r c = default (0, 0, 0) (colors !! key)) ∧
         (key = "@"%char →
          ∃ perturbation,
            -15 ≤ perturbation < 15 ∧
            perturbation = randint (length above) r c ∧
            pixel img r c =
              rgb_map (λ channel, channel + perturbation)
                (default (0, 0, 0) (colors !! key)))) ∧
    (∀ r c,
       Forall (λ k, mask_at (layers o !!! k) r c = false) (_render_order env) →
       last (_render_order env) ≠ Some "@"%char →
       pixel img r c = (0, 0, 0)) ∧
    (∀ cfg test_game env0,
       __init__ cfg test_game = Some env0 →
       _render_order env0 =
         reverse
           (elements
              ((list_to_set
                  (elements (dom (layers (its_showtime test_game).1.2)))
                : gset ascii)
               ∖ list_to_set (z_order (its_showtime test_game).1.1))
            ++ z_order (its_showtime test_game).1.1)).
Proof.
  unfold _paint_board in Hpaint. rewrite Hlast in Hpaint.
  destruct (_colors env) as [colors|] eqn:Hcol; [|discriminate].
  cbn [mbind option_bind] in Hpaint. injection Hpaint as <-.
  exists colors. do 2 (split; [reflexivity|]). cbn [pixel].
  split; [|split].
  - intros r c ch Hcell. destruct (Hrendered r c ch Hcell) as [Hin Hch].
    destruct (first_cover_exists (λ k, mask_at (layers o !!! k) r c)
                (_render_order env) ch Hin Hch)
      as (above & key & below & Horder & Habove & Hkey).
    exists above, key, below. split; [exact Horder|].
    split; [exact Habove|]. split; [exact Hkey|].
    unfold paint.
    destruct (paint_cell colors (layers o) randint
                (imap pair (_render_order env)) r c) as [_ Hpx].
    rewrite Hpx, Horder.
    rewrite (first_cover_split (λ k, mask_at (layers o !!! k) r c) above below
               key Habove Hkey). cbn [fst snd].
    split.
    + intros Hne. rewrite bool_decide_eq_false_2 by exact Hne.
      unfold rgb_map. destruct (default _ _) as [[x y] z]. cbn [fst snd].
      rewrite !Z.add_0_r. reflexivity.
    + intros Heq. rewrite bool_decide_eq_true_2 by exact Heq.
      exists (randint (length above) r c).
      split; [apply Hdraw|]. split; reflexivity.
  - intros r c Hnone Hlast'. unfold paint.
    destruct (paint_cell colors (layers o) randint
                (imap pair (_render_order env)) r c) as [_ Hpx].
    rewrite Hpx.
    rewrite (first_cover_uncovered (λ k, mask_at (layers o !!! k) r c) _ Hnone).
    pose proof (last_imap_pair (_render_order env)) as Hl.
    destruct (last (imap pair (_render_order env))) as [[i k]|]; [|reflexivity].
    simpl in Hl. cbn [snd].
    rewrite bool_decide_eq_false_2; [reflexivity|].
    intros ->. apply Hlast'. symmetry. exact Hl.
  - intros cfg test_game env0. unfold __init__.
    destruct (negb (0 <? max_iterations cfg)); [discriminate|].
    destruct (extrinsic_reward_spec cfg); [|discriminate].
    cbn [mbind option_bind].
    destruct (its_showtime test_game) as [[g obs] rw].
    intros [= <-]. reflexivity.
Qed.

(** X9. Painting is compositing in render order: a cell shows the colour of
    the first layer of the render order that covers it, whatever the layers
    after it hold (black for a character without a colour; with the
    perturbation drawn for this layer when it is ['@']); a cell that no
    layer covers is black unless the render order ends with ['@']. *)
Theorem paint_board_first_layer_wins (env : PyColabEnv Engine)
    (lyrs : gmap ascii Mask) (cropped : bool)
    (randint : nat → nat → nat → Z) (img : Image)
    (Hpaint : _paint_board env lyrs cropped randint = Some img) :
  ∃ colors observed,
    _colors env = Some colors ∧
    (if cropped then _last_cropped_observations env
     else _last_uncropped_observations env) = Some observed ∧
    shape img = board_shape (obs_board observed) ∧
    (∀ above key below r c,
       _render_order env = above ++ key :: below →
       Forall (λ k, mask_at (lyrs !!! k) r c = false) above →
       mask_at (lyrs !!! key) r c = true →
       pixel img r c =
         if bool_decide (key = "@"%char)
         then rgb_map (λ ch, ch + randint (length above) r c)
                (default (0, 0, 0) (colors !! key))
         else default (0, 0, 0) (colors !! key)) ∧
    (∀ r c,
       Forall (λ k, mask_at (lyrs !!! k) r c = false) (_render_order env) →
       last (_render_order env) ≠ Some "@"%char →
       pixel img r c = (0, 0, 0)).
Proof.
  unfold _paint_board in Hpaint.
  destruct (if cropped then _ else _) as [lst|] eqn:Hlast; [|discriminate].
  destruct (_colors env) as [colors|] eqn:Hcol; [|discriminate].
  cbn [mbind option_bind] in Hpaint. injection Hpaint as <-.
  exists colors, lst. do 3 (split; [reflexivity|]). cbn [pixel]. split.
  - intros above key below r c Horder Habove Hkey. unfold paint.
    destruct (paint_cell colors lyrs randint (imap pair (_render_order env)) r c)
      as [_ Hpx]. rewrite Hpx, Horder.
    rewrite (first_cover_split (λ k, mask_at (lyrs !!! k) r c) above below key
               Habove Hkey). cbn [fst snd].
    case_bool_decide; [reflexivity|].
    unfold rgb_map. destruct (default _ _) as [[x y] z]. cbn [fst snd].
    rewrite !Z.add_0_r. reflexivity.
  - intros r c Hnone Hlast'. unfold paint.
    destruct (paint_cell colors lyrs randint (imap pair (_render_order env)) r c)
      as [_ Hpx]. rewrite Hpx.
    rewrite (first_cover_uncovered (λ k, mask_at (lyrs !!! k) r c) _ Hnone).
    pose proof (last_imap_pair (_render_order env)) as Hl.
    destruct (last (imap pair (_render_order env))) as [[i k]|]; [|reflexivity].
    simpl in Hl. cbn [snd].
    rewrite bool_decide_eq_false_2; [reflexivity|].
    intros ->. apply Hlast'. symmetry. exact Hl.
Qed.

(** X10. The render order the constructor computes: the sprites of the
    z-order, the topmost first, followed by the layers that are not in the
    z-order; every layer and every sprite is in it, once. *)
Theorem render_order_of_constructor (cfg : Config) (test_game : Engine)
    (env : PyColabEnv Engine)
    (Hinit : __init__ cfg test_game = Some env) :
  let shown := its_showtime test_game in
  take (length (z_order shown.1.1)) (_render_order env)
    = reverse (z_order shown.1.1) ∧
  (∀ key, key ∈ _render_order env ↔
          is_Some (layers shown.1.2 !! key) ∨ key ∈ z_order shown.1.1) ∧
  (∀ key, key ∈ drop (length (z_order shown.1.1)) (_render_order env) ↔
          is_Some (layers shown.1.2 !! key) ∧ key ∉ z_order shown.1.1) ∧
  (NoDup (z_order shown.1.1) → NoDup (_render_order env)).
Proof.
  intros shown.
  pose proof (init_fields _ _ _ Hinit) as (_ & Horder & _).
  fold shown in Horder. rewrite Horder, reverse_app.
  set (z := z_order shown.1.1).
  set (rest := elements (_ ∖ _)).
  assert (Hrest : ∀ key, key ∈ rest ↔
                         is_Some (layers shown.1.2 !! key) ∧ key ∉ z).
  { intros key. unfold rest.
    rewrite elem_of_elements, elem_of_difference, !elem_of_list_to_set,
      elem_of_elements, elem_of_dom. reflexivity. }
  split; [|split; [|split]].
  - rewrite <- (length_reverse z). apply take_app_length.
  - intros key. rewrite elem_of_app, !elem_of_reverse, Hrest.
    destruct (decide (key ∈ z)); tauto.
  - intros key. rewrite <- (length_reverse z), drop_app_length.
    rewrite elem_of_reverse. apply Hrest.
  - intros Hz. apply NoDup_app. split; [rewrite reverse_Permutation; exact Hz|]. split.
    + intros key Hin Hin'. rewrite elem_of_reverse in Hin, Hin'.
      apply Hrest in Hin' as [_ Hout]. contradiction.
    + rewrite reverse_Permutation. apply NoDup_elements.
Qed.

(** X11. RGB observations need a cropper and a known palette: on a
    constructed environment [reset] raises when the observation type is
    ['rgb'] and there is no cropper (there is no cropped observation whose
    shape to read), or the palette is none of 0, 1 and 2 ([make_colors]
    returned [None]). *)
Theorem rgb_reset_needs_cropper_and_palette (cfg : Config)
    (test_game game : Engine) (env : PyColabEnv Engine)
    (randint : nat → nat → nat → Z)
    (Hinit : __init__ cfg test_game = Some env)
    (Hrgb : obs_type cfg = "rgb")
    (Hbad : _croppers cfg = [] ∨
            (¬ 0 ≤ color_palette cfg ≤ 2 ∧ _render_order env ≠ [])) :
  reset env game randint = None ∧
  (color_palette cfg < 0 ∨ 2 < color_palette cfg ↔
   make_colors (color_palette cfg) = None).
Proof.
  assert (Hpal : color_palette cfg < 0 ∨ 2 < color_palette cfg ↔
                 make_colors (color_palette cfg) = None).
  { unfold make_colors.
    destruct (Z.eqb_spec (color_palette cfg) 0);
      [split; [lia|discriminate]|].
    destruct (Z.eqb_spec (color_palette cfg) 1);
      [split; [lia|discriminate]|].
    destruct (Z.eqb_spec (color_palette cfg) 2);
      [split; [lia|discriminate]|].
    split; [reflexivity|lia]. }
  split; [|exact Hpal].
  pose proof (init_config _ _ _ Hinit) as (_ & Hc & _).
  pose proof (init_fields _ _ _ Hinit) as (_ & _ & _ & _ & _ & Hlc & _).
  destruct (reset env game randint) as [[env' st]|] eqn:Hreset; [|reflexivity].
  exfalso.
  apply reset_running in Hreset
    as (env1 & Hc1 & _ & Hcol & _ & _ & Hcrop & _ & _ & _ & _ & _ & _ & Hu & _).
  unfold _update_for_game_step in Hu.
  destruct (current_game env1); [|discriminate].
  destruct (extrinsic_reward_spec (config env1)); [|discriminate].
  cbn [mbind option_bind] in Hu. rewrite Hc1, Hc, Hrgb in Hu.
  cbn [String.eqb Ascii.eqb Bool.eqb] in Hu.
  destruct (_paint_board env1 _ true randint) as [img|] eqn:Hp;
    [|discriminate].
  unfold _paint_board in Hp. rewrite Hcrop, Hcol, Hc in Hp.
  destruct Hbad as [Hnone|[Hpalette _]].
  - unfold crop in Hp. rewrite Hnone, Hlc in Hp. discriminate.
  - rewrite (proj1 Hpal) in Hp by lia.
    destruct (match crop cfg _ with Some o => Some o | None => _ end);
      discriminate.
Qed.

(** *** What a [step] on a running game returns *)

(** X12. The [info] of a [step] on a running game holds the five metrics as
    they are after the step, in place of whatever the game stored under
    these keys, and the game's own entries under every other key. *)
Theorem step_info_reports_metrics (env env' : PyColabEnv Engine)
    (action : Z) (randint : nat → nat → nat → Z) (game : Engine)
    (st : option StateArray) (reward : option Q) (done : option bool)
    (info : gmap string InfoValue)
    (Hg : current_game env = Some game)
    (Hstep : step env action randint = Some (env', (st, reward, done, info))) :
  info !! "visitation_frequency"%string
    = Some (InfoCounts (visitation_frequency env')) ∧
  info !! "first_time_visit"%string = Some (InfoCounts (first_visit_time env')) ∧
  info !! "visitation_entropy"%string
    = Some (InfoReal (visitation_entropy env')) ∧
  info !! "episodes"%string = Some (InfoNumber (episodes env')) ∧
  info !! "num_obj_eps"%string = Some (InfoCounts (num_obj_eps env')) ∧
  (∀ key, key ∉ metric_keys →
          info !! key = the_plot_info (play game action).1.1 !! key) ∧
  episodes env' = episodes env ∧
  num_obj_eps env' = num_obj_eps env.
Proof.
  destruct (step_running _ _ _ _ _ _ _ _ _ Hg Hstep)
    as (e1 & e2 & He1 & Hu & Hinfo & _ & _ & _ & He').
  assert (Hsame : visitation_frequency env' = visitation_frequency e2 ∧
                  first_visit_time env' = first_visit_time e2 ∧
                  visitation_entropy env' = visitation_entropy e2 ∧
                  episodes env' = episodes e2 ∧
                  num_obj_eps env' = num_obj_eps e2).
  { subst env'. destruct (bool_decide (done = Some true));
      repeat split; reflexivity. }
  destruct Hsame as (-> & -> & -> & -> & ->).
  rewrite Hinfo. unfold add_metrics.
  split; [do 4 (rewrite lookup_insert_ne by discriminate);
          apply lookup_insert_eq|].
  split; [do 3 (rewrite lookup_insert_ne by discriminate);
          apply lookup_insert_eq|].
  split; [do 2 (rewrite lookup_insert_ne by discriminate);
          apply lookup_insert_eq|].
  split; [rewrite lookup_insert_ne by discriminate; apply lookup_insert_eq|].
  split; [apply lookup_insert_eq|].
  split.
  - intros key Hkey. unfold metric_keys in Hkey.
    rewrite !not_elem_of_cons in Hkey.
    destruct Hkey as (H1 & H2 & H3 & H4 & H5 & _).
    rewrite !lookup_insert_ne by congruence. reflexivity.
  - apply update_for_game_step_fields in Hu
      as (g & _ & _ & _ & _ & _ & Hn & Hep & _).
    rewrite Hn, Hep. subst e1. split; reflexivity.
Qed.

(** X13. The state a [step] on a running game returns.  With ['mask'] it is
    the stack of the layers of the characters of [state_layer_chars] other
    than the blank, in that order, taken from the cropped observation when
    there is a cropper.  With ['rgb'] and a cropper it is the cropped
    layers painted and resized. *)
Theorem step_returns_state (env env' : PyColabEnv Engine)
    (action : Z) (randint : nat → nat → nat → Z) (game : Engine)
    (st : option StateArray) (reward : option Q) (done : option bool)
    (info : gmap string InfoValue)
    (Hg : current_game env = Some game)
    (Hstep : step env action randint = Some (env', (st, reward, done, info))) :
  let cfg := config env in
  let played := play game action in
  let observations := default played.1.2 (crop cfg played.1.2) in
  st = _state env' ∧
  (obs_type cfg = "mask"%string →
   st = Some (MaskState
                ((λ char, layers observations !!! char)
                   <$> filter (λ char, char ≠ " "%char)
                         (state_layer_chars cfg)))) ∧
  (obs_type cfg = "rgb"%string → _croppers cfg ≠ [] →
   ∃ colors,
     _colors env = Some colors ∧
     st = Some (RgbState
                  (resize (resize_scale cfg)
                     (mkImage (board_shape (obs_board observations))
                        (paint colors (_render_order env)
                           (layers observations) randint).1)))).
Proof.
  intros cfg played observations.
  destruct (step_running _ _ _ _ _ _ _ _ _ Hg Hstep)
    as (e1 & e2 & He1 & Hu & _ & Hst & _ & _ & He').
  fold played in He1, Hu. fold cfg in He1, Hu. fold observations in Hu.
  split.
  { subst env'. rewrite Hst.
    destruct (bool_decide (done = Some true)); reflexivity. }
  pose proof (update_rgb_painted _ _ _ _ _ Hu) as Hpainted.
  apply update_for_game_step_fields in Hu
    as (g & _ & _ & _ & _ & _ & _ & _ & _ & _ & _ & Hstate).
  rewrite <- Hst in Hstate.
  assert (Hc1 : config e1 = cfg) by (subst e1; reflexivity).
  rewrite Hc1 in Hstate, Hpainted. split.
  - intros Hm. rewrite Hm in Hstate. exact Hstate.
  - intros Hr Hcrop. rewrite Hr in Hstate.
    cbn [String.eqb Ascii.eqb Bool.eqb] in Hstate.
    destruct (Hpainted Hr) as [img Himg]. rewrite Himg in Hstate.
    unfold _paint_board in Himg.
    assert (Hlast : _last_cropped_observations e1 = Some observations).
    { subst e1. simpl. unfold observations, crop.
      destruct (_croppers cfg) as [|cropper rest]; [congruence|]. reflexivity. }
    rewrite Hlast in Himg. cbn [mbind option_bind] in Himg.
    assert (Hcol : _colors e1 = _colors env) by (subst e1; reflexivity).
    assert (Hord : _render_order e1 = _render_order env)
      by (subst e1; reflexivity).
    rewrite Hcol, Hord in Himg.
    destruct (_colors env) as [colors|]; [|discriminate Himg].
    cbn [mbind option_bind] in Himg. injection Himg as <-.
    exists colors. split; [reflexivity|exact Hstate].
Qed.

(** X14. [done] is reported exactly when it should be: a [step] on a running
    game returns [done] true when the game has declared itself over or its
    frame counter has reached [max_iterations], and false otherwise; the
    game is dropped in the first case and kept in the second. *)
Theorem step_reports_done_exactly (env env' : PyColabEnv Engine)
    (action : Z) (randint : nat → nat → nat → Z) (game : Engine)
    (st : option StateArray) (reward : option Q) (done : option bool)
    (info : gmap string InfoValue)
    (Hg : current_game env = Some game)
    (Hstep : step env action randint = Some (env', (st, reward, done, info))) :
  let game' := (play game action).1.1 in
  done = Some (game_over game'
               || bool_decide (max_iterations (config env) ≤ frame game')) ∧
  (done = Some true → current_game env' = None) ∧
  (done = Some false → current_game env' = Some game').
Proof.
  intros game'.
  destruct (step_running _ _ _ _ _ _ _ _ _ Hg Hstep)
    as (e1 & e2 & He1 & Hu & _ & _ & _ & Hd & He').
  apply update_for_game_step_spec in Hu
    as (g & spec & Hg1 & _ & _ & Hg2 & _ & _ & _ & _ & Hover & _).
  assert (Hgame : g = game' ∧ config e1 = config env).
  { subst e1. simpl in Hg1. injection Hg1 as <-. split; reflexivity. }
  destruct Hgame as [-> Hc1]. rewrite Hc1 in Hover. rewrite <- Hd in Hover.
  assert (Hdone : done = Some (game_over game'
                     || bool_decide (max_iterations (config env) ≤ frame game'))).
  { rewrite Hover. unfold game_over_now. f_equal.
    repeat case_bool_decide; try contradiction;
      destruct (game_over game'); reflexivity. }
  split; [exact Hdone|]. split; intros Hflag; subst env'.
  - rewrite bool_decide_eq_true_2 by exact Hflag. reflexivity.
  - rewrite bool_decide_eq_false_2 by (rewrite Hflag; discriminate).
    rewrite Hg2, <- Hg1. reflexivity.
Qed.

(** *** The heatmap *)

(** X15. An update that logs heatmaps adds one to the heatmap at the
    player's cell and to no other cell, and recomputes the entropy from the
    new heatmap; an update that does not log leaves both alone. *)
Theorem heatmap_counts_the_player (env env' : PyColabEnv Engine)
    (observations : Observation) (reward : option Q)
    (randint : nat → nat → nat → Z) (game : Engine) (n : Z)
    (Hg : current_game env = Some game)
    (Hu : _update_for_game_step env observations reward randint = Some env')
    (Hr : 0 ≤ (thing_position game "P").1)
    (Hc : 0 ≤ (thing_position game "P").2)
    (Hin : cell (heatmap env) (Z.to_nat (thing_position game "P").1)
             (Z.to_nat (thing_position game "P").2) = Some n) :
  let pr := Z.to_nat (thing_position game "P").1 in
  let pc := Z.to_nat (thing_position game "P").2 in
  (log_heatmaps (config env) = true →
   cell (heatmap env') pr pc = Some (n + 1) ∧
   (∀ r c, (r, c) ≠ (pr, pc) →
           cell (heatmap env') r c = cell (heatmap env) r c) ∧
   visitation_entropy env' =
     entropy (concat (heatmap env')) (visitable_states (config env))) ∧
  (log_heatmaps (config env) = false →
   heatmap env' = heatmap env ∧
   visitation_entropy env' = visitation_entropy env).
Proof.
  intros pr pc.
  apply update_for_game_step_fields in Hu
    as (g & Hg' & _ & _ & _ & _ & _ & _ & _ & Hh & He & _).
  rewrite Hg in Hg'. injection Hg' as <-.
  fold pr pc in Hh, Hin. split; intros Hlog; rewrite Hlog in Hh, He.
  - split; [|split; [|exact He]].
    + rewrite Hh. unfold cell in Hin |- *. rewrite list_lookup_alter_eq.
      destruct (heatmap env !! pr) as [row|]; [|discriminate Hin].
      cbn [fmap option_fmap option_map mbind option_bind] in Hin |- *.
      rewrite list_lookup_alter_eq, Hin. reflexivity.
    + intros r c Hne. rewrite Hh. unfold cell.
      destruct (decide (r = pr)) as [->|Hr'].
      * rewrite list_lookup_alter_eq.
        destruct (heatmap env !! pr) as [row|]; [|reflexivity].
        cbn [fmap option_fmap option_map mbind option_bind].
        apply list_lookup_alter_ne. congruence.
      * rewrite list_lookup_alter_ne by congruence. reflexivity.
  - split; assumption.
Qed.


End WithEngine.

End EnvFacts.

(** ** The trajectory record *)

Module TrajFacts.
Import Traj.

Section WithTrajInfo.
Context {Base Obs Act AgentInfo : Type} `{!TrajInfo Base Obs Act AgentInfo}.

(** The sprites after a [step] that met both sequences: every block has
    run on its own sprite. *)
Lemma step_sprites (self self' : PycolabTrajInfo Base) observation action
    reward_ext done agent_info env_info :
  step self observation action reward_ext done agent_info env_info
    = Some self' →
  base self' = traj_step (base self) observation action reward_ext done
                 agent_info env_info ∧
  visitation_entropy self' = info_visitation_entropy env_info ∧
  length (sprites self') = length (sprites self) ∧
  match info_visitation_frequency env_info, info_first_time_visit env_info with
  | Some vf, Some fvt =>
      ∀ i sp, sprites self !! i = Some sp →
        ∃ sp', sprites self' !! i = Some sp' ∧
               step_sprite (Length (base self)) done vf fvt
                 (info_num_obj_eps env_info) (info_episodes env_info) i sp
               = Some sp'
  | _, _ => sprites self' = sprites self
  end.
Proof.
  unfold step. intros Hstep.
  destruct (info_visitation_frequency env_info) as [vf|].
  - destruct (info_first_time_visit env_info) as [fvt|].
    + destruct (mapM _ _) as [sprites'|] eqn:Hm; [|discriminate Hstep].
      cbn [mbind option_bind] in Hstep. injection Hstep as <-. cbn.
      apply mapM_Some in Hm. pose proof (Forall2_length _ _ _ Hm) as Hlen.
      rewrite length_imap in Hlen.
      do 2 (split; [reflexivity|]). split; [symmetry; exact Hlen|].
      intros i sp Hsp.
      assert (Hi : imap pair (sprites self) !! i = Some (i, sp))
        by (rewrite list_lookup_imap, Hsp; reflexivity).
      destruct (Forall2_lookup_l _ _ _ _ _ Hm Hi) as (sp' & Hsp' & Hf).
      exists sp'. split; [exact Hsp'|exact Hf].
    + cbn [mbind option_bind] in Hstep. injection Hstep as <-. cbn.
      repeat split; reflexivity.
  - cbn [mbind option_bind] in Hstep. injection Hstep as <-. cbn.
    repeat split; reflexivity.
Qed.

Lemma step_sprite_first_visit length_now done vf fvt counts episodes i sp sp' :
  step_sprite length_now done vf fvt counts episodes i sp = Some sp' →
  first_visit sp' =
    if bool_decide (vf !! i = Some 1) && bool_decide (fvt !! i = Some 500)
    then length_now else first_visit sp.
Proof.
  unfold step_sprite. case_bool_decide as Hlen.
  - destruct (fvt !! i) as [f|] eqn:Hf; [|discriminate].
    destruct (vf !! i) as [v|] eqn:Hv; [|discriminate].
    cbn [mbind option_bind].
    assert (Hsame : bool_decide (Some v = Some 1) && bool_decide (Some f = Some 500)
                    = bool_decide (f = 500) && bool_decide (v = 1)).
    { rewrite andb_comm. f_equal; apply bool_decide_ext; split; congruence. }
    rewrite Hsame.
    destruct done.
    + destruct counts as [noe|]; [|discriminate]. cbn [mbind option_bind].
      destruct (noe !! i) as [n|]; [|discriminate]. cbn [mbind option_bind].
      destruct episodes as [eps|]; [|discriminate]. cbn [mbind option_bind].
      destruct (bool_decide (eps = 0)); [discriminate|]. intros [= <-]. reflexivity.
    + intros [= <-]. reflexivity.
  - intros [= <-].
    rewrite (bool_decide_eq_false_2 (vf !! i = Some 1)); [reflexivity|].
    intros Hv. apply lookup_lt_Some in Hv. lia.
Qed.

Lemma step_first_visit (self self' : PycolabTrajInfo Base) observation action
    reward_ext done agent_info env_info i sp :
  step self observation action reward_ext done agent_info env_info
    = Some self' →
  sprites self !! i = Some sp →
  ∃ sp', sprites self' !! i = Some sp' ∧
         first_visit sp' =
           if first_sighting env_info i then Length (base self)
           else first_visit sp.
Proof.
  intros Hstep Hsp. apply step_sprites in Hstep as (_ & _ & _ & Hs).
  unfold first_sighting.
  destruct (info_visitation_frequency env_info) as [vf|];
    [destruct (info_first_time_visit env_info) as [fvt|]|].
  - destruct (Hs _ _ Hsp) as (sp' & Hsp' & Hf). exists sp'.
    split; [exact Hsp'|]. apply (step_sprite_first_visit _ _ _ _ _ _ _ _ _ Hf).
  - exists sp. rewrite Hs. split; [exact Hsp|reflexivity].
  - exists sp. rewrite Hs. split; [exact Hsp|reflexivity].
Qed.

Section Lengths.
Hypothesis traj_step_Length :
  ∀ s observation action reward_ext done agent_info env_info,
    Length (traj_step s observation action reward_ext done agent_info env_info)
    = Length s + 1.

Lemma step_Length (self self' : PycolabTrajInfo Base) observation action
    reward_ext done agent_info env_info :
  step self observation action reward_ext done agent_info env_info
    = Some self' →
  Length (base self') = Length (base self) + 1.
Proof.
  intros Hstep. apply step_sprites in Hstep as (-> & _).
  apply traj_step_Length.
Qed.

Lemma steps_without_sighting calls :
  ∀ (self self' : PycolabTrajInfo Base) i sp,
    steps self calls = Some self' →
    sprites self !! i = Some sp →
    Forall (λ c, first_sighting c.2 i = false) calls →
    ∃ sp', sprites self' !! i = Some sp' ∧ first_visit sp' = first_visit sp.
Proof.
  induction calls as [|[[[[[o a] r] d] ai] ei] calls IH];
    intros self self' i sp Hsteps Hsp Hnone.
  - injection Hsteps as <-. exists sp. split; [exact Hsp|reflexivity].
  - simpl in Hsteps.
    destruct (step self o a r d ai ei) as [self1|] eqn:Hstep;
      [|discriminate Hsteps].
    cbn [mbind option_bind] in Hsteps.
    apply Forall_cons in Hnone as [Hei Hnone]. simpl in Hei.
    destruct (step_first_visit _ _ _ _ _ _ _ _ _ _ Hstep Hsp)
      as (sp1 & Hsp1 & Hf1). rewrite Hei in Hf1.
    destruct (IH _ _ _ _ Hsteps Hsp1 Hnone) as (sp' & Hsp' & Hf').
    exists sp'. split; [exact Hsp'|congruence].
Qed.

(** X17. [first_visit_x] does not hold the first visit: every step that sees
    the sprite with a count of one (and a first-visit time of 500, which is
    all the environment ever reports) overwrites it with the length of the
    trajectory so far.  With a base class whose [step] adds one to
    [Length], after a trajectory it holds the length at the start plus the
    number of steps taken before the latest such step, and its old value if
    there was no such step. *)
Theorem first_visit_is_the_latest_sighting (self self' : PycolabTrajInfo Base)
    (calls : list (Obs * Act * Q * bool * AgentInfo * EnvInfo))
    (i : nat) (sp : Sprite)
    (Hsteps : steps self calls = Some self')
    (Hsp : sprites self !! i = Some sp) :
  ∃ sp',
    sprites self' !! i = Some sp' ∧
    (Forall (λ c, first_sighting c.2 i = false) calls →
     first_visit sp' = first_visit sp) ∧
    (∀ before c after,
       calls = before ++ c :: after →
       first_sighting c.2 i = true →
       Forall (λ c, first_sighting c.2 i = false) after →
       first_visit sp' = Length (base self) + Z.of_nat (length before)).
Proof.
  destruct (decide (Forall (λ c, first_sighting c.2 i = false) calls))
    as [Hnone|Hsome].
  - destruct (steps_without_sighting _ _ _ _ _ Hsteps Hsp Hnone)
      as (sp' & Hsp' & Hf).
    exists sp'. split; [exact Hsp'|]. split; [intros _; exact Hf|].
    intros before c after -> Hc _. exfalso.
    apply Forall_app in Hnone as [_ Hnone].
    apply Forall_cons in Hnone as [Hc' _]. congruence.
  - assert (Hex : ∃ sp', sprites self' !! i = Some sp').
    { clear Hsome. revert self sp Hsteps Hsp.
      induction calls as [|[[[[[o a] r] d] ai] ei] calls IH];
        intros self sp Hsteps Hsp.
      - injection Hsteps as <-. eauto.
      - simpl in Hsteps.
        destruct (step self o a r d ai ei) as [self1|] eqn:Hstep;
          [|discriminate Hsteps].
        destruct (step_first_visit _ _ _ _ _ _ _ _ _ _ Hstep Hsp)
          as (sp1 & Hsp1 & _).
        apply (IH _ _ Hsteps Hsp1). }
    destruct Hex as [sp' Hsp']. exists sp'. split; [exact Hsp'|].
    split; [intros Hnone; contradiction|].
    intros before c after -> Hc Hafter. clear Hsome.
    revert self sp Hsteps Hsp.
    induction before as [|[[[[[o a] r] d] ai] ei] before IH];
      intros self sp Hsteps Hsp.
    + destruct c as [[[[[o a] r] d] ai] ei]. simpl in Hsteps, Hc.
      destruct (step self o a r d ai ei) as [self1|] eqn:Hstep;
        [|discriminate Hsteps].
      cbn [mbind option_bind] in Hsteps.
      destruct (step_first_visit _ _ _ _ _ _ _ _ _ _ Hstep Hsp)
        as (sp1 & Hsp1 & Hf1). rewrite Hc in Hf1.
      destruct (steps_without_sighting _ _ _ _ _ Hsteps Hsp1 Hafter)
        as (sp2 & Hsp2 & Hf2).
      rewrite Hsp' in Hsp2. injection Hsp2 as <-. simpl. lia.
    + simpl in Hsteps.
      destruct (step self o a r d ai ei) as [self1|] eqn:Hstep;
        [|discriminate Hsteps].
      cbn [mbind option_bind] in Hsteps.
      destruct (step_first_visit _ _ _ _ _ _ _ _ _ _ Hstep Hsp)
        as (sp1 & Hsp1 & _).
      rewrite (IH _ _ Hsteps Hsp1), (step_Length _ _ _ _ _ _ _ _ Hstep).
      simpl length. lia.
Qed.

End Lengths.

(** X18. What one [step] does to the attributes of the sprites.  Without
    [visitation_frequency] or [first_time_visit] in [env_info] none of them
    changes.  With both, the sprite with index [i] takes its count from
    [visitation_frequency[i]] when there is such an entry and keeps all its
    attributes when there is none; only at the end of an episode does it
    take [num_obj_eps[i]], and the quotient of that and [episodes].  The
    entropy is replaced by what [env_info] holds, [None] included. *)
Theorem traj_step_copies_the_counts (self self' : PycolabTrajInfo Base)
    (observation : Obs) (action : Act) (reward_ext : Q) (done : bool)
    (agent_info : AgentInfo) (env_info : EnvInfo)
    (Hstep : step self observation action reward_ext done agent_info env_info
             = Some self') :
  visitation_entropy self' = info_visitation_entropy env_info ∧
  length (sprites self') = length (sprites self) ∧
  (info_visitation_frequency env_info = None ∨
   info_first_time_visit env_info = None →
   sprites self' = sprites self) ∧
  ∀ vf fvt i sp,
    info_visitation_frequency env_info = Some vf →
    info_first_time_visit env_info = Some fvt →
    sprites self !! i = Some sp →
    ∃ sp',
      sprites self' !! i = Some sp' ∧
      (length vf ≤ i → sp' = sp)%nat ∧
      ((i < length vf)%nat →
       vf !! i = Some (visit_freq sp') ∧
       (done = false →
        num_eps sp' = num_eps sp ∧ percent_eps sp' = percent_eps sp) ∧
       (done = true →
        ∃ counts eps,
          info_num_obj_eps env_info = Some counts ∧
          counts !! i = Some (num_eps sp') ∧
          info_episodes env_info = Some eps ∧ eps ≠ 0 ∧
          percent_eps sp' = (inject_Z (num_eps sp') / inject_Z eps)%Q)).
Proof.
  apply step_sprites in Hstep as (_ & He & Hlen & Hs).
  split; [exact He|]. split; [exact Hlen|]. split.
  - intros [Hn|Hn]; rewrite Hn in Hs; [exact Hs|].
    destruct (info_visitation_frequency env_info); exact Hs.
  - intros vf fvt i sp Hvf Hfvt Hsp. rewrite Hvf, Hfvt in Hs.
    destruct (Hs _ _ Hsp) as (sp' & Hsp' & Hf). exists sp'.
    split; [exact Hsp'|]. unfold step_sprite in Hf.
    case_bool_decide as Hi.
    + split; [intros Hge; lia|]. intros _.
      destruct (fvt !! i) as [f|]; [|discriminate Hf].
      destruct (vf !! i) as [v|]; [|discriminate Hf].
      cbn [mbind option_bind] in Hf. destruct done.
      * destruct (info_num_obj_eps env_info) as [counts|]; [|discriminate Hf].
        cbn [mbind option_bind] in Hf.
        destruct (counts !! i) as [n|] eqn:Hn; [|discriminate Hf].
        cbn [mbind option_bind] in Hf.
        destruct (info_episodes env_info) as [eps|]; [|discriminate Hf].
        cbn [mbind option_bind] in Hf.
        case_bool_decide as Hz; [discriminate Hf|]. injection Hf as <-.
        split; [reflexivity|]. split; [discriminate|]. intros _.
        exists counts, eps. repeat split; try reflexivity; assumption.
      * injection Hf as <-. split; [reflexivity|].
        split; [intros _; split; reflexivity|discriminate].
    + injection Hf as <-. split; [reflexivity|]. intros Hlt. lia.
Qed.

(** X19. When [step] raises.  It does not when [first_time_visit] and, at
    the end of an episode, [num_obj_eps] are as long as
    [visitation_frequency] and [episodes] is a number other than zero.  It
    does at the end of an episode that reports zero episodes, as soon as
    one sprite is counted. *)
Theorem traj_step_raises_on_zero_episodes (self : PycolabTrajInfo Base)
    (observation : Obs) (action : Act) (reward_ext : Q) (done : bool)
    (agent_info : AgentInfo) (env_info : EnvInfo) (vf fvt counts : list Z)
    (eps : Z)
    (Hvf : info_visitation_frequency env_info = Some vf)
    (Hfvt : info_first_time_visit env_info = Some fvt)
    (Hcounts : info_num_obj_eps env_info = Some counts)
    (Heps : info_episodes env_info = Some eps)
    (Hlen1 : length fvt = length vf)
    (Hlen2 : length counts = length vf) :
  (eps ≠ 0 →
   is_Some (step self observation action reward_ext done agent_info env_info)) ∧
  (eps = 0 → done = true → vf ≠ [] → sprites self ≠ [] →
   step self observation action reward_ext done agent_info env_info = None).
Proof.
  unfold step. rewrite Hvf, Hfvt, Hcounts, Heps. split.
  - intros Hne.
    assert (Hall : is_Some (mapM (λ isp : nat * Sprite,
                     step_sprite (Length (base self)) done vf fvt (Some counts)
                       (Some eps) isp.1 isp.2) (imap pair (sprites self)))).
    { apply mapM_is_Some, Forall_forall. intros [i sp] _.
      unfold compose, step_sprite. cbn [fst snd].
      case_bool_decide as Hi; [|eexists; reflexivity].
      assert (Hi1 : (i < length fvt)%nat) by lia.
      assert (Hi2 : (i < length vf)%nat) by lia.
      assert (Hi3 : (i < length counts)%nat) by lia.
      destruct (lookup_lt_is_Some_2 fvt i Hi1) as [f ->].
      destruct (lookup_lt_is_Some_2 vf i Hi2) as [v ->].
      cbn [mbind option_bind]. destruct done; [|eexists; reflexivity].
      destruct (lookup_lt_is_Some_2 counts i Hi3) as [n ->].
      cbn [mbind option_bind].
      rewrite bool_decide_eq_false_2 by exact Hne. eexists. reflexivity. }
    destruct Hall as [sprites' ->]. eexists. reflexivity.
  - intros -> -> Hvf' Hsp'.
    destruct (sprites self) as [|sp sps]; [congruence|].
    destruct vf as [|v vf]; [congruence|].
    destruct fvt as [|f fvt]; [discriminate Hlen1|].
    destruct counts as [|n counts]; [discriminate Hlen2|].
    reflexivity.
Qed.

End WithTrajInfo.
End TrajFacts.

(** ** Random network distillation *)

Module RndFacts.
Import Rnd.

(** *** Prefixes and the not-done timesteps *)

Lemma Zsum_cons x l : Zsum (x :: l) = x + Zsum l.
Proof. reflexivity. Qed.



Lemma foldl_app_concat {A} (g : nat → list A) (a : list A) (l : list nat) :
  foldl (λ valid i, valid ++ g i) a l = a ++ concat (g <$> l).
Proof.
  revert a. induction l as [|i l IH]; intros a; simpl.
  - rewrite app_nil_r. reflexivity.
  - rewrite IH, app_assoc. reflexivity.
Qed.

Section WithTorch.
Context `{!Torch} {ObsRms RewRms Rff Handle : Type}
  `{!RunningMeanStd ObsRms Frame} `{!RunningMeanStd RewRms Q}
  `{!RewardForwardFilter Rff Handle}.

(** What column [b] contributes to the update of [obs_rms]. *)
Lemma valid_obs_prefixes (T B : nat) (obs_cpu : Tensor Frame)
    (done : Tensor bool) :
  B ≠ 0%nat →
  valid_obs T B obs_cpu done =
  Some (concat ((λ b, take (Z.to_nat (num_not_done T done b))
                        (column T obs_cpu b)) <$> seq 0 B)).
Proof.
  intros HB. unfold valid_obs. rewrite bool_decide_eq_false_2 by exact HB.
  destruct B as [|B']; [congruence|].
  rewrite (foldl_app_concat
             (λ i, take (Z.to_nat (num_not_done T done i)) (column T obs_cpu i))).
  replace (S B' - 1)%nat with B' by lia. reflexivity.
Qed.

Lemma stacked_mapM (obs : Batch) :
  stacked obs →
  is_Some (mapM (λ tb : nat * nat, last (frames obs tb.1 tb.2))
             (t ← seq 0 (T obs); pair t <$> seq 0 (B obs))).
Proof.
  intros Hst. apply mapM_is_Some_2, Forall_forall. intros [t b] Hin.
  apply list_elem_of_bind in Hin as (t' & Hb & Ht).
  apply list_elem_of_fmap in Hb as (b' & Heq & Hb).
  injection Heq as -> ->.
  apply elem_of_seq in Ht, Hb. simpl.
  apply last_is_Some, Hst; lia.
Qed.

(** The features of a batch, when they are computed. *)
Lemma features_Some (model : Sequential) (x : Tensor Frame) (T B : nat)
    (phi : Tensor (list Q)) :
  features model x T B = Some phi →
  phi = (λ t b, output model (x t b)) ∧ T ≠ 0%nat ∧ B ≠ 0%nat ∧
  ∀ t b, (t < T)%nat → (b < B)%nat → run model (x t b) = Some (phi t b).
Proof.
  unfold features. case_bool_decide as HTB; [discriminate|].
  destruct (mapM _ _) as [outputs|] eqn:Hall; [|discriminate].
  cbn [mbind option_bind]. intros [= <-].
  split; [reflexivity|]. split; [lia|]. split; [lia|].
  intros t b Ht Hb.
  assert (Hsome : is_Some (mapM (λ tb : nat * nat, run model (x tb.1 tb.2))
                             (t ← seq 0 T; pair t <$> seq 0 B)))
    by (rewrite Hall; eexists; reflexivity).
  apply mapM_is_Some in Hsome. rewrite Forall_forall in Hsome.
  destruct (Hsome (t, b)) as [out Hout].
  - apply list_elem_of_bind. exists t. split.
    + apply list_elem_of_fmap. exists b. split; [reflexivity|].
      apply elem_of_seq. lia.
    + apply elem_of_seq. lia.
  - cbn [fst snd] in Hout. unfold output. rewrite Hout. reflexivity.
Qed.

Lemma features_accepted (model : Sequential) (x : Tensor Frame) (T B : nat) :
  T ≠ 0%nat → B ≠ 0%nat →
  (∀ t b, (t < T)%nat → (b < B)%nat → is_Some (run model (x t b))) →
  features model x T B = Some (λ t b, output model (x t b)).
Proof.
  intros HT HB Hall. unfold features.
  rewrite bool_decide_eq_false_2 by nia.
  assert (Hsome : is_Some (mapM (λ tb : nat * nat, run model (x tb.1 tb.2))
                             (t ← seq 0 T; pair t <$> seq 0 B))).
  { apply mapM_is_Some, Forall_forall. intros [t b] Hin.
    apply list_elem_of_bind in Hin as (t' & Hb & Ht).
    apply list_elem_of_fmap in Hb as (b' & Heq & Hb).
    injection Heq as -> ->. apply elem_of_seq in Ht, Hb.
    unfold compose. cbn [fst snd]. apply Hall; lia. }
  destruct Hsome as [outputs ->]. reflexivity.
Qed.

Lemma features_empty (model : Sequential) (x : Tensor Frame) (T B : nat) :
  T = 0%nat ∨ B = 0%nat → features model x T B = None.
Proof.
  intros HTB. unfold features. rewrite bool_decide_eq_true_2 by nia.
  reflexivity.
Qed.

Lemma features_rejected (model : Sequential) (x : Tensor Frame) (T B : nat)
    (t b : nat) :
  (t < T)%nat → (b < B)%nat → run model (x t b) = None →
  features model x T B = None.
Proof.
  intros Ht Hb Hrun.
  destruct (features model x T B) as [phi|] eqn:Hf; [|reflexivity].
  apply features_Some in Hf as (_ & _ & _ & Hall).
  rewrite (Hall t b Ht Hb) in Hrun. discriminate Hrun.
Qed.

(** What [forward] returns, whenever it returns. *)
Lemma forward_Some (self self' : RND ObsRms RewRms Rff) (obs : Batch)
    (done : option (Tensor bool)) phi pred n :
  forward self obs done = Some (self', phi, pred, n) →
  n = T obs ∧ T obs ≠ 0%nat ∧ B obs ≠ 0%nat ∧
  phi = (λ t b, output (target_model self)
                  (normalize (obs_rms self) (last_frame obs t b))) ∧
  pred = (λ t b, output (forward_model self)
                   (normalize (obs_rms self) (last_frame obs t b))) ∧
  (∀ t b, (t < T obs)%nat → (b < B obs)%nat →
     frames obs t b ≠ [] ∧
     run (target_model self) (normalize (obs_rms self) (last_frame obs t b))
       = Some (phi t b) ∧
     run (forward_model self) (normalize (obs_rms self) (last_frame obs t b))
       = Some (pred t b)) ∧
  self' =
    match done with
    | Some done =>
        set_obs_rms self
          (update (obs_rms self)
             (concat ((λ b, take (Z.to_nat (num_not_done (T obs) done b))
                              (column (T obs) (last_frame obs) b))
                      <$> seq 0 (B obs))))
    | None => self
    end.
Proof.
  unfold forward. intros Hf.
  destruct (mapM _ _) as [l|] eqn:Hlast; [|discriminate].
  cbn [mbind option_bind] in Hf. fold (last_frame obs) in Hf.
  destruct (features (target_model self) _ _ _) as [phi0|] eqn:Hphi;
    [|discriminate].
  cbn [mbind option_bind] in Hf.
  destruct (features (forward_model self) _ _ _) as [pred0|] eqn:Hpred;
    [|discriminate].
  cbn [mbind option_bind] in Hf.
  apply features_Some in Hphi as (Hphi & HT & HB & Hruns).
  apply features_Some in Hpred as (Hpred & _ & _ & Hrunp).
  assert (Hst : ∀ t b, (t < T obs)%nat → (b < B obs)%nat →
                       frames obs t b ≠ []).
  { intros t b Ht Hb.
    assert (Hsome : is_Some (mapM (λ tb : nat * nat, last (frames obs tb.1 tb.2))
                               (t ← seq 0 (T obs); pair t <$> seq 0 (B obs))))
      by (rewrite Hlast; eexists; reflexivity).
    apply mapM_is_Some in Hsome. rewrite Forall_forall in Hsome.
    apply last_is_Some. apply (Hsome (t, b)).
    apply list_elem_of_bind. exists t. split.
    - apply list_elem_of_fmap. exists b. split; [reflexivity|].
      apply elem_of_seq. lia.
    - apply elem_of_seq. lia. }
  assert (Hself : self' = match done with
                          | Some done =>
                              set_obs_rms self
                                (update (obs_rms self)
                                   (concat ((λ b, take (Z.to_nat (num_not_done (T obs) done b))
                                                    (column (T obs) (last_frame obs) b))
                                            <$> seq 0 (B obs))))
                          | None => self
                          end
                  ∧ phi = phi0 ∧ pred = pred0 ∧ n = T obs).
  { destruct done as [done|].
    - rewrite (valid_obs_prefixes _ _ _ _ HB) in Hf.
      cbn [mbind option_bind] in Hf. injection Hf as <- <- <- <-.
      repeat split; reflexivity.
    - cbn [mbind option_bind] in Hf. injection Hf as <- <- <- <-.
      repeat split; reflexivity. }
  destruct Hself as (-> & -> & -> & ->).
  split; [reflexivity|]. split; [exact HT|]. split; [exact HB|].
  split; [exact Hphi|]. split; [exact Hpred|]. split; [|reflexivity].
  intros t b Ht Hb. split; [apply Hst; assumption|].
  split; [apply Hruns; assumption|apply Hrunp; assumption].
Qed.

(** [forward] on a batch it can work on, unfolded. *)
Lemma forward_accepted (self : RND ObsRms RewRms Rff) (obs : Batch)
    (done : option (Tensor bool)) :
  stacked obs → accepted self obs →
  forward self obs done =
  Some (match done with
        | Some done =>
            set_obs_rms self
              (update (obs_rms self)
                 (concat ((λ b, take (Z.to_nat (num_not_done (T obs) done b))
                                  (column (T obs) (last_frame obs) b))
                          <$> seq 0 (B obs))))
        | None => self
        end,
        λ t b, output (target_model self)
                 (normalize (obs_rms self) (last_frame obs t b)),
        λ t b, output (forward_model self)
                 (normalize (obs_rms self) (last_frame obs t b)),
        T obs).
Proof.
  intros Hst (HT & HB & Hruns). unfold forward.
  destruct (stacked_mapM obs Hst) as [l ->]. cbn [mbind option_bind].
  fold (last_frame obs).
  rewrite (features_accepted (target_model self) _ _ _ HT HB)
    by (intros t b Ht Hb; apply (Hruns t b Ht Hb)).
  cbn [mbind option_bind].
  rewrite (features_accepted (forward_model self) _ _ _ HT HB)
    by (intros t b Ht Hb; apply (Hruns t b Ht Hb)).
  cbn [mbind option_bind].
  destruct done as [done|]; [|reflexivity].
  rewrite (valid_obs_prefixes _ _ _ _ HB). reflexivity.
Qed.


(** [forward] raises on an empty batch, on an empty stack of frames and on
    a frame that one of the networks cannot take. *)
Lemma forward_raises (self : RND ObsRms RewRms Rff) (obs : Batch)
    (done : option (Tensor bool)) :
  (T obs = 0%nat ∨ B obs = 0%nat → forward self obs done = None) ∧
  (∀ t b, (t < T obs)%nat → (b < B obs)%nat →
     frames obs t b = [] ∨
     run (target_model self) (normalize (obs_rms self) (last_frame obs t b))
       = None ∨
     run (forward_model self) (normalize (obs_rms self) (last_frame obs t b))
       = None →
     forward self obs done = None).
Proof.
  split.
  - intros HTB.
    destruct (forward self obs done) as [[[[s1 phi] pred] n]|] eqn:Hf;
      [|reflexivity].
    apply forward_Some in Hf as (_ & HT & HB & _). lia.
  - intros t b Ht Hb Hbad.
    destruct (forward self obs done) as [[[[s1 phi] pred] n]|] eqn:Hf;
      [|reflexivity].
    apply forward_Some in Hf as (_ & _ & _ & _ & _ & Hall & _).
    destruct (Hall t b Ht Hb) as (Hst & Hphi & Hpred).
    destruct Hbad as [Hbad|[Hbad|Hbad]]; congruence.
Qed.

Lemma forward_target_model (self self' : RND ObsRms RewRms Rff) obs done
    phi pred n :
  forward self obs done = Some (self', phi, pred, n) →
  target_model self' = target_model self ∧
  phi = (λ t b, output (target_model self)
                  (normalize (obs_rms self) (last_frame obs t b))).
Proof.
  intros Hf. apply forward_Some in Hf as (_ & _ & _ & Hphi & _ & _ & ->).
  split; [|exact Hphi]. destruct done; reflexivity.
Qed.









Lemma compute_bonus_target_model (self self' : RND ObsRms RewRms Rff)
    obs done bonus :
  compute_bonus self obs done = Some (self', bonus) →
  target_model self' = target_model self ∧ obs_rms self' =
    match forward self obs (Some done) with
    | Some r => obs_rms r.1.1.1
    | None => obs_rms self
    end.
Proof.
  unfold compute_bonus. intros Hc.
  destruct (forward self obs (Some done)) as [[[[s1 phi] pred] n]|] eqn:Hf;
    [|discriminate].
  simpl in Hc. destruct (filter_rewards _ _) as [rff handles].
  injection Hc as <- _. simpl.
  apply forward_target_model in Hf as [-> _]. split; reflexivity.
Qed.

Lemma compute_loss_target_model (self self' : RND ObsRms RewRms Rff)
    obs valid rand loss :
  compute_loss self obs valid rand = Some (self', loss) →
  target_model self' = target_model self.
Proof.
  unfold compute_loss. intros Hc.
  destruct (forward self obs None) as [[[[s1 phi] pred] n]|] eqn:Hf;
    [|discriminate].
  simpl in Hc. injection Hc as <- _.
  apply forward_target_model in Hf as [-> _]. reflexivity.
Qed.

Lemma call_target_model (self self' : RND ObsRms RewRms Rff) (c : Call) :
  call self c = Some self' → target_model self' = target_model self.
Proof.
  destruct c as [obs done|obs done|obs valid rand]; simpl; intros Hc.
  - destruct (forward self obs done) as [[[[s1 phi] pred] n]|] eqn:Hf;
      [|discriminate].
    injection Hc as <-. simpl. apply forward_target_model in Hf as [-> _].
    reflexivity.
  - destruct (compute_bonus self obs done) as [[s1 bonus]|] eqn:Hf;
      [|discriminate].
    injection Hc as <-. simpl.
    apply compute_bonus_target_model in Hf as [-> _]. reflexivity.
  - destruct (compute_loss self obs valid rand) as [[s1 loss]|] eqn:Hf;
      [|discriminate].
    injection Hc as <-. simpl.
    apply compute_loss_target_model in Hf. exact Hf.
Qed.

Lemma calls_target_model (cs : list Call) (self self' : RND ObsRms RewRms Rff) :
  calls self cs = Some self' → target_model self' = target_model self.
Proof.
  revert self. induction cs as [|c cs IH]; intros self; simpl.
  - intros [= <-]. reflexivity.
  - destruct (call self c) as [s1|] eqn:Hc; [|discriminate]. simpl.
    intros Hcs. rewrite (IH _ Hcs). apply call_target_model in Hc. exact Hc.
Qed.

(** C9. In a freshly constructed module every parameter of [target_model]
    has [requires_grad] false.  No sequence of calls of [forward],
    [compute_bonus] and [compute_loss] changes [target_model]; so two calls
    of [forward] on the same observation, made when the observation
    statistics are the same, return the same target features. *)
Theorem target_model_is_fixed (obs_stats : option (Frame * Frame))
    (prediction_beta drop_probability gamma : Q) (device : string)
    (rng_f orth_f rng_t orth_t : nat → list Q)
    (cs1 cs2 : list Call) (self1 self2 : RND ObsRms RewRms Rff)
    (obs : Batch) (done1 done2 : option (Tensor bool))
    (H1 : calls (__init__ obs_stats prediction_beta drop_probability gamma
                   device rng_f orth_f rng_t orth_t) cs1 = Some self1)
    (H2 : calls self1 cs2 = Some self2)
    (Hrms : obs_rms self1 = obs_rms self2) :
  let self0 :=
    __init__ obs_stats prediction_beta drop_probability gamma device
      rng_f orth_f rng_t orth_t in
  Forall (λ p, requires_grad p = false) (parameters (target_model self0)) ∧
  target_model self1 = target_model self0 ∧
  target_model self2 = target_model self0 ∧
  ∀ r1 r2,
    forward self1 obs done1 = Some r1 →
    forward self2 obs done2 = Some r2 →
    target_model r1.1.1.1 = target_model self0 ∧
    target_model r2.1.1.1 = target_model self0 ∧
    ∀ t b, r1.1.1.2 t b = r2.1.1.2 t b.
Proof.
  intros self0.
  pose proof (calls_target_model _ _ _ H1) as Ht1.
  pose proof (calls_target_model _ _ _ H2) as Ht2.
  split; [|split; [exact Ht1|split; [rewrite Ht2; exact Ht1|]]].
  - unfold self0, __init__. simpl. repeat constructor.
  - intros [[[s1 phi1] pred1] n1] [[[s2 phi2] pred2] n2] Hf1 Hf2. simpl.
    apply forward_target_model in Hf1 as [Hs1 ->], Hf2 as [Hs2 ->].
    split; [rewrite Hs1; exact Ht1|].
    split; [rewrite Hs2, Ht2; exact Ht1|].
    intros t b. rewrite Ht2, Hrms. reflexivity.
Qed.

(** *** Sums of rationals *)

Lemma Qsum_cons x l : Qsum (x :: l) = (x + Qsum l)%Q.
Proof. reflexivity. Qed.

Lemma Qsum_nonneg l : Forall (λ x, (0 <= x)%Q) l → (0 <= Qsum l)%Q.
Proof.
  induction 1 as [|x l Hx _ IH]; [apply Qle_refl|].
  rewrite Qsum_cons. rewrite <- (Qplus_0_l 0). apply Qplus_le_compat; assumption.
Qed.

Lemma Qsquare_nonneg (q : Q) : (0 <= q * q)%Q.
Proof.
  destruct q as [n d]. unfold Qle, Qmult. simpl. rewrite Z.mul_1_r.
  apply Z.square_nonneg.
Qed.

Lemma mse_sum_nonneg a b : (0 <= mse_sum a b)%Q.
Proof.
  unfold mse_sum. apply Qsum_nonneg.
  revert b. induction a as [|x a IH]; intros [|y b]; simpl; try constructor.
  - apply Qsquare_nonneg.
  - apply IH.
Qed.

Lemma clamp_bounds lo hi x : (lo <= hi)%Q → (lo <= clamp lo hi x <= hi)%Q.
Proof.
  intros Hlh. unfold clamp. split.
  - apply Q.min_glb; [apply Q.le_max_r|exact Hlh].
  - apply Q.le_min_r.
Qed.

Lemma Forall_zip_with_all {A B C} (f : A → B → C) (P : C → Prop) l k :
  (∀ a b, P (f a b)) → Forall P (zip_with f l k).
Proof.
  intros Hf. revert k. induction l as [|a l IH]; intros [|b k]; simpl;
    constructor; [apply Hf|apply IH].
Qed.

(** A sum over the entries an indicator keeps. *)
Lemma Qsum_kept {X} (k : X → bool) (w w' : X → Q) (l : list X) :
  (∀ x, (w' x == if k x then w x else 0)%Q) →
  (Qsum (w' <$> l) == Qsum (w <$> filter (λ x, k x = true) l))%Q.
Proof.
  intros Hw. induction l as [|x l IH]; [reflexivity|].
  rewrite fmap_cons, Qsum_cons, filter_cons, IH, Hw.
  destruct (k x).
  - rewrite decide_True by reflexivity. rewrite fmap_cons, Qsum_cons.
    reflexivity.
  - rewrite decide_False by discriminate. apply Qplus_0_l.
Qed.

Lemma not_done_count (d : nat → bool) (ts : list nat) :
  Zsum ((λ t, abs_done_minus_1 (d t)) <$> ts)
  = Z.of_nat (length (filter (λ t, d t = false) ts)).
Proof.
  induction ts as [|t ts IH]; [reflexivity|].
  rewrite fmap_cons, Zsum_cons, IH, filter_cons. unfold abs_done_minus_1.
  destruct (d t).
  - rewrite decide_False by discriminate. reflexivity.
  - rewrite decide_True by reflexivity. simpl length. simpl Z.b2z. lia.
Qed.

Lemma filter_all_done (d : nat → bool) (ts : list nat) :
  (∀ t, t ∈ ts → d t = true) → filter (λ t, d t = false) ts = [].
Proof.
  induction ts as [|t ts IH]; intros Hall; [reflexivity|].
  rewrite filter_cons, decide_False.
  - apply IH. intros t' Ht'. apply Hall. right. exact Ht'.
  - rewrite (Hall t) by left. discriminate.
Qed.

Lemma concat_length_Zsum {A} (g : nat → list A) (n : nat → Z) (bs : list nat) :
  (∀ b, b ∈ bs → Z.of_nat (length (g b)) = n b) →
  Z.of_nat (length (concat (g <$> bs))) = Zsum (n <$> bs).
Proof.
  induction bs as [|b bs IH]; intros Hg; [reflexivity|].
  rewrite !fmap_cons, Zsum_cons. simpl concat. rewrite length_app.
  rewrite Nat2Z.inj_add, (Hg b) by left. rewrite IH; [reflexivity|].
  intros b' Hb'. apply Hg. right. exact Hb'.
Qed.

Lemma mapM_ext_in {A B} (f g : A → option B) l :
  (∀ x, x ∈ l → f x = g x) → mapM f l = mapM g l.
Proof.
  induction l as [|x l IH]; intros Hfg; [reflexivity|].
  simpl. rewrite (Hfg x) by left. rewrite IH; [reflexivity|].
  intros y Hy. apply Hfg. right. exact Hy.
Qed.

Lemma entries_elem T B t b :
  (t, b) ∈ entries T B ↔ (t < T)%nat ∧ (b < B)%nat.
Proof.
  unfold entries. rewrite list_elem_of_bind. split.
  - intros (t' & Hb & Ht). apply list_elem_of_fmap in Hb as (b' & Heq & Hb).
    injection Heq as -> ->. apply elem_of_seq in Ht, Hb. lia.
  - intros [Ht Hb]. exists t. split.
    + apply list_elem_of_fmap. exists b. split; [reflexivity|].
      apply elem_of_seq. lia.
    + apply elem_of_seq. lia.
Qed.

(** X20. Whatever the statistics and the frame, every entry of a normalized
    observation lies between -5 and 5, and the normalized frame is no
    larger than the frame. *)
Theorem normalize_is_clamped (rms : ObsRms) (obs : Frame) :
  Forall (Forall (λ x, (-5 <= x <= 5)%Q)) (normalize rms obs) ∧
  (length (normalize rms obs) ≤ length obs)%nat.
Proof.
  unfold normalize. split.
  - apply Forall_zip_with_all. intros row vrow.
    apply Forall_zip_with_all. intros x v.
    apply clamp_bounds. discriminate.
  - rewrite !length_zip_with. lia.
Qed.

(** X21. Computing the loss has no side effect on the module: [forward]
    without a [done] tensor, and [compute_loss] with it, leave the
    observation and reward statistics, the reward filter and both networks
    as they were.  The loss is computed on exactly the batches that are not
    empty, whose stacks all hold a frame and whose normalized frames both
    networks take; on every other batch [compute_loss] raises. *)
Theorem loss_leaves_the_module_alone (self : RND ObsRms RewRms Rff)
    (next_observations : Batch) (valid rand : Tensor Q) :
  (∀ self' loss,
     compute_loss self next_observations valid rand = Some (self', loss) →
     self' = self) ∧
  (∀ self' phi predicted_phi n,
     forward self next_observations None = Some (self', phi, predicted_phi, n) →
     self' = self ∧ n = T next_observations) ∧
  (is_Some (compute_loss self next_observations valid rand) ↔
   stacked next_observations ∧ accepted self next_observations) ∧
  (T next_observations = 0%nat ∨ B next_observations = 0%nat →
   compute_loss self next_observations valid rand = None).
Proof.
  assert (Hfw : ∀ self' phi predicted_phi n,
            forward self next_observations None
              = Some (self', phi, predicted_phi, n) →
            self' = self ∧ n = T next_observations).
  { intros self' phi pred n Hf.
    apply forward_Some in Hf as (-> & _ & _ & _ & _ & _ & ->).
    split; reflexivity. }
  assert (Hiff : is_Some (compute_loss self next_observations valid rand) ↔
                 stacked next_observations ∧ accepted self next_observations).
  { unfold compute_loss. split.
    - intros [r Hr].
      destruct (forward self next_observations None)
        as [[[[s1 phi] pred] n]|] eqn:Hf; [|discriminate Hr].
      apply forward_Some in Hf as (_ & HT & HB & _ & _ & Hall & _).
      split.
      + intros t b Ht Hb. apply (Hall t b Ht Hb).
      + split; [exact HT|]. split; [exact HB|].
        intros t b Ht Hb. destruct (Hall t b Ht Hb) as (_ & -> & ->).
        split; eexists; reflexivity.
    - intros [Hst Hacc].
      rewrite (forward_accepted self next_observations None Hst Hacc).
      cbn [mbind option_bind]. eexists. reflexivity. }
  split; [|split; [exact Hfw|split; [exact Hiff|]]].
  - intros self' loss. unfold compute_loss.
    destruct (forward self next_observations None)
      as [[[[s1 phi] pred] n]|] eqn:Hf; [|discriminate].
    cbn [mbind option_bind]. intros [= <- _].
    apply (Hfw _ _ _ _ eq_refl).
  - intros Hempty.
    apply eq_None_not_Some. intros Hsome.
    apply Hiff in Hsome as (_ & HT & HB & _). lia.
Qed.

(** *** Only the last frame of a stack is read *)

Lemma valid_obs_ext (T B : nat) (x y : Tensor Frame) (done : Tensor bool) :
  (∀ t b, (t < T)%nat → (b < B)%nat → x t b = y t b) →
  valid_obs T B x done = valid_obs T B y done.
Proof.
  intros Hxy. unfold valid_obs. case_bool_decide as HB; [reflexivity|].
  assert (Hcol : ∀ b, (b < B)%nat → column T x b = column T y b).
  { intros b Hb. unfold column. apply list_fmap_ext.
    intros i t Ht. apply lookup_seq in Ht as [-> Ht]. apply Hxy; lia. }
  rewrite !(foldl_app_concat
              (λ i, take (Z.to_nat (num_not_done T done i)) (column T _ i))).
  rewrite (Hcol 0%nat) by lia. do 3 f_equal.
  apply list_fmap_ext. intros i b Hb. apply lookup_seq in Hb as [-> Hb].
  rewrite Hcol by lia. reflexivity.
Qed.

Lemma forward_last_frames (self self1 : RND ObsRms RewRms Rff)
    (obs obs' : Batch) (done : option (Tensor bool)) phi1 pred1 n1 :
  T obs = T obs' → B obs = B obs' →
  (∀ t b, (t < T obs)%nat → (b < B obs)%nat →
          last (frames obs t b) = last (frames obs' t b)) →
  forward self obs done = Some (self1, phi1, pred1, n1) →
  ∃ phi2 pred2,
    forward self obs' done = Some (self1, phi2, pred2, n1) ∧
    ∀ t b, (t < T obs)%nat → (b < B obs)%nat →
           phi1 t b = phi2 t b ∧ pred1 t b = pred2 t b.
Proof.
  intros HT HB Hlast Hf.
  apply forward_Some in Hf as (-> & HT0 & HB0 & -> & -> & Hall & ->).
  assert (Hframe : ∀ t b, (t < T obs)%nat → (b < B obs)%nat →
            last_frame obs t b = last_frame obs' t b).
  { intros t b Ht Hb. unfold last_frame. rewrite (Hlast t b Ht Hb).
    reflexivity. }
  assert (Hst : stacked obs').
  { intros t b Ht Hb. rewrite <- HT in Ht. rewrite <- HB in Hb.
    destruct (Hall t b Ht Hb) as (Hne & _).
    apply last_is_Some. rewrite <- (Hlast t b Ht Hb).
    apply last_is_Some. exact Hne. }
  assert (Hacc : accepted self obs').
  { split; [rewrite <- HT; exact HT0|]. split; [rewrite <- HB; exact HB0|].
    intros t b Ht Hb. rewrite <- HT in Ht. rewrite <- HB in Hb.
    rewrite <- (Hframe t b Ht Hb).
    destruct (Hall t b Ht Hb) as (_ & -> & ->).
    split; eexists; reflexivity. }
  rewrite (forward_accepted self obs' done Hst Hacc).
  eexists _, _. split.
  - rewrite <- HT, <- HB.
    destruct done as [done|]; [|reflexivity].
    pose proof (valid_obs_ext (T obs) (B obs) (last_frame obs)
                  (last_frame obs') done Hframe) as Hvalid.
    rewrite !(valid_obs_prefixes _ _ _ _ HB0) in Hvalid.
    injection Hvalid as Hvalid. rewrite Hvalid. reflexivity.
  - intros t b Ht Hb. cbn beta. rewrite (Hframe t b Ht Hb).
    split; reflexivity.
Qed.

(** X22. Of a stack of frames [forward] reads the last one only: two batches
    of the same leading dimensions whose stacks end with the same frames
    give the same statistics update and, at every entry of the batch, the
    same target and predicted features. *)
Theorem forward_reads_the_last_frame (self : RND ObsRms RewRms Rff)
    (obs obs' : Batch) (done : option (Tensor bool))
    (HT : T obs = T obs') (HB : B obs = B obs')
    (Hlast : ∀ t b, (t < T obs)%nat → (b < B obs)%nat →
                    last (frames obs t b) = last (frames obs' t b)) :
  match forward self obs done, forward self obs' done with
  | Some (self1, phi1, pred1, n1), Some (self2, phi2, pred2, n2) =>
      self1 = self2 ∧ n1 = n2 ∧
      ∀ t b, (t < T obs)%nat → (b < B obs)%nat →
             phi1 t b = phi2 t b ∧ pred1 t b = pred2 t b
  | None, None => True
  | _, _ => False
  end.
Proof.
  destruct (forward self obs done) as [[[[self1 phi1] pred1] n1]|] eqn:Hf.
  - destruct (forward_last_frames self self1 obs obs' done phi1 pred1 n1
                HT HB Hlast Hf) as (phi2 & pred2 & -> & Hsame).
    split; [reflexivity|]. split; [reflexivity|]. exact Hsame.
  - destruct (forward self obs' done) as [[[[self2 phi2] pred2] n2]|] eqn:Hf';
      [|exact I].
    destruct (forward_last_frames self self2 obs' obs done phi2 pred2 n2
                (eq_sym HT) (eq_sym HB)) as (phi1 & pred1 & Hf1 & _).
    + intros t b Ht Hb. symmetry. apply Hlast.
      * rewrite HT. exact Ht.
      * rewrite HB. exact Hb.
    + exact Hf'.
    + rewrite Hf in Hf1. discriminate Hf1.
Qed.

(** X23. The loss is the mean error over the entries the mask keeps, weighted
    by [valid]: an entry is kept when its draw does not exceed
    [drop_probability], which is thus the probability of keeping an entry,
    not of dropping it. *)
Theorem loss_is_the_mean_over_kept_entries (self self' : RND ObsRms RewRms Rff)
    (next_observations : Batch) (valid rand : Tensor Q) (loss : Q)
    (Hloss : compute_loss self next_observations valid rand
             = Some (self', loss)) :
  let norm_obs t b :=
    normalize (obs_rms self) (last_frame next_observations t b) in
  let forward_loss (tb : nat * nat) :=
    (mse_sum (output (forward_model self) (norm_obs tb.1 tb.2))
       (output (target_model self) (norm_obs tb.1 tb.2))
     / inject_Z (feature_size self))%Q in
  let kept_entries :=
    filter (λ tb, kept (drop_probability self) rand tb = true)
      (entries (T next_observations) (B next_observations)) in
  (loss ==
   Qsum ((λ tb, forward_loss tb * valid tb.1 tb.2) <$> kept_entries)
   / Qsum ((λ tb : nat * nat, valid tb.1 tb.2) <$> kept_entries))%Q ∧
  (∀ tb, tb ∈ kept_entries ↔
         tb ∈ entries (T next_observations) (B next_observations) ∧
         (rand tb.1 tb.2 <= drop_probability self)%Q).
Proof.
  intros norm_obs forward_loss kept_entries. split.
  - unfold compute_loss in Hloss.
    destruct (forward self next_observations None)
      as [[[[s1 phi] pred] n]|] eqn:Hf; [|discriminate Hloss].
    apply forward_Some in Hf as (_ & _ & _ & -> & -> & _ & ->).
    cbn [mbind option_bind] in Hloss. injection Hloss as _ <-.
    fold (entries (T next_observations) (B next_observations)).
    unfold kept_entries.
    apply Qdiv_comp.
    + apply (Qsum_kept (kept (drop_probability self) rand)
               (λ tb, forward_loss tb * valid tb.1 tb.2)%Q).
      intros [t b]. unfold kept, forward_loss, norm_obs, last_frame.
      cbn [fst snd]. set (x := (mse_sum _ _ / _)%Q).
      destruct (Qle_bool (rand t b) (drop_probability self)); ring.
    + apply (Qsum_kept (kept (drop_probability self) rand)
               (λ tb : nat * nat, valid tb.1 tb.2)).
      intros [t b]. unfold kept. cbn [fst snd].
      destruct (Qle_bool (rand t b) (drop_probability self)); ring.
  - intros tb. unfold kept_entries. rewrite list_elem_of_filter.
    unfold kept. rewrite Qle_bool_iff. tauto.
Qed.

(** X24. The bonus is never negative: for a non-negative [prediction_beta],
    a positive [feature_size] and a positive root of the reward variance,
    every entry of what [compute_bonus] returns is at least 0. *)
Theorem bonus_is_not_negative (self self' : RND ObsRms RewRms Rff)
    (next_observation : Batch) (done : Tensor bool) (bonus : Tensor Q)
    (Hbonus : compute_bonus self next_observation done = Some (self', bonus))
    (Hbeta : (0 <= prediction_beta self)%Q)
    (Hsize : 0 < feature_size self)
    (Hroot : (0 < sqrt (var (rew_rms self')))%Q) :
  ∀ t b, (0 <= bonus t b)%Q.
Proof.
  unfold compute_bonus in Hbonus.
  destruct (forward self next_observation (Some done))
    as [[[[s1 phi] pred] n]|] eqn:Hf; [|discriminate Hbonus].
  cbn [mbind option_bind] in Hbonus.
  assert (Hs1 : prediction_beta s1 = prediction_beta self ∧
                feature_size s1 = feature_size self).
  { apply forward_Some in Hf as (_ & _ & _ & _ & _ & _ & ->).
    split; reflexivity. }
  destruct Hs1 as [Hb1 Hf1].
  destruct (filter_rewards _ _) as [rff handles].
  injection Hbonus as <- <-. intros t b.
  cbn [prediction_beta set_rew rew_rms] in Hroot |- *. rewrite Hb1, Hf1.
  apply Qmult_le_0_compat; [exact Hbeta|].
  apply Qmult_le_0_compat.
  - apply Qle_shift_div_l; [exact Hroot|]. rewrite Qmult_0_l.
    apply Qle_shift_div_l.
    + replace 0%Q with (inject_Z 0) by reflexivity.
      rewrite <- Zlt_Qlt. exact Hsize.
    + rewrite Qmult_0_l. apply mse_sum_nonneg.
  - replace 0%Q with (inject_Z 0) by reflexivity. rewrite <- Zle_Qle.
    unfold abs_done_minus_1. lia.
Qed.

(** X25. The statistics of the observations are updated with as many frames
    as there are entries not marked done: column by column, the number of
    its not-done timesteps.  A batch without environments raises. *)
Theorem valid_obs_counts_the_not_done (T B : nat) (obs_cpu : Tensor Frame)
    (done : Tensor bool) :
  (B = 0%nat → valid_obs T B obs_cpu done = None) ∧
  (B ≠ 0%nat →
   ∃ valid,
     valid_obs T B obs_cpu done = Some valid ∧
     Z.of_nat (length valid) = Zsum (num_not_done T done <$> seq 0 B) ∧
     ((∀ t b, (t < T)%nat → (b < B)%nat → done t b = true) → valid = [])) ∧
  (∀ b, num_not_done T done b
        = Z.of_nat (length (filter (λ t, done t b = false) (seq 0 T))) ∧
        0 ≤ num_not_done T done b ≤ Z.of_nat T).
Proof.
  assert (Hcount : ∀ b, num_not_done T done b
            = Z.of_nat (length (filter (λ t, done t b = false) (seq 0 T))) ∧
            0 ≤ num_not_done T done b ≤ Z.of_nat T).
  { intros b. unfold num_not_done.
    rewrite (not_done_count (λ t, done t b)). split; [reflexivity|].
    pose proof (length_filter (λ t, done t b = false) (seq 0 T)) as Hle.
    rewrite length_seq in Hle. lia. }
  split; [|split; [|exact Hcount]].
  - intros ->. reflexivity.
  - intros HB. rewrite (valid_obs_prefixes _ _ _ _ HB). eexists.
    split; [reflexivity|]. split.
    + apply concat_length_Zsum. intros b _.
      rewrite length_take. unfold column. rewrite length_fmap, length_seq.
      destruct (Hcount b) as [_ Hb]. lia.
    + intros Hall.
      assert (Hnil : ∀ b, b ∈ seq 0 B →
                take (Z.to_nat (num_not_done T done b)) (column T obs_cpu b) = []).
      { intros b Hb. apply elem_of_seq in Hb.
        destruct (Hcount b) as [Hn _]. rewrite Hn, filter_all_done.
        - reflexivity.
        - intros t Ht. apply elem_of_seq in Ht. apply Hall; lia. }
      induction (seq 0 B) as [|b bs IH]; [reflexivity|].
      rewrite fmap_cons. simpl concat. rewrite (Hnil b) by left.
      apply IH. intros b' Hb'. apply Hnil. right. exact Hb'.
Qed.

(** X26. What the constructor leaves in the two networks, whatever torch
    drew when it created the layers: every weight is the orthogonal matrix
    drawn for its module, every bias is zero, the predictor has twelve
    parameters that all require gradients and the target has eight. *)
Theorem constructor_initialises_the_networks
    (obs_stats : option (Frame * Frame))
    (prediction_beta drop_probability gamma : Q) (device : string)
    (rng_f orth_f rng_t orth_t : nat → list Q) :
  let self0 : RND ObsRms RewRms Rff :=
    __init__ obs_stats prediction_beta drop_probability gamma device
      rng_f orth_f rng_t orth_t in
  Forall (λ p, requires_grad p = true) (parameters (forward_model self0)) ∧
  length (parameters (forward_model self0)) = 12%nat ∧
  length (parameters (target_model self0)) = 8%nat ∧
  (∀ i l w, forward_model self0 !! i = Some l → weight_of l = Some w →
            data w = orth_f i) ∧
  (∀ i l w, target_model self0 !! i = Some l → weight_of l = Some w →
            data w = orth_t i) ∧
  (∀ l b, l ∈ forward_model self0 ++ target_model self0 →
          bias_of l = Some b → Forall (λ x, x = 0%Q) (data b)).
Proof.
  intros self0. unfold self0, __init__. cbn [forward_model target_model].
  split; [cbn; repeat constructor|].
  split; [reflexivity|]. split; [reflexivity|].
  assert (Hzero : ∀ l : list Q, Forall (λ x, x = 0%Q) ((λ _, 0%Q) <$> l)).
  { intros l. apply Forall_fmap, Forall_forall. intros x _. reflexivity. }
  split; [|split].
  - intros i l w Hl Hw.
    do 12 (destruct i as [|i];
           [injection Hl as <-; cbn in Hw;
            first [discriminate Hw|injection Hw as <-; reflexivity]|]).
    discriminate Hl.
  - intros i l w Hl Hw.
    do 8 (destruct i as [|i];
          [injection Hl as <-; cbn in Hw;
           first [discriminate Hw|injection Hw as <-; reflexivity]|]).
    discriminate Hl.
  - intros l b Hin Hb. cbn in Hin.
    repeat (apply elem_of_cons in Hin as [->|Hin];
            [cbn in Hb; first [discriminate Hb
                              |injection Hb as <-; apply Hzero]|]).
    apply elem_of_nil in Hin. destruct Hin.
Qed.

End WithTorch.

End RndFacts.

(** ** The definitions run on concrete data *)

Module Runs.
Import Examples.

(** *** The maze *)

Lemma level_0_made : Maze.make_game 0 = Some level_0.
Proof. vm_compute. reflexivity. Qed.

Lemma draw_in_range g : (draw g < length Maze.ROOMS_4)%nat.
Proof. unfold draw. rewrite MazeFacts.ROOMS_4_length. apply Nat.mod_upper_bound. lia. Qed.

(** The engine's frame counter is 0 after [its_showtime] and grows by one
    with every [play]. *)
Lemma maze_frame_its_showtime (g : Maze.Game) :
  Env.frame (Env.its_showtime g).1.1 = 0.
Proof.
  simpl. unfold Maze.its_showtime.
  destruct (MazeFacts.update_frame_total g None (draw g) (draw_in_range g))
    as [g' ->].
  reflexivity.
Qed.

Lemma maze_frame_play (g : Maze.Game) (action : Z) :
  Env.frame (Env.play g action).1.1 = Env.frame g + 1.
Proof.
  simpl. unfold Maze.play.
  destruct (MazeFacts.update_frame_total g (Some action) (draw g)
              (draw_in_range g)) as [g' ->].
  reflexivity.
Qed.

Lemma white_noise_stays_in_room_4_witness :
  ∃ g', Maze.play level_0 0 3 = Some g' ∧
        Maze.position (Maze.b g') ∈ Maze.ROOMS_4.
Proof.
  destruct (MazeFacts.white_noise_stays_in_room_4 (Maze.b level_0) level_0 0 3
              ltac:(vm_compute; lia))
    as (_ & _ & _ & g' & Hplay & _ & Hin).
  exists g'. split; [exact Hplay|exact Hin].
Defined.

Lemma opened_made : Maze.its_showtime level_0 3 = Some opened.
Proof. vm_compute. reflexivity. Qed.

Lemma above_exit_made : Maze.play_all opened walk_around = Some above_exit.
Proof. vm_compute. reflexivity. Qed.

Lemma moveable_object_update_witness :
  (∃ e1 P2,
     Maze.MoveableObject_update (Maze.e above_exit) (Maze.render above_exit)
       (Maze.PlayerSprite_update (Maze.P above_exit) (Some 1)
          (Maze.render above_exit)).1 = Some (e1, P2) ∧
     e1 = Maze.e above_exit ∧
     Maze.position (Maze.walker P2) = (2, 9)) ∧
  Maze.in_room_2 (Maze.position (Maze.e above_exit)) = true.
Proof.
  destruct (MazeFacts.moveable_object_update (Maze.P above_exit)
              (Maze.e above_exit) (Maze.render above_exit) (Some 1) Maze.Down
              eq_refl
              ltac:(vm_compute; intros H; discriminate H)
              ltac:(vm_compute; intros H; discriminate H))
    as [(e1 & P2 & Hupd & _ & Hblocked & _) Hroom].
  split.
  - exists e1, P2. split; [exact Hupd|].
    apply Hblocked; [split; reflexivity|reflexivity].
  - apply (Hroom level_0 3%nat opened walk_around above_exit
             level_0_made opened_made above_exit_made).
Defined.

(** *** The environment *)

Ltac by_running := apply (bool_decide_unpack _); vm_compute; exact I.

Lemma Some_outcome (o : option (Env.PyColabEnv Maze.Game * Env.StepResult)) :
  is_Some o →
  o = Some ((outcome o).1,
            ((outcome o).2.1.1.1, returned_reward (outcome o),
             returned_flag (outcome o), (outcome o).2.2)).
Proof. intros [[env [[[st reward] done] info]] ->]. reflexivity. Qed.

Lemma constructed_made cfg :
  is_Some (Env.__init__ cfg level_0) →
  Env.__init__ cfg level_0 = Some (constructed cfg).
Proof. unfold constructed. intros [env ->]. reflexivity. Qed.

Lemma started_made cfg :
  is_Some (Env.reset (constructed cfg) level_0 no_noise) →
  ∃ st, Env.reset (constructed cfg) level_0 no_noise = Some (started cfg, st).
Proof. unfold started. intros [[env st] ->]. exists st. reflexivity. Qed.

Lemma after_made cfg ops :
  is_Some (Env.run (started cfg) ops) →
  Env.run (started cfg) ops = Some ((after cfg ops).1, (after cfg ops).2).
Proof. unfold after. intros [[env rs] ->]. reflexivity. Qed.

(** With [mask_config] the fourth step up the corridor ends the episode:
    the object has come into view and the frame limit is reached.  The
    fifth step finds no game. *)
Lemma step_without_game_witness :
  let running := (after mask_config [up; up; up]).1 in
  let ended := (after mask_config [up; up; up; up]).1 in
  (∃ env',
     Env.step ended 0 no_noise =
     Some (env', (None, Env._last_reward ended, Env._game_over ended, ∅))) ∧
  returned_flag (outcome (Env.step running 0 no_noise)) = Some true ∧
  Env.current_game (outcome (Env.step running 0 no_noise)).1 = None.
Proof.
  intros running ended.
  pose proof (EnvFacts.step_without_game ended 0 no_noise) as [Hidle _].
  pose proof (EnvFacts.step_without_game running 0 no_noise) as [_ Hdone].
  split; [|split].
  - destruct (Hidle ltac:(vm_compute; reflexivity)) as (env' & Hstep & _).
    exists env'. exact Hstep.
  - vm_compute. reflexivity.
  - pose proof (Some_outcome (Env.step running 0 no_noise) ltac:(by_running))
      as Hstep.
    assert (Hflag : returned_flag (outcome (Env.step running 0 no_noise))
                    = Some true) by (vm_compute; reflexivity).
    rewrite Hflag in Hstep. apply (Hdone _ _ _ _ Hstep).
Defined.

(** With [mask_config] the fourth step up the corridor brings the goal
    character 'e' into the cropped observation: the reward is the
    extrinsic reward 1. *)
Lemma step_reward_witness :
  returned_reward
    (outcome (Env.step (after mask_config [up; up; up]).1 0 no_noise))
  = Some 1%Q.
Proof.
  pose proof (Some_outcome
                (Env.step (after mask_config [up; up; up]).1 0 no_noise)
                ltac:(by_running)) as Hstep.
  destruct (EnvFacts.step_reward (after mask_config [up; up; up]).1 _ 0
              no_noise
              (default empty_game
                 (Env.current_game (after mask_config [up; up; up]).1))
              ("P"%char, Env.GoalChar "e") _ _ _ _
              ltac:(vm_compute; reflexivity) ltac:(vm_compute; reflexivity)
              Hstep)
    as (_ & _ & Hvisible & _).
  apply Hvisible; [|vm_compute; reflexivity].
  exists "e"%char. split; [reflexivity|].
  split; [by_running|]. split; [discriminate|]. split; [by_running|].
  vm_compute. reflexivity.
Defined.

(** The fourth step up the corridor brings the goal character 'e' into the
    cropped observation.  With RGB observations and the extrinsic reward
    at its default 0.0, the reward reported is the default reward -1/100,
    not the extrinsic reward.  With masks and an extrinsic reward of 1,
    the reward reported is the default reward 0 when 'e' is not one of
    the objects, and when 'e' is not one of the state layers; and so it is
    at the first step when the goal character is the blank, which is in
    every cropped observation. *)
Lemma step_reward_counterexample :
  (Env.obs_type (Env.config (before_sight rgb_config)) = "rgb" ∧
   Env.extrinsic_reward_spec (Env.config (before_sight rgb_config))
     = Some ("P"%char, Env.GoalChar "e") ∧
   ("e"%char ∈ Env.objects (Env.config (before_sight rgb_config))) ∧
   ("e"%char ∈
      Env.state_layer_chars (Env.config (before_sight rgb_config))) ∧
   Env.visible "e" (Env.processed (before_sight rgb_config) up) = true ∧
   is_Some (Env.step (before_sight rgb_config) 0 no_noise) ∧
   returned_reward (outcome (Env.step (before_sight rgb_config) 0 no_noise))
     = Some (-1 # 100)%Q ∧
   returned_reward (outcome (Env.step (before_sight rgb_config) 0 no_noise))
     ≠ Some (Env.extrinsic_reward (Env.config (before_sight rgb_config)))) ∧
  (Env.obs_type (Env.config (before_sight unobjected_config)) = "mask" ∧
   Env.extrinsic_reward_spec (Env.config (before_sight unobjected_config))
     = Some ("P"%char, Env.GoalChar "e") ∧
   ("e"%char ∉ Env.objects (Env.config (before_sight unobjected_config))) ∧
   ("e"%char ∈
      Env.state_layer_chars (Env.config (before_sight unobjected_config))) ∧
   Env.visible "e" (Env.processed (before_sight unobjected_config) up) = true ∧
   is_Some (Env.step (before_sight unobjected_config) 0 no_noise) ∧
   returned_reward (outcome (Env.step (before_sight unobjected_config) 0 no_noise))
     = Some 0%Q ∧
   returned_reward (outcome (Env.step (before_sight unobjected_config) 0 no_noise))
     ≠ Some (Env.extrinsic_reward (Env.config (before_sight unobjected_config)))) ∧
  (Env.obs_type (Env.config (before_sight unlisted_config)) = "mask" ∧
   Env.extrinsic_reward_spec (Env.config (before_sight unlisted_config))
     = Some ("P"%char, Env.GoalChar "e") ∧
   ("e"%char ∈ Env.objects (Env.config (before_sight unlisted_config))) ∧
   ("e"%char ∉
      Env.state_layer_chars (Env.config (before_sight unlisted_config))) ∧
   Env.visible "e" (Env.processed (before_sight unlisted_config) up) = true ∧
   is_Some (Env.step (before_sight unlisted_config) 0 no_noise) ∧
   returned_reward (outcome (Env.step (before_sight unlisted_config) 0 no_noise))
     = Some 0%Q ∧
   returned_reward (outcome (Env.step (before_sight unlisted_config) 0 no_noise))
     ≠ Some (Env.extrinsic_reward (Env.config (before_sight unlisted_config)))) ∧
  (Env.obs_type (Env.config (started blank_goal_config)) = "mask" ∧
   Env.extrinsic_reward_spec (Env.config (started blank_goal_config))
     = Some ("P"%char, Env.GoalChar " ") ∧
   (" "%char ∈ Env.objects (Env.config (started blank_goal_config))) ∧
   (" "%char ∈
      Env.state_layer_chars (Env.config (started blank_goal_config))) ∧
   Env.visible " " (Env.processed (started blank_goal_config) up) = true ∧
   is_Some (Env.step (started blank_goal_config) 0 no_noise) ∧
   returned_reward (outcome (Env.step (started blank_goal_config) 0 no_noise))
     = Some 0%Q ∧
   returned_reward (outcome (Env.step (started blank_goal_config) 0 no_noise))
     ≠ Some (Env.extrinsic_reward (Env.config (started blank_goal_config)))).
Proof.
  split; [|split; [|split]].
  - split; [vm_compute; reflexivity|].
    split; [vm_compute; reflexivity|]. split; [by_running|].
    split; [by_running|].
    split; [vm_compute; reflexivity|]. split; [by_running|].
    split; [vm_compute; reflexivity|]. vm_compute. discriminate.
  - split; [vm_compute; reflexivity|].
    split; [vm_compute; reflexivity|]. split; [by_running|].
    split; [by_running|].
    split; [vm_compute; reflexivity|]. split; [by_running|].
    split; [vm_compute; reflexivity|]. vm_compute. discriminate.
  - split; [vm_compute; reflexivity|].
    split; [vm_compute; reflexivity|]. split; [by_running|].
    split; [by_running|].
    split; [vm_compute; reflexivity|]. split; [by_running|].
    split; [vm_compute; reflexivity|]. vm_compute. discriminate.
  - split; [vm_compute; reflexivity|].
    split; [vm_compute; reflexivity|]. split; [by_running|].
    split; [by_running|].
    split; [vm_compute; reflexivity|]. split; [by_running|].
    split; [vm_compute; reflexivity|]. vm_compute. discriminate.
Qed.

Lemma finished_made cfg ops :
  is_Some (Env.run (constructed cfg) ops) →
  Env.run (constructed cfg) ops = Some ((finished cfg ops).1, (finished cfg ops).2).
Proof. unfold finished. intros [[env rs] ->]. reflexivity. Qed.

(** In one episode the object 'e' is in the cropped observation of one
    update, the fourth step.  When 'e' is not one of the state layers its
    count stays 0; when it is listed twice its count is 2, and the
    [reset] that follows adds 2 to its episodes; with an observation type
    that is neither ['mask'] nor ['rgb'] its count stays 0.  The blank is
    in the cropped observation of all five updates, and its count stays
    0. *)
Lemma visitation_counters_counterexample :
  (("e"%char ∈ Env.objects unlisted_config) ∧
   Env.obs_type unlisted_config = "mask" ∧
   is_Some (Env.run (constructed unlisted_config) one_episode) ∧
   Env.visits "e"
     (Env.current_episode
        (Env.episodes_of
           (Env.history (constructed unlisted_config) one_episode) [])) = 1 ∧
   Env.visitation_frequency (finished unlisted_config one_episode).1
     !! "e"%char = Some 0) ∧
  (("e"%char ∈ Env.objects twice_config) ∧
   Env.obs_type twice_config = "mask" ∧
   is_Some (Env.run (constructed twice_config) two_episodes) ∧
   Env.visits "e"
     (Env.current_episode
        (Env.episodes_of
           (Env.history (constructed twice_config) one_episode) [])) = 1 ∧
   Env.visitation_frequency (finished twice_config one_episode).1
     !! "e"%char = Some 2 ∧
   Env.episodes_visited "e"
     (Env.episodes_of
        (Env.history (constructed twice_config) two_episodes) []) = 1 ∧
   Env.num_obj_eps (finished twice_config two_episodes).1
     !! "e"%char = Some 2) ∧
  (("e"%char ∈ Env.objects board_config) ∧
   ("e"%char ∈ Env.state_layer_chars board_config) ∧
   Env.obs_type board_config = "board" ∧
   is_Some (Env.run (constructed board_config) one_episode) ∧
   Env.visits "e"
     (Env.current_episode
        (Env.episodes_of
           (Env.history (constructed board_config) one_episode) [])) = 1 ∧
   Env.visitation_frequency (finished board_config one_episode).1
     !! "e"%char = Some 0) ∧
  ((" "%char ∈ Env.objects blank_goal_config) ∧
   (" "%char ∈ Env.state_layer_chars blank_goal_config) ∧
   Env.obs_type blank_goal_config = "mask" ∧
   is_Some (Env.run (constructed blank_goal_config) one_episode) ∧
   Env.visits " "
     (Env.current_episode
        (Env.episodes_of
           (Env.history (constructed blank_goal_config) one_episode) [])) = 5 ∧
   Env.visitation_frequency (finished blank_goal_config one_episode).1
     !! " "%char = Some 0).
Proof.
  split; [|split; [|split]].
  - split; [by_running|]. split; [reflexivity|]. split; [by_running|].
    split; vm_compute; reflexivity.
  - split; [by_running|]. split; [reflexivity|]. split; [by_running|].
    split; [vm_compute; reflexivity|]. split; [vm_compute; reflexivity|].
    split; vm_compute; reflexivity.
  - split; [by_running|]. split; [by_running|]. split; [reflexivity|].
    split; [by_running|]. split; vm_compute; reflexivity.
  - split; [by_running|]. split; [by_running|]. split; [reflexivity|].
    split; [by_running|]. split; vm_compute; reflexivity.
Qed.

(** Two episodes with [mask_config]: the object 'e' is on the board from
    the start but comes into the cropped observation at the fourth step
    only; the second [reset] counts that episode and starts the count
    again. *)
Lemma visitation_counters_witness :
  let eps :=
    Env.episodes_of (Env.history (constructed mask_config) two_episodes) [] in
  let first :=
    Env.episodes_of (Env.history (constructed mask_config) one_episode) [] in
  Env.visible "e" (Some (Env.its_showtime level_0).1.2) = true ∧
  Env.visible "e"
    (Env.processed (constructed mask_config) (Env.OpReset level_0 no_noise))
    = false ∧
  Env.visitation_frequency (finished mask_config one_episode).1 !! "e"%char
    = Some (Env.visits "e" (Env.current_episode first)) ∧
  Env.visits "e" (Env.current_episode first) = 1 ∧
  Env.visitation_frequency (finished mask_config two_episodes).1 !! "e"%char
    = Some (Env.visits "e" (Env.current_episode eps)) ∧
  Env.visits "e" (Env.current_episode eps) = 0 ∧
  Env.num_obj_eps (finished mask_config two_episodes).1 !! "e"%char
    = Some (Env.episodes_visited "e" eps) ∧
  Env.episodes_visited "e" eps = 1.
Proof.
  intros eps first.
  destruct (EnvFacts.visitation_counters mask_config "e" level_0
              (constructed mask_config) (finished mask_config one_episode).1
              one_episode (finished mask_config one_episode).2
              ltac:(by_running)
              (constructed_made mask_config ltac:(by_running))
              (finished_made mask_config one_episode ltac:(by_running)))
    as (_ & _ & _ & Hj & Hk & _ & Hfirst).
  destruct (EnvFacts.visitation_counters mask_config "e" level_0
              (constructed mask_config) (finished mask_config two_episodes).1
              two_episodes (finished mask_config two_episodes).2
              ltac:(by_running)
              (constructed_made mask_config ltac:(by_running))
              (finished_made mask_config two_episodes ltac:(by_running)))
    as (_ & _ & _ & _ & _ & _ & Hboth).
  assert (Hone : Env.visit_weight mask_config "e" = 1).
  { apply Hk; [discriminate|by_running|by_running|left; reflexivity]. }
  assert (Hobj : Env.times_listed "e" (Env.objects mask_config) = 1).
  { apply Hj. by_running. }
  destruct (Hfirst Hone Hobj) as [Hvf1 _].
  destruct (Hboth Hone Hobj) as [Hvf2 Hnum2].
  split; [vm_compute; reflexivity|]. split; [vm_compute; reflexivity|].
  split; [exact Hvf1|]. split; [vm_compute; reflexivity|].
  split; [exact Hvf2|]. split; [vm_compute; reflexivity|].
  split; [exact Hnum2|]. vm_compute. reflexivity.
Defined.

Lemma corridor_view_made :
  Env._last_cropped_observations corridor_env = Some corridor_view.
Proof.
  unfold corridor_view.
  assert (Hsome : is_Some (Env._last_cropped_observations corridor_env))
    by by_running.
  destruct Hsome as [o ->]. reflexivity.
Qed.

Lemma corridor_image_made :
  Env._paint_board corridor_env (Env.layers corridor_view) true no_noise
  = Some corridor_image.
Proof.
  unfold corridor_image.
  assert (Hsome : is_Some (Env._paint_board corridor_env
                             (Env.layers corridor_view) true no_noise))
    by by_running.
  destruct Hsome as [img ->]. reflexivity.
Qed.

(** After four steps up the corridor the object 'e' is at the top of the
    cropped observation, two cells above the player: the cell is painted
    with the colour of 'e', the layer of the player, which comes first in
    the render order, not covering it. *)
Lemma paint_board_cell_witness :
  ∃ colors above key below,
    Env._colors corridor_env = Some colors ∧
    Env.shape corridor_image = (5, 5)%nat ∧
    Env.cell (Env.obs_board corridor_view) 0 2 = Some "e"%char ∧
    Env._render_order corridor_env = above ++ key :: below ∧
    Forall (λ k, Env.mask_at (Env.layers corridor_view !!! k) 0 2 = false)
      above ∧
    Env.mask_at (Env.layers corridor_view !!! key) 0 2 = true ∧
    Env.pixel corridor_image 0 2 = default (0, 0, 0) (colors !! key) ∧
    Env.pixel corridor_image 0 2 = (250, 0, 129) ∧
    Env.pixel corridor_image 2 2 = (255, 255, 255).
Proof.
  destruct (EnvFacts.paint_board_cell corridor_env corridor_view true no_noise
              corridor_image corridor_view_made
              (EnvFacts.rendered_cells_rendered (Env._render_order corridor_env)
                 corridor_view ltac:(by_running))
              ltac:(intros i r c; unfold no_noise; lia)
              corridor_image_made)
    as (colors & Hcolors & Hshape & Hcells & _).
  destruct (Hcells 0%nat 2%nat "e"%char ltac:(vm_compute; reflexivity))
    as (above & key & below & Horder & Habove & Hkey & Hplain & _).
  exists colors, above, key, below.
  split; [exact Hcolors|]. split; [rewrite Hshape; vm_compute; reflexivity|].
  split; [vm_compute; reflexivity|]. split; [exact Horder|].
  split; [exact Habove|]. split; [exact Hkey|]. split.
  - apply Hplain. intros ->.
    assert (Hnot : "@"%char ∉ Env._render_order corridor_env) by by_running.
    apply Hnot. rewrite Horder. apply elem_of_app. right. left.
  - split; vm_compute; reflexivity.
Defined.

Lemma episodes_are_bounded_witness :
  ∃ i r,
    (after mask_config [up; up; up; up]).2 !! i = Some r ∧
    Env.returned_done r = true ∧ Z.of_nat i < 4.
Proof.
  destruct (started_made mask_config ltac:(by_running)) as [st Hreset].
  destruct (EnvFacts.episodes_are_bounded maze_frame_its_showtime
              maze_frame_play mask_config level_0 level_0
              (constructed mask_config) (constructed mask_config)
              (started mask_config) (after mask_config [up; up; up; up]).1
              [] [up; up; up; up] no_noise []
              (after mask_config [up; up; up; up]).2 st
              (constructed_made mask_config ltac:(by_running))
              eq_refl Hreset
              ltac:(repeat constructor)
              ltac:(vm_compute; discriminate)
              (after_made mask_config [up; up; up; up] ltac:(by_running)))
    as (_ & _ & i & r & Hi & Hr & Hb).
  exists i, r. split; [exact Hi|]. split; [exact Hr|exact Hb].
Defined.

(** *** Random network distillation *)

Lemma two_steps_stacked : Rnd.stacked two_steps.
Proof. intros t b _ _. discriminate. Qed.

(** The stand-in networks take every frame. *)
Lemma toy_accepted (self : Rnd.RND (Stats Q) (Stats Q) (option (list Q) * Q))
    (obs : Rnd.Batch) :
  Rnd.T obs ≠ 0%nat → Rnd.B obs ≠ 0%nat → Rnd.accepted self obs.
Proof.
  intros HT HB. split; [exact HT|]. split; [exact HB|].
  intros t b _ _. split; eexists; reflexivity.
Qed.




Lemma target_model_is_fixed_witness :
  ∃ self1 self2,
    Rnd.calls (Handle := list Q) toy_rnd
      [Rnd.CallBonus two_steps done_last] = Some self1 ∧
    Rnd.calls (Handle := list Q) self1
      [Rnd.CallLoss two_steps (λ _ _, 1%Q) (λ _ _, 0%Q)] = Some self2 ∧
    Rnd.target_model self2 = Rnd.target_model toy_rnd ∧
    Forall (λ p, Rnd.requires_grad p = false)
      (Rnd.parameters (Rnd.target_model self2)).
Proof.
  assert (H1 : is_Some (Rnd.calls (Handle := list Q) toy_rnd
                          [Rnd.CallBonus two_steps done_last])).
  { apply (bool_decide_unpack _). vm_compute. exact I. }
  destruct H1 as [self1 H1].
  assert (H2 : Rnd.calls (Handle := list Q) self1
                 [Rnd.CallLoss two_steps (λ _ _, 1%Q) (λ _ _, 0%Q)]
               = Some self1).
  { unfold Rnd.calls, Rnd.call, Rnd.compute_loss.
    rewrite (RndFacts.forward_accepted self1 two_steps None two_steps_stacked
               (toy_accepted _ two_steps ltac:(simpl; lia) ltac:(simpl; lia))).
    reflexivity. }
  exists self1, self1. split; [exact H1|]. split; [exact H2|].
  destruct (RndFacts.target_model_is_fixed (Handle := list Q) None 1%Q 1%Q
              (99 # 100)%Q "cpu" (λ _, [0%Q]) (λ i, [inject_Z (Z.of_nat i)])
              (λ _, [0%Q]) (λ i, [(1 # 2)%Q])
              [Rnd.CallBonus two_steps done_last]
              [Rnd.CallLoss two_steps (λ _ _, 1%Q) (λ _ _, 0%Q)]
              self1 self1 two_steps None None H1 H2 eq_refl)
    as (Hfrozen & Hsame & _).
  split; [exact Hsame|]. rewrite Hsame. exact Hfrozen.
Defined.

(** *** More runs of the maze *)

Lemma sprites_keep_apart_witness :
  Maze.position (Maze.walker (Maze.P above_exit))
    ≠ Maze.position (Maze.e above_exit) ∧
  Maze.position (Maze.b above_exit) ≠ Maze.position (Maze.e above_exit).
Proof.
  exact (MazeFacts.sprites_keep_apart level_0 opened above_exit 3%nat
           walk_around level_0_made opened_made above_exit_made).
Defined.

Lemma player_stays_on_floor_witness :
  board_at (Maze.backdrop above_exit)
    (Maze.position (Maze.walker (Maze.P above_exit))) = Some " "%char.
Proof.
  destruct (MazeFacts.player_stays_on_floor level_0 opened above_exit 3%nat
              walk_around level_0_made opened_made above_exit_made)
    as (Hfloor & _).
  exact Hfloor.
Defined.

Lemma game_ends_only_by_quit_witness :
  Maze.game_over above_exit = false ∧
  ∃ g', Maze.play above_exit 5 3 = Some g' ∧ Maze.game_over g' = true.
Proof.
  destruct (MazeFacts.game_ends_only_by_quit level_0 opened above_exit 3%nat
              walk_around level_0_made opened_made above_exit_made
              ltac:(repeat constructor; discriminate))
    as [Hrunning Hnext].
  split; [exact Hrunning|].
  destruct (MazeFacts.update_frame_total above_exit (Some 5) 3
              ltac:(vm_compute; lia)) as [g1 Hg1].
  eexists. split.
  - unfold Maze.play. rewrite Hg1. reflexivity.
  - apply (Hnext 5 3%nat).
    + unfold Maze.play. rewrite Hg1. reflexivity.
    + reflexivity.
Defined.

(** *** The environment *)

Lemma step_before_reset_witness :
  ∃ env',
    Env.step (constructed mask_config) 0 no_noise
      = Some (env', (None, None, Some false, ∅)).
Proof.
  destruct (EnvFacts.step_before_reset mask_config level_0
              (constructed mask_config) 0 no_noise
              (constructed_made mask_config ltac:(by_running)))
    as (env' & Hstep & _).
  exists env'. exact Hstep.
Defined.

Lemma episodes_count_resets_witness :
  ∃ env results,
    Env.run (constructed mask_config) two_episodes = Some (env, results) ∧
    Env.episodes env = 2.
Proof.
  assert (Hrun : is_Some (Env.run (constructed mask_config) two_episodes))
    by by_running.
  destruct Hrun as [[env results] Hrun].
  exists env, results. split; [exact Hrun|].
  apply (EnvFacts.episodes_count_resets mask_config level_0
           (constructed mask_config) env two_episodes results
           (constructed_made mask_config ltac:(by_running)) Hrun).
Defined.

Lemma counters_keep_their_keys_witness :
  ∃ env results,
    Env.run (constructed mask_config) two_episodes = Some (env, results) ∧
    is_Some (Env.visitation_frequency env !! "b"%char) ∧
    ¬ is_Some (Env.visitation_frequency env !! "P"%char).
Proof.
  assert (Hrun : is_Some (Env.run (constructed mask_config) two_episodes))
    by by_running.
  destruct Hrun as [[env results] Hrun].
  exists env, results. split; [exact Hrun|].
  destruct (EnvFacts.counters_keep_their_keys mask_config level_0
              (constructed mask_config) env two_episodes results
              (constructed_made mask_config ltac:(by_running)) Hrun)
    as (Hkeys & _).
  split.
  - apply Hkeys. by_running.
  - intros HP. apply Hkeys in HP. revert HP. by_running.
Defined.

Lemma first_visit_time_is_never_written_witness :
  ∃ env results,
    Env.run (constructed mask_config) two_episodes = Some (env, results) ∧
    Env.first_visit_time env !! "e"%char = Some 500.
Proof.
  assert (Hrun : is_Some (Env.run (constructed mask_config) two_episodes))
    by by_running.
  destruct Hrun as [[env results] Hrun].
  exists env, results. split; [exact Hrun|].
  destruct (EnvFacts.first_visit_time_is_never_written mask_config level_0
              (constructed mask_config) env two_episodes results
              (constructed_made mask_config ltac:(by_running)) Hrun)
    as (_ & H500 & _).
  apply H500. by_running.
Defined.

Lemma paint_board_first_layer_wins_witness :
  ∃ img,
    Env._paint_board noise_env noise_layers false sevens = Some img ∧
    Env.pixel img 0 0 = (255, 255, 255).
Proof.
  destruct (EnvFacts.paint_board_first_layer_wins noise_env noise_layers false
              sevens _ eq_refl)
    as (colors & observed & Hcolors & _ & _ & Hcovered & _).
  eexists. split; [reflexivity|].
  injection Hcolors as <-.
  apply (Hcovered [] "P"%char ["@"%char] 0%nat 0%nat eq_refl);
    [constructor|reflexivity].
Defined.

Lemma render_order_of_constructor_witness :
  take 3 (Env._render_order (constructed mask_config)) = ["P"; "b"; "e"]%char ∧
  "#"%char ∈ Env._render_order (constructed mask_config).
Proof.
  destruct (EnvFacts.render_order_of_constructor mask_config level_0
              (constructed mask_config)
              (constructed_made mask_config ltac:(by_running)))
    as (Hsprites & Hall & _).
  split; [exact Hsprites|].
  apply Hall. left. by_running.
Defined.

Lemma rgb_reset_needs_cropper_and_palette_witness :
  Env.reset (constructed uncropped_config) level_0 no_noise = None.
Proof.
  destruct (EnvFacts.rgb_reset_needs_cropper_and_palette uncropped_config
              level_0 level_0 (constructed uncropped_config) no_noise
              (constructed_made uncropped_config ltac:(by_running))
              eq_refl ltac:(left; reflexivity))
    as [Hnone _].
  exact Hnone.
Defined.

Lemma fourth_made :
  Env.step third 0 no_noise =
  Some (fourth.1, (fourth.2.1.1.1, returned_reward fourth,
                   returned_flag fourth, fourth.2.2)).
Proof. apply Some_outcome. by_running. Qed.

Lemma third_running : Env.current_game third = Some (game_of third).
Proof. vm_compute. reflexivity. Qed.

Lemma step_info_reports_metrics_witness :
  fourth.2.2 !! "episodes"%string = Some (Env.InfoNumber 1) ∧
  fourth.2.2 !! "visitation_frequency"%string
    = Some (Env.InfoCounts (Env.visitation_frequency fourth.1)).
Proof.
  destruct (EnvFacts.step_info_reports_metrics third fourth.1 0 no_noise
              (game_of third) _ _ _ _ third_running fourth_made)
    as (Hvf & _ & _ & Hep & _ & _ & Hsame & _).
  split; [|exact Hvf].
  rewrite Hep, Hsame. vm_compute. reflexivity.
Defined.

Lemma step_reports_done_exactly_witness :
  returned_flag fourth = Some true ∧ Env.current_game fourth.1 = None.
Proof.
  destruct (EnvFacts.step_reports_done_exactly third fourth.1 0 no_noise
              (game_of third) _ _ _ _ third_running fourth_made)
    as (Hdone & Hdropped & _).
  assert (Hflag : returned_flag fourth = Some true).
  { rewrite Hdone. vm_compute. reflexivity. }
  split; [exact Hflag|apply Hdropped, Hflag].
Defined.

Lemma step_returns_state_witness :
  ∃ masks,
    fourth.2.1.1.1 = Some (Env.MaskState masks) ∧ length masks = 3%nat.
Proof.
  destruct (EnvFacts.step_returns_state third fourth.1 0 no_noise
              (game_of third) _ _ _ _ third_running fourth_made)
    as (_ & Hmask & _).
  eexists. split; [apply Hmask; reflexivity|].
  rewrite length_fmap. vm_compute. reflexivity.
Defined.

Lemma logged_made :
  Env._update_for_game_step (started logging_config)
    (player_view (observe (game_of (started logging_config)))) None no_noise
  = Some (updated logged).
Proof.
  unfold updated.
  assert (Hsome : is_Some logged) by by_running.
  destruct Hsome as [env Henv]. rewrite Henv. exact Henv.
Qed.

Lemma heatmap_counts_the_player_witness :
  Env.cell (Env.heatmap (started logging_config)) 9 9 = Some 1 ∧
  Env.cell (Env.heatmap (updated logged)) 9 9 = Some 2 ∧
  Env.cell (Env.heatmap (updated logged)) 9 8 = Some 0.
Proof.
  destruct (EnvFacts.heatmap_counts_the_player (started logging_config)
              (updated logged)
              (player_view (observe (game_of (started logging_config))))
              None no_noise (game_of (started logging_config)) 1
              ltac:(vm_compute; reflexivity) logged_made
              ltac:(by_running) ltac:(by_running)
              ltac:(vm_compute; reflexivity))
    as [Hlogging _].
  destruct (Hlogging eq_refl) as (Hcell & Hrest & _).
  split; [vm_compute; reflexivity|]. split.
  - exact Hcell.
  - rewrite (Hrest 9%nat 8%nat) by (vm_compute; discriminate).
    vm_compute. reflexivity.
Defined.


(** *** The trajectory record *)

Lemma first_visit_is_the_latest_sighting_witness :
  ∃ self' sp',
    Traj.steps Traj.__init__ sightings = Some self' ∧
    Traj.sprites self' !! 0%nat = Some sp' ∧
    Traj.first_visit sp' = 2.
Proof.
  assert (Hsteps : is_Some (Traj.steps Traj.__init__ sightings))
    by by_running.
  destruct Hsteps as [self' Hsteps].
  destruct (@TrajFacts.first_visit_is_the_latest_sighting Z unit unit unit
              counted_steps (λ s _ _ _ _ _ _, eq_refl)
              Traj.__init__ self' sightings 0%nat
              (Traj.mkSprite 0 500 0 0%Q) Hsteps eq_refl)
    as (sp' & Hsp' & _ & Hlatest).
  exists self', sp'. split; [exact Hsteps|]. split; [exact Hsp'|].
  apply (Hlatest [call_with false (seen 0); call_with false (seen 1)]
           (call_with false (seen 1))
           [call_with false (seen 2); call_with true (seen 2)] eq_refl eq_refl).
  repeat constructor.
Defined.

Lemma traj_step_copies_the_counts_witness :
  ∃ self' sp',
    Traj.step Traj.__init__ tt tt 0%Q true tt (seen 2) = Some self' ∧
    Traj.sprites self' !! 0%nat = Some sp' ∧
    Traj.visit_freq sp' = 2 ∧
    length (Traj.sprites self') = 8%nat.
Proof.
  assert (Hstep : is_Some (Traj.step Traj.__init__ tt tt 0%Q true tt (seen 2)))
    by by_running.
  destruct Hstep as [self' Hstep].
  destruct (TrajFacts.traj_step_copies_the_counts Traj.__init__ self' tt tt
              0%Q true tt (seen 2) Hstep)
    as (_ & Hlen & _ & Hsprite).
  destruct (Hsprite [2] [500] 0%nat (Traj.mkSprite 0 500 0 0%Q)
              eq_refl eq_refl eq_refl)
    as (sp' & Hsp' & _ & Hcounted).
  destruct (Hcounted ltac:(simpl; lia)) as (Hvf & _).
  exists self', sp'. split; [exact Hstep|]. split; [exact Hsp'|].
  split; [injection Hvf as <-; reflexivity|exact Hlen].
Defined.

Lemma traj_step_raises_on_zero_episodes_witness :
  Traj.step Traj.__init__ tt tt 0%Q true tt no_episode = None ∧
  is_Some (Traj.step Traj.__init__ tt tt 0%Q true tt (seen 1)).
Proof.
  split.
  - destruct (TrajFacts.traj_step_raises_on_zero_episodes Traj.__init__ tt tt
                0%Q true tt no_episode [1] [500] [0] 0
                eq_refl eq_refl eq_refl eq_refl eq_refl eq_refl)
      as [_ Hraises].
    apply Hraises; try reflexivity; discriminate.
  - destruct (TrajFacts.traj_step_raises_on_zero_episodes Traj.__init__ tt tt
                0%Q true tt (seen 1) [1] [500] [1] 2
                eq_refl eq_refl eq_refl eq_refl eq_refl eq_refl)
      as [Hfine _].
    apply Hfine. discriminate.
Defined.

(** *** Stacked frames, the loss and the bonus *)

Lemma forward_reads_the_last_frame_witness :
  match Rnd.forward toy_rnd two_steps (Some done_last),
        Rnd.forward toy_rnd two_stacked (Some done_last) with
  | Some (self1, phi1, pred1, n1), Some (self2, phi2, pred2, n2) =>
      self1 = self2 ∧ n1 = n2 ∧
      ∀ t b, (t < 2)%nat → (b < 1)%nat →
             phi1 t b = phi2 t b ∧ pred1 t b = pred2 t b
  | None, None => True
  | _, _ => False
  end.
Proof.
  apply (RndFacts.forward_reads_the_last_frame toy_rnd two_steps two_stacked
           (Some done_last) eq_refl eq_refl).
  intros t b _ _. reflexivity.
Defined.

Lemma loss_is_the_mean_over_kept_entries_witness :
  ∃ self' loss,
    Rnd.compute_loss toy_rnd two_steps (λ _ _, 1%Q)
      (λ t _, inject_Z (Z.of_nat t) * 2)%Q = Some (self', loss) ∧
    (loss == 0)%Q ∧
    ((0, 0)%nat ∈
       filter (λ tb, Rnd.kept (Rnd.drop_probability toy_rnd)
                       (λ t _, inject_Z (Z.of_nat t) * 2)%Q tb = true)
         (Rnd.entries 2 1)).
Proof.
  assert (Hloss : is_Some (Rnd.compute_loss toy_rnd two_steps (λ _ _, 1%Q)
                             (λ t _, inject_Z (Z.of_nat t) * 2)%Q))
    by by_running.
  destruct Hloss as [[self' loss] Hloss].
  pose proof (RndFacts.loss_is_the_mean_over_kept_entries toy_rnd self'
                two_steps (λ _ _, 1%Q) (λ t _, inject_Z (Z.of_nat t) * 2)%Q
                loss Hloss) as [Hmean Hkept].
  exists self', loss. split; [exact Hloss|]. split.
  - rewrite Hmean. vm_compute. reflexivity.
  - apply Hkept. split; [by_running|vm_compute; discriminate].
Defined.

(** On [two_steps] the loss is computed; on a batch without a timestep
    [compute_loss] raises. *)
Lemma loss_leaves_the_module_alone_witness :
  is_Some (Rnd.compute_loss toy_rnd two_steps (λ _ _, 1%Q) (λ _ _, 0%Q)) ∧
  Rnd.compute_loss toy_rnd no_steps (λ _ _, 1%Q) (λ _ _, 0%Q) = None.
Proof.
  split.
  - destruct (RndFacts.loss_leaves_the_module_alone toy_rnd two_steps
                (λ _ _, 1%Q) (λ _ _, 0%Q)) as (_ & _ & Hreturns & _).
    apply Hreturns. split; [exact two_steps_stacked|].
    apply toy_accepted; simpl; lia.
  - destruct (RndFacts.loss_leaves_the_module_alone toy_rnd no_steps
                (λ _ _, 1%Q) (λ _ _, 0%Q)) as (_ & _ & _ & Hraises).
    apply Hraises. left. reflexivity.
Defined.

Lemma rewarded_made :
  Rnd.compute_bonus (Handle := list Q) toy_rnd two_steps done_last
  = Some (rewarded_module, rewarded_bonus).
Proof.
  unfold rewarded_module, rewarded_bonus.
  assert (Hsome : is_Some rewarded) by by_running.
  destruct Hsome as [[self' bonus] Hr]. rewrite Hr. exact Hr.
Qed.

Lemma bonus_is_not_negative_witness :
  (0 <= rewarded_bonus 0%nat 0%nat)%Q.
Proof.
  apply (RndFacts.bonus_is_not_negative (Handle := list Q) toy_rnd
           rewarded_module two_steps done_last rewarded_bonus rewarded_made).
  - vm_compute. discriminate.
  - reflexivity.
  - vm_compute. reflexivity.
Defined.

End Runs.
